(** * Debt ledger and date bucketing of the budgeting dashboard

    A shallow embedding of the date utilities (utils/date) and of the debt
    handlers of [App.tsx], with the properties of the ledger, of the
    recurring expander and of the week filter.

    Modelling conventions.
    - A JavaScript [Date] holds a time value: a number of milliseconds since
      the epoch, or NaN for an Invalid Date.  It is an [option Z] here,
      [None] standing for NaN.  The methods follow the abstract operations of
      ECMAScript (Day, TimeWithinDay, DayFromYear, YearFromTime, MonthFromTime,
      DateFromTime, WeekDay, MakeTime, MakeDay, MakeDate, TimeClip).
    - The local time zone has a constant offset [tza] from UTC (as
      Asia/Ho_Chi_Minh has had since 1975, the zone of the application's
      locale); changes of offset are outside the model, and the properties
      of the weeks are stated on the days of the local calendar, not on
      distances in milliseconds.
    - Amounts of money are JavaScript numbers.  The modules [App] and
      [AppMore] of the debts take them on the whole numbers, as integers,
      with the quotient of the aggregation layer as an exact rational; the
      module [Doubles] and the handlers of the spending totals take them as
      the doubles that the code computes with ([JSNumber]).  The two ledgers
      agree on whole amounts up to 2^53 ([DoubleLedgerFacts]).
    - The clock ([new Date()], [Date.now()]) is an explicit argument. *)

From Stdlib Require Import ZArith List String Ascii Bool Lia QArith Permutation.
From Stdlib Require Import DecimalString.
Import ListNotations.
Open Scope Z_scope.

(** ** ECMAScript time values *)

Module JSDate.

Definition msPerDay : Z := 86400000.
Definition msPerHour : Z := 3600000.
Definition msPerMinute : Z := 60000.
Definition msPerSecond : Z := 1000.

Definition Day (t : Z) : Z := t / msPerDay.
Definition TimeWithinDay (t : Z) : Z := t mod msPerDay.

Definition isLeap (y : Z) : bool :=
  (y mod 4 =? 0) && (negb (y mod 100 =? 0) || (y mod 400 =? 0)).

Definition DaysInYear (y : Z) : Z := if isLeap y then 366 else 365.

Definition DayFromYear (y : Z) : Z :=
  365 * (y - 1970) + (y - 1969) / 4 - (y - 1901) / 100 + (y - 1601) / 400.

(** [YearFromDay d] is the largest [y] with [DayFromYear y <= d]: the search
    starts at the first year of the 400-year block of [d] (a block has
    146097 days) and climbs while the next year still starts on or before
    [d]. *)
Fixpoint climbYear (fuel : nat) (y d : Z) : Z :=
  match fuel with
  | O => y
  | S fuel' => if DayFromYear (y + 1) <=? d then climbYear fuel' (y + 1) d else y
  end.

Definition YearFromDay (d : Z) : Z :=
  climbYear 400 (1970 + 400 * (d / 146097)) d.

Definition YearFromTime (t : Z) : Z := YearFromDay (Day t).

Definition InLeapYear (t : Z) : bool := isLeap (YearFromTime t).

Definition DayWithinYear (t : Z) : Z := Day t - DayFromYear (YearFromTime t).

(** Day of the year on which month [m] (0 to 11) starts. *)
Definition monthStart (leap : bool) (m : Z) : Z :=
  let l := if leap then 1 else 0 in
  match m with
  | 0 => 0
  | 1 => 31
  | 2 => 59 + l
  | 3 => 90 + l
  | 4 => 120 + l
  | 5 => 151 + l
  | 6 => 181 + l
  | 7 => 212 + l
  | 8 => 243 + l
  | 9 => 273 + l
  | 10 => 304 + l
  | _ => 334 + l
  end.

Definition monthOfYearDay (leap : bool) (dy : Z) : Z :=
  if dy <? monthStart leap 1 then 0
  else if dy <? monthStart leap 2 then 1
  else if dy <? monthStart leap 3 then 2
  else if dy <? monthStart leap 4 then 3
  else if dy <? monthStart leap 5 then 4
  else if dy <? monthStart leap 6 then 5
  else if dy <? monthStart leap 7 then 6
  else if dy <? monthStart leap 8 then 7
  else if dy <? monthStart leap 9 then 8
  else if dy <? monthStart leap 10 then 9
  else if dy <? monthStart leap 11 then 10
  else 11.

Definition MonthFromTime (t : Z) : Z :=
  monthOfYearDay (InLeapYear t) (DayWithinYear t).

Definition DateFromTime (t : Z) : Z :=
  DayWithinYear t - monthStart (InLeapYear t) (MonthFromTime t) + 1.

Definition WeekDay (t : Z) : Z := (Day t + 4) mod 7.

Definition MakeTime (hour min sec ms : Z) : Z :=
  hour * msPerHour + min * msPerMinute + sec * msPerSecond + ms.

(** [MakeDay]: the month may lie outside 0..11 and the date outside the
    month; both carry over. *)
Definition MakeDay (year month date : Z) : Z :=
  let ym := year + month / 12 in
  let mn := month mod 12 in
  DayFromYear ym + monthStart (isLeap ym) mn + date - 1.

Definition MakeDate (day time : Z) : Z := day * msPerDay + time.

Definition maxTime : Z := 8640000000000000.

Definition TimeClip (t : Z) : option Z :=
  if Z.abs t <=? maxTime then Some t else None.

(** *** Date objects

    A [Date] is its time value, [None] for an Invalid Date.  The getters take
    the time value of a valid date; a setter returns the new time value of
    the object it mutates.  Every object the source mutates is a copy made
    with [new Date(...)], so no two names share a date. *)

Definition Date : Set := option Z.

Section LocalZone.

Variable tza : Z.

Definition LocalTime (t : Z) : Z := t + tza.
Definition UTC (t : Z) : Z := t - tza.

(** [new Date(year, month, date)]: a year from 0 to 99 stands for 1900 + year
    (step "if 0 <= yi <= 99, let yr be 1900 + yi" of the constructor). *)
Definition newDate (year month date : Z) : Date :=
  let yr := if (0 <=? year) && (year <=? 99) then 1900 + year else year in
  TimeClip (UTC (MakeDate (MakeDay yr month date) (MakeTime 0 0 0 0))).

Definition getFullYear (t : Z) : Z := YearFromTime (LocalTime t).
Definition getMonth (t : Z) : Z := MonthFromTime (LocalTime t).
Definition getDate (t : Z) : Z := DateFromTime (LocalTime t).
Definition getDay (t : Z) : Z := WeekDay (LocalTime t).

Definition setDate (t : Z) (date : Z) : Date :=
  let l := LocalTime t in
  TimeClip (UTC (MakeDate (MakeDay (YearFromTime l) (MonthFromTime l) date)
                          (TimeWithinDay l))).

Definition setMonth (t : Z) (month : Z) : Date :=
  let l := LocalTime t in
  TimeClip (UTC (MakeDate (MakeDay (YearFromTime l) month (DateFromTime l))
                          (TimeWithinDay l))).

Definition setHours (t : Z) (hour min sec ms : Z) : Date :=
  let l := LocalTime t in
  TimeClip (UTC (MakeDate (Day l) (MakeTime hour min sec ms))).

End LocalZone.

(** Relational operators on dates compare the time values; a comparison with
    NaN is false. *)
Definition date_le (a b : Date) : bool :=
  match a, b with
  | Some x, Some y => x <=? y
  | _, _ => false
  end.

Definition date_ge (a b : Date) : bool := date_le b a.

End JSDate.

(** ** utils/date *)

Module DateUtils.
Import JSDate.

(** [Math.round (n / d)] for integers [n] and [d > 0]: the nearest integer,
    a half rounding up. *)
Definition Math_round_div (n d : Z) : Z := (2 * n + d) / (2 * d).

(** [Math.ceil (n / d)] for integers [n] and [d > 0]. *)
Definition Math_ceil_div (n d : Z) : Z := - ((- n) / d).

Definition oneDay : Z := 1000 * 60 * 60 * 24.

(** [daysBetween] on the integers: the quotient is rounded once, to the
    nearest integer.  The code rounds it to a double first
    ([Doubles.daysBetween]), which gives the same number for dates less
    than 2^51 milliseconds apart ([BetweenFacts.daysBetween_on_integers]). *)
Definition daysBetween (date1 date2 : Date) : option Z :=
  match date1, date2 with
  | Some t1, Some t2 =>
      let diff := Z.abs (t1 - t2) in
      Some (Math_round_div diff oneDay)
  | _, _ => None
  end.

(** Modelled from the spec: the declaration of [FilterState] in types.ts,
    which is not among the sources.  The type is one of all, year, month and
    week; [month] and [week] are optional. *)
Inductive FilterType : Set := FAll | FYear | FMonth | FWeek.

Record FilterState : Set := mkFilter {
  ftype : FilterType;
  fyear : Z;
  fmonth : option Z;
  fweek : option Z
}.

Record WeekRange : Set := mkRange { rstart : Date; rend : Date }.

Section LocalZone.

Variable tza : Z.

Definition getWeekRange (year weekNumber : Z) : WeekRange :=
  match newDate tza year 0 (1 + (weekNumber - 1) * 7) with
  | Some d =>
      let day := getDay tza d in
      let diff := getDate tza d - day + (if day =? 0 then -6 else 1) in
      match setDate tza d diff with
      | Some start => mkRange (Some start) (setDate tza start (getDate tza start + 6))
      | None => mkRange None None
      end
  | None => mkRange None None
  end.

(** [if (week)]: an absent week number and the number 0 are both falsy. *)
Definition isDateInFilter (date : Date) (filter : FilterState) : bool :=
  match ftype filter with
  | FAll => true
  | FYear =>
      match date with
      | Some t => getFullYear tza t =? fyear filter
      | None => false
      end
  | FMonth =>
      match date, fmonth filter with
      | Some t, Some m => (getFullYear tza t =? fyear filter) && (getMonth tza t =? m)
      | _, _ => false
      end
  | FWeek =>
      match fweek filter with
      | Some week =>
          if week =? 0 then false
          else
            let r := getWeekRange (fyear filter) week in
            let end' := match rend r with
                        | Some e => setHours tza e 23 59 59 999
                        | None => None
                        end in
            date_ge date (rstart r) && date_le date end'
      | None => false
      end
  end.

End LocalZone.

End DateUtils.

(** ** App.tsx: the debt model and its handlers *)

Module App.
Import JSDate DateUtils.

(** [n.toString()] and [`${n}`] for an integer [n]. *)
Definition toString (n : Z) : string := NilZero.string_of_int (Z.to_int n).

(** Modelled from the spec: the declaration of [DebtTransaction] in types.ts,
    which is not among the sources.  The fields are those the handlers
    write; [reason] is optional. *)
Inductive TransactionType : Set := payment | withdrawal.

Record DebtTransaction : Set := mkTransaction {
  tid : string;
  date : Date;
  amount : Z;
  type : TransactionType;
  reason : option string
}.

(** Modelled from the spec: the declaration of [Debt] in types.ts, which is
    not among the sources.  The fields are those the handlers read and
    write.  [targetMonth] and [targetYear] are compared with [undefined], and
    the handlers read [d.transactions || []], so the three are optional. *)
Record Debt : Set := mkDebt {
  id : string;
  name : string;
  source : string;
  totalAmount : Z;
  amountPaid : Z;
  dueDate : Date;
  createdAt : Date;
  targetMonth : option Z;
  targetYear : option Z;
  transactions : option (list DebtTransaction)
}.

(** [d.transactions || []] *)
Definition transactionsOf (d : Debt) : list DebtTransaction :=
  match transactions d with
  | Some l => l
  | None => []
  end.

(** *** Ledger handlers

    [now] is the clock read by [Date.now()] and [new Date()]; the functions
    are the updaters given to [setDebts]. *)

Definition handleAddPayment (now : Z) (id0 : string) (amount0 : Z)
    (prev : list Debt) : list Debt :=
  map (fun d =>
         if String.eqb (id d) id0 then
           let newTransaction :=
             mkTransaction (toString now) (Some now) amount0 payment None in
           mkDebt (id d) (name d) (source d) (totalAmount d)
                  (amountPaid d + amount0)
                  (dueDate d) (createdAt d) (targetMonth d) (targetYear d)
                  (Some (transactionsOf d ++ [newTransaction]))
         else d) prev.

Definition handleWithdrawPayment (now : Z) (id0 : string) (amount0 : Z)
    (reason0 : string) (prev : list Debt) : list Debt :=
  map (fun d =>
         if String.eqb (id d) id0 then
           let newTransaction :=
             mkTransaction (toString now) (Some now) amount0 withdrawal
                           (Some reason0) in
           mkDebt (id d) (name d) (source d) (totalAmount d)
                  (Z.max 0 (amountPaid d - amount0))
                  (dueDate d) (createdAt d) (targetMonth d) (targetYear d)
                  (Some (transactionsOf d ++ [newTransaction]))
         else d) prev.

(** *** Active and completed debts *)

Record Partition : Set := mkPartition {
  activeDebts : list Debt;
  completedDebts : list Debt
}.

Definition partitionDebts (debts : list Debt) : Partition :=
  fold_left (fun acc debt =>
               if amountPaid debt >=? totalAmount debt
               then mkPartition (activeDebts acc) (completedDebts acc ++ [debt])
               else mkPartition (activeDebts acc ++ [debt]) (completedDebts acc))
            debts (mkPartition [] []).

(** *** The [DebtItem] component

    Its local state and its handlers.  [debt] is the property the component
    is rendered with; a handler returns the new local state and, when it
    calls [onAddPayment] or [onWithdrawPayment], the new debts. *)

Record DebtItemState : Set := mkItem {
  inputValue : Z;
  showWithdrawReason : bool;
  withdrawReason : string
}.

(** The white space that [String.prototype.trim] strips: the WhiteSpace and
    LineTerminator characters of ECMAScript.  A text is held here as the bytes
    of its UTF-8 form, so a white space character is one byte (U+0009 to
    U+000D, U+0020), two bytes (U+00A0 is C2 A0) or three bytes (U+1680 is
    E1 9A 80; U+2000 to U+200A, U+2028, U+2029 and U+202F are E2 80 followed
    by 80 to 8A, A8, A9 or AF; U+205F is E2 81 9F; U+3000 is E3 80 80; U+FEFF
    is EF BB BF). *)
Definition isWhiteSpace (c : ascii) : bool :=
  let n := nat_of_ascii c in
  ((9 <=? n) && (n <=? 13))%nat || (n =? 32)%nat.

Definition isWhiteSpace2 (c1 c2 : ascii) : bool :=
  ((nat_of_ascii c1 =? 194) && (nat_of_ascii c2 =? 160))%nat.

Definition isWhiteSpace3 (c1 c2 c3 : ascii) : bool :=
  let n1 := nat_of_ascii c1 in
  let n2 := nat_of_ascii c2 in
  let n3 := nat_of_ascii c3 in
  ((n1 =? 225) && (n2 =? 154) && (n3 =? 128)
   || (n1 =? 226) && (n2 =? 128)
      && ((128 <=? n3) && (n3 <=? 138) || (n3 =? 168) || (n3 =? 169) || (n3 =? 175))
   || (n1 =? 226) && (n2 =? 129) && (n3 =? 159)
   || (n1 =? 227) && (n2 =? 128) && (n3 =? 128)
   || (n1 =? 239) && (n2 =? 187) && (n3 =? 191))%nat.

(** [!s.trim()]: the string is empty once the white space is trimmed, that
    is, it is made of white space characters only. *)
Fixpoint trimIsEmpty (s : string) : bool :=
  match s with
  | EmptyString => true
  | String c1 s1 =>
      if isWhiteSpace c1 then trimIsEmpty s1
      else
        match s1 with
        | EmptyString => false
        | String c2 s2 =>
            if isWhiteSpace2 c1 c2 then trimIsEmpty s2
            else
              match s2 with
              | EmptyString => false
              | String c3 s3 => isWhiteSpace3 c1 c2 c3 && trimIsEmpty s3
              end
        end
  end.

Definition handleAdd (now : Z) (debt : Debt) (st : DebtItemState)
    (debts : list Debt) : DebtItemState * list Debt :=
  if inputValue st <=? 0 then (st, debts)
  else (mkItem 0 (showWithdrawReason st) (withdrawReason st),
        handleAddPayment now (id debt) (inputValue st) debts).

Definition initiateWithdraw (debt : Debt) (st : DebtItemState) : DebtItemState :=
  if inputValue st <=? 0 then st
  else if inputValue st >? amountPaid debt then st
  else mkItem (inputValue st) true (withdrawReason st).

Definition confirmWithdraw (now : Z) (debt : Debt) (st : DebtItemState)
    (debts : list Debt) : DebtItemState * list Debt :=
  if trimIsEmpty (withdrawReason st) then (st, debts)
  else (mkItem 0 false EmptyString,
        handleWithdrawPayment now (id debt) (inputValue st)
                              (withdrawReason st) debts).

(** The events of one mounted [DebtItem]: typing in the amount field or in
    the reason field, and the four buttons. *)
Inductive ItemEvent : Set :=
| TypeAmount (v : Z)
| ClickAdd
| ClickWithdraw
| TypeReason (s : string)
| ClickCancel
| ClickConfirm.

(** A [DebtItem] is rendered for an active debt (one of [displayDebts],
    whose month filter is taken to show the debt), with the debt of the
    current debts that has its id. *)
Definition debtOf (id0 : string) (debts : list Debt) : option Debt :=
  find (fun d => String.eqb (id d) id0) (activeDebts (partitionDebts debts)).

(** One event on the item of debt [id0].  The reason field and the buttons
    under it exist only while [showWithdrawReason] holds. *)
Definition itemStep (now : Z) (id0 : string) (ev : ItemEvent)
    (s : DebtItemState * list Debt) : DebtItemState * list Debt :=
  let (st, debts) := s in
  match debtOf id0 debts with
  | None => s
  | Some debt =>
      match ev with
      | TypeAmount v => (mkItem v (showWithdrawReason st) (withdrawReason st), debts)
      | ClickAdd => handleAdd now debt st debts
      | ClickWithdraw => (initiateWithdraw debt st, debts)
      | TypeReason r =>
          if showWithdrawReason st
          then (mkItem (inputValue st) true r, debts) else s
      | ClickCancel =>
          if showWithdrawReason st
          then (mkItem (inputValue st) false (withdrawReason st), debts) else s
      | ClickConfirm =>
          if showWithdrawReason st then confirmWithdraw now debt st debts else s
      end
  end.

Definition runItem (now : Z) (id0 : string) (evs : list ItemEvent)
    (s : DebtItemState * list Debt) : DebtItemState * list Debt :=
  fold_left (fun s ev => itemStep now id0 ev s) evs s.

(** *** Weekly debt contribution

    A JavaScript number that may be NaN: [None] is NaN.  The sum and the
    quotient of the reducer are exact. *)

Definition Number : Set := option Q.

Definition Nplus (a b : Number) : Number :=
  match a, b with
  | Some x, Some y => Some (x + y)%Q
  | _, _ => None
  end.

(** [n / w] for an integer [n] and a number of weeks [w] that is an integer
    other than 0, or NaN. *)
Definition Ndiv (n : Z) (w : option Z) : Number :=
  match w with
  | Some w' => Some (inject_Z n / inject_Z w')%Q
  | None => None
  end.

(** [w <= 0], false when [w] is NaN. *)
Definition Nle0 (w : option Z) : bool :=
  match w with
  | Some w' => w' <=? 0
  | None => false
  end.

(** [Math.ceil(daysBetween(new Date(), dueDate) / 7)] *)
Definition weeksLeftOf (now : Z) (due : Date) : option Z :=
  match daysBetween (Some now) due with
  | Some days => Some (Math_ceil_div days 7)
  | None => None
  end.

Definition weeklyDebtContribution (now : Z) (active : list Debt) : Number :=
  fold_left (fun total debt =>
               let remainingAmount := totalAmount debt - amountPaid debt in
               if remainingAmount <=? 0 then total
               else
                 let weeksLeft := weeksLeftOf now (dueDate debt) in
                 if Nle0 weeksLeft
                 then Nplus total (Some (inject_Z remainingAmount))
                 else Nplus total (Ndiv remainingAmount weeksLeft))
            active (Some 0%Q).

(** *** Creating debts ([handleSaveDebt]) *)

Inductive Frequency : Set := weekly | monthly.

(** The value of a date input: the empty string, or a date string, which
    stands here for the date that [new Date(string)] makes of it (the parser
    is not modelled). *)
Inductive DateField : Set :=
| emptyField
| dateString (parsed : Date).

Definition fieldIsEmpty (f : DateField) : bool :=
  match f with
  | emptyField => true
  | dateString _ => false
  end.

Definition newDateOfField (f : DateField) : Date :=
  match f with
  | emptyField => None
  | dateString d => d
  end.

(** The date [new Date("yyyy-mm-dd")] of a date-only string: midnight UTC. *)
Definition isoDate (y m d : Z) : Date :=
  TimeClip (MakeDate (MakeDay y (m - 1) d) 0).

(** The state [newDebt] of the form. *)
Record NewDebt : Set := mkNewDebt {
  nd_name : string;
  nd_source : string;
  nd_totalAmount : Z;
  nd_dueDate : DateField;
  nd_targetMonth : Z;
  nd_targetYear : Z
}.

Inductive DebtType : Set := standard | shopee.

(** The state of the debt form that [handleSaveDebt] reads. *)
Record DebtForm : Set := mkForm {
  editingDebtId : option string;
  debtType : DebtType;
  isRecurringDebt : bool;
  newDebt : NewDebt;
  shopeeBillMonth : Z;
  shopeeBillYear : Z;
  recurringFrequency : Frequency;
  recurringEndDate : DateField
}.

(** What a branch of the handler does: it returns early after an alert, or
    it reaches [setDebts] with the debts to add. *)
Inductive Outcome : Set :=
| alerted
| added (debtsToAdd : list Debt).

Section LocalZone.

Variable tza : Z.

(** The Shopee SPayLater branch: the debt pushed on [debtsToAdd]. *)
Definition shopeeDebt (now : Z) (newDebt0 : NewDebt)
    (billMonth billYear : Z) : Debt :=
  let dueMonth0 := billMonth + 1 in
  let dueYear0 := billYear in
  let dueMonth := if dueMonth0 >? 11 then 0 else dueMonth0 in
  let dueYear := if dueMonth0 >? 11 then dueYear0 + 1 else dueYear0 in
  let dueDate0 := newDate tza dueYear dueMonth 10 in
  mkDebt (toString now)
         ("SPayLater - Hóa đơn T" ++ toString (billMonth + 1))%string
         "Shopee SPayLater"%string
         (nd_totalAmount newDebt0)
         0
         dueDate0
         (Some now)
         (Some dueMonth)
         (Some dueYear)
         (Some []).

Definition debtNameSuffix (frequency : Frequency) (month year count : Z)
    : string :=
  match frequency with
  | monthly => ("(Tháng " ++ toString (month + 1) ++ "/" ++ toString year ++ ")")%string
  | weekly => ("(Kỳ " ++ toString count ++ ")")%string
  end.

(** The installment pushed by one iteration of the loop, for the time value
    [c] of [currentDate]. *)
Definition installment (now : Z) (newDebt0 : NewDebt)
    (frequency : Frequency) (c count : Z) : Debt :=
  let month := getMonth tza c in
  let year := getFullYear tza c in
  mkDebt (toString now ++ "-" ++ toString count)%string
         (nd_name newDebt0 ++ " " ++ debtNameSuffix frequency month year count)%string
         (nd_source newDebt0)
         (nd_totalAmount newDebt0)
         0
         (Some c)
         (Some now)
         (Some month)
         (Some year)
         (Some []).

(** "Advance Date": the new time value of [currentDate]. *)
Definition advance (frequency : Frequency) (c : Z) : Date :=
  match frequency with
  | weekly => setDate tza c (getDate tza c + 7)
  | monthly => setMonth tza c (getMonth tza c + 1)
  end.

(** The [while (currentDate <= endDate)] loop, with the mutable
    [currentDate], [count] and [debtsToAdd] as arguments.  The test holds
    only of two valid dates.  [fuel] bounds the number of iterations: the
    result is [None] when it runs out before the test fails. *)
Fixpoint recurringLoop (fuel : nat) (now : Z) (newDebt0 : NewDebt)
    (frequency : Frequency) (endDate currentDate : Date) (count : Z)
    (debtsToAdd : list Debt) : option (list Debt) :=
  match currentDate, endDate with
  | Some c, Some e =>
      if c <=? e then
        match fuel with
        | O => None
        | S fuel' =>
            recurringLoop fuel' now newDebt0 frequency endDate
              (advance frequency c) (count + 1)
              (debtsToAdd ++ [installment now newDebt0 frequency c count])
        end
      else Some debtsToAdd
  | _, _ => Some debtsToAdd
  end.

(** The recurring branch: it returns after the alert when a date field is
    empty, and otherwise runs the loop from [startDate] with [count = 1]. *)
Definition recurringDebts (fuel : nat) (now : Z) (newDebt0 : NewDebt)
    (frequency : Frequency) (endField : DateField)
    : option Outcome :=
  if fieldIsEmpty (nd_dueDate newDebt0) || fieldIsEmpty endField
  then Some alerted
  else
    let startDate := newDateOfField (nd_dueDate newDebt0) in
    let endDate := newDateOfField endField in
    match recurringLoop fuel now newDebt0 frequency endDate startDate 1 [] with
    | Some debtsToAdd => Some (added debtsToAdd)
    | None => None
    end.

(** The single debt of the last branch. *)
Definition singleDebt (now : Z) (newDebt0 : NewDebt) : Debt :=
  mkDebt (toString now)
         (nd_name newDebt0)
         (nd_source newDebt0)
         (nd_totalAmount newDebt0)
         0
         (newDateOfField (nd_dueDate newDebt0))
         (Some now)
         (Some (nd_targetMonth newDebt0))
         (Some (nd_targetYear newDebt0))
         (Some []).

(** [if (editingDebtId)]: null and the empty string are both falsy. *)
Definition truthyId (i : option string) : option string :=
  match i with
  | Some EmptyString => None
  | _ => i
  end.

(** [handleSaveDebt] on the debts: the update of the debt being edited, or
    the debts of the form added after the others.  The result is [None] when
    the loop of the recurring branch runs out of fuel. *)
Definition handleSaveDebt (fuel : nat) (now : Z) (form : DebtForm)
    (prev : list Debt) : option (list Debt) :=
  let nd := newDebt form in
  match truthyId (editingDebtId form) with
  | Some editing =>
      Some (map (fun d =>
                   if String.eqb (id d) editing then
                     mkDebt (id d) (nd_name nd) (nd_source nd) (nd_totalAmount nd)
                            (amountPaid d)
                            (newDateOfField (nd_dueDate nd))
                            (createdAt d)
                            (Some (nd_targetMonth nd))
                            (Some (nd_targetYear nd))
                            (transactions d)
                   else d) prev)
  | None =>
      match debtType form with
      | shopee =>
          Some (prev ++ [shopeeDebt now nd (shopeeBillMonth form) (shopeeBillYear form)])
      | standard =>
          if isRecurringDebt form then
            match recurringDebts fuel now nd (recurringFrequency form)
                                 (recurringEndDate form) with
            | Some alerted => Some prev
            | Some (added debtsToAdd) => Some (prev ++ debtsToAdd)
            | None => None
            end
          else Some (prev ++ [singleDebt now nd])
      end
  end.

End LocalZone.

End App.

(** ** Notions the properties are stated with *)

Module Props.
Import JSDate DateUtils App.

(** The last millisecond of the local calendar day of the time value [e]. *)
Definition endOfLocalDay (tza e : Z) : Z :=
  (Day (LocalTime tza e) + 1) * msPerDay - 1 - tza.

(** The date of that millisecond (an Invalid Date when it lies beyond the
    range of time values). *)
Definition lastMillisecondOfDay (tza : Z) (e : Date) : Date :=
  match e with
  | Some e' => TimeClip (endOfLocalDay tza e')
  | None => None
  end.

(** [d] lies within the span from [lo] to [hi], both included. *)
Definition within (d lo hi : Date) : Prop :=
  exists t a b, d = Some t /\ lo = Some a /\ hi = Some b /\ a <= t <= b.

(** Equality of numbers: both NaN, or equal rationals. *)
Definition Neq (a b : Number) : Prop :=
  match a, b with
  | Some x, Some y => (x == y)%Q
  | None, None => True
  | _, _ => False
  end.

(** The share of one debt in the reducer of [weeklyDebtContribution]:
    nothing when nothing remains to pay; the whole remaining balance when the
    [weeksLeft] that the code computes is not positive; the remaining balance
    divided by it otherwise. *)
Definition contribution (now : Z) (debt : Debt) : Number :=
  let remaining := totalAmount debt - amountPaid debt in
  if remaining <=? 0 then Some 0%Q
  else
    match weeksLeftOf now (dueDate debt) with
    | Some weeksLeft =>
        if weeksLeft <=? 0 then Some (inject_Z remaining)
        else Some (inject_Z remaining / inject_Z weeksLeft)%Q
    | None => None
    end.

Definition sumOfContributions (now : Z) (debts : list Debt) : Number :=
  fold_right Nplus (Some 0%Q) (map (contribution now) debts).

(** The contribution of one debt as the specification words it, with
    nothing taken from the code: nothing when nothing remains to pay; the full
    remaining balance when the debt is due now or overdue (its due date is
    not after [now]); and otherwise, with
    [weeksLeft = ceil (daysBetween (now, dueDate) / 7)] and [daysBetween] the
    number of days between the two dates rounded to the nearest day, the full
    remaining balance when [weeksLeft <= 0] and the remaining balance divided
    by [weeksLeft] when not. *)
Definition specifiedContribution (now : Z) (debt : Debt) : Number :=
  let remaining := totalAmount debt - amountPaid debt in
  if remaining <=? 0 then Some 0%Q
  else
    match dueDate debt with
    | Some due =>
        if due <=? now then Some (inject_Z remaining)
        else
          let days := (2 * Z.abs (now - due) + 86400000) / (2 * 86400000) in
          let weeksLeft := - ((- days) / 7) in
          if weeksLeft <=? 0 then Some (inject_Z remaining)
          else Some (inject_Z remaining / inject_Z weeksLeft)%Q
    | None => None
    end.

Definition specifiedWeeklyContribution (now : Z) (debts : list Debt) : Number :=
  fold_right Nplus (Some 0%Q) (map (specifiedContribution now) debts).

Definition completed (d : Debt) : bool := amountPaid d >=? totalAmount d.

(** The fields of a debt that a payment or a withdrawal must leave alone. *)
Definition sameFrame (d d' : Debt) : Prop :=
  id d' = id d /\ name d' = name d /\ source d' = source d /\
  totalAmount d' = totalAmount d /\ dueDate d' = dueDate d /\
  createdAt d' = createdAt d /\ targetMonth d' = targetMonth d /\
  targetYear d' = targetYear d.

(** Number of days of month [m] (0 to 11) of year [y]. *)
Definition daysInMonth (y m : Z) : Z :=
  if m =? 11 then 31
  else monthStart (isLeap y) (m + 1) - monthStart (isLeap y) m.

(** A number of iterations that is enough for the loop of the recurring
    expansion: one per week from the current date to the end date. *)
Definition enoughFuel (endDate currentDate : Date) : nat :=
  match currentDate, endDate with
  | Some c, Some e => Z.to_nat ((e - c) / (7 * msPerDay) + 1)
  | _, _ => O
  end.

(** The installments of a weekly expansion as the specification words them:
    [k] installments from the date [c], a week apart, numbered from
    [count]. *)
Fixpoint weeklyInstallments (tza now : Z) (newDebt : NewDebt) (k : nat)
    (c count : Z) : list Debt :=
  match k with
  | O => []
  | S k' =>
      installment tza now newDebt weekly c count
      :: weeklyInstallments tza now newDebt k' (c + 7 * msPerDay) (count + 1)
  end.

End Props.


From Stdlib Require Import Qround Qpower Qabs Qreduction Sorted Lqa DecimalPos DecimalZ.
From Stdlib Require Qcanon.
Open Scope Z_scope.

(** ** The numbers of JavaScript

    A Number is a binary64 floating point number.  A finite one is held here
    as the rational it stands for, in lowest terms; the sign of zero is not
    kept (no function of the application reads it).  An operation computes
    the exact rational and rounds it to the nearest double, a tie going to
    the double with an even significand, and to an infinity from 2^1024 on. *)

Module JSNumber.

Inductive number : Set :=
| NaN
| Infinity (negative : bool)
| Finite (q : Q).

Definition pow2 (e : Z) : Q := (2 ^ e)%Q.

(** The [e] with [2^e <= q < 2^(e+1)], for [q > 0]. *)
Definition ilog2 (q : Q) : Z :=
  let e := Z.log2 (Qnum q) - Z.log2 (Zpos (Qden q)) in
  if Qle_bool (pow2 e) q then e else e - 1.

(** The nearest integer, a tie going to the even one. *)
Definition roundEven (y : Q) : Z :=
  let f := Qfloor y in
  match (y - inject_Z f ?= 1 # 2)%Q with
  | Lt => f
  | Gt => f + 1
  | Eq => if Z.even f then f else f + 1
  end.

Definition isNegative (q : Q) : bool := Qnum q <? 0.

(** The doubles around [q] are the multiples of [2 ^ grain q]: 53 bits of
    significand, and the spacing of the subnormal numbers below 2^-1022. *)
Definition grain (q : Q) : Z := Z.max (ilog2 (Qabs q)) (-1022) - 52.

Definition round64 (q : Q) : number :=
  if Qeq_bool q 0 then Finite 0
  else
    let u := grain q in
    let r := (inject_Z (roundEven (q / pow2 u)) * pow2 u)%Q in
    if Qle_bool (pow2 1024) (Qabs r) then Infinity (isNegative q)
    else Finite (Qred r).

(** An integer as a number; it is a double when it is at most 2^53 in
    absolute value (and for some of the larger ones). *)
Definition ofZ (z : Z) : number := Finite (inject_Z z).

(** [-a], [a + b], [a - b], [a * b], [a / b] *)
Definition jsNeg (a : number) : number :=
  match a with
  | NaN => NaN
  | Infinity s => Infinity (negb s)
  | Finite x => Finite (Qred (- x))
  end.

Definition jsAdd (a b : number) : number :=
  match a, b with
  | NaN, _ | _, NaN => NaN
  | Infinity s, Infinity s' => if Bool.eqb s s' then Infinity s else NaN
  | Infinity s, Finite _ | Finite _, Infinity s => Infinity s
  | Finite x, Finite y => round64 (x + y)
  end.

Definition jsSub (a b : number) : number := jsAdd a (jsNeg b).

Definition jsMul (a b : number) : number :=
  match a, b with
  | NaN, _ | _, NaN => NaN
  | Infinity s, Infinity s' => Infinity (xorb s s')
  | Infinity s, Finite y | Finite y, Infinity s =>
      if Qeq_bool y 0 then NaN else Infinity (xorb s (isNegative y))
  | Finite x, Finite y => round64 (x * y)
  end.

Definition jsDiv (a b : number) : number :=
  match a, b with
  | NaN, _ | _, NaN => NaN
  | Infinity _, Infinity _ => NaN
  | Infinity s, Finite y => Infinity (xorb s (isNegative y))
  | Finite _, Infinity _ => Finite 0
  | Finite x, Finite y =>
      if Qeq_bool y 0
      then if Qeq_bool x 0 then NaN else Infinity (isNegative x)
      else round64 (x / y)
  end.

(** The comparison of two numbers; there is none when one of them is NaN,
    and [<], [<=], [>], [>=] are then all false. *)
Definition compareNumbers (a b : number) : option comparison :=
  match a, b with
  | NaN, _ | _, NaN => None
  | Finite x, Finite y => Some (x ?= y)%Q
  | Infinity s, Infinity s' =>
      Some (if Bool.eqb s s' then Eq else if s then Lt else Gt)
  | Infinity s, Finite _ => Some (if s then Lt else Gt)
  | Finite _, Infinity s => Some (if s then Gt else Lt)
  end.

Definition jsLt (a b : number) : bool :=
  match compareNumbers a b with
  | Some Lt => true
  | _ => false
  end.

Definition jsLe (a b : number) : bool :=
  match compareNumbers a b with
  | Some Lt | Some Eq => true
  | _ => false
  end.

Definition jsGt (a b : number) : bool := jsLt b a.

Definition jsGe (a b : number) : bool := jsLe b a.

(** [Math.max(a, b)]: NaN when an argument is NaN. *)
Definition Math_max (a b : number) : number :=
  match compareNumbers a b with
  | None => NaN
  | Some Lt => b
  | Some _ => a
  end.

Definition Math_abs (a : number) : number :=
  match a with
  | NaN => NaN
  | Infinity _ => Infinity false
  | Finite x => Finite (Qred (Qabs x))
  end.

(** [Math.floor], [Math.ceil] and [Math.round] give an integer, which is a
    double when the argument is one; [Math.round] takes a half up. *)
Definition Math_floor (a : number) : number :=
  match a with
  | Finite x => ofZ (Qfloor x)
  | _ => a
  end.

Definition Math_ceil (a : number) : number :=
  match a with
  | Finite x => ofZ (Qceiling x)
  | _ => a
  end.

Definition Math_round (a : number) : number :=
  match a with
  | Finite x => ofZ (Qfloor (x + (1 # 2)))
  | _ => a
  end.

(** [parseFloat] of the text of a decimal number: the double nearest to
    it. *)
Definition parseFloat (decimal : Q) : number := round64 decimal.

End JSNumber.

(** ** The ledger and the distances of dates on the numbers of JavaScript

    The handlers and the functions of this module are those of [App] and of
    [DateUtils] with the amounts and the results as the doubles that the code
    computes with, where [App] and [DateUtils] take them on the integers. *)

Module Doubles.
Import JSDate JSNumber.

(** [date.getTime()]: NaN for an Invalid Date. *)
Definition getTime (d : Date) : number :=
  match d with
  | Some t => ofZ t
  | None => NaN
  end.

(** [daysBetween] of utils/date. *)
Definition daysBetween (date1 date2 : Date) : number :=
  let oneDay := jsMul (jsMul (jsMul (ofZ 1000) (ofZ 60)) (ofZ 60)) (ofZ 24) in
  let diff := Math_abs (jsSub (getTime date1) (getTime date2)) in
  Math_round (jsDiv diff oneDay).

(** [weeksBetween] of utils/date. *)
Definition weeksBetween (d1 d2 : Date) : number :=
  Math_round
    (jsDiv (jsSub (getTime d2) (getTime d1))
           (jsMul (jsMul (jsMul (jsMul (ofZ 7) (ofZ 24)) (ofZ 60)) (ofZ 60))
                  (ofZ 1000))).

(** [onValueChange(numValue * 1000)] of [CurrencyInput], for a text that
    [parseFloat] reads as the decimal number [decimal]. *)
Definition CurrencyInput_value (decimal : Q) : number :=
  jsMul (parseFloat decimal) (ofZ 1000).

(** Modelled from the spec: the declarations of [DebtTransaction] and of
    [Debt] in types.ts, which is not among the sources; the fields are those
    of [App.DebtTransaction] and [App.Debt], the amounts being numbers. *)
Record DebtTransaction : Set := mkTransaction {
  tid : string;
  date : Date;
  amount : number;
  type : App.TransactionType;
  reason : option string
}.

Record Debt : Set := mkDebt {
  id : string;
  name : string;
  source : string;
  totalAmount : number;
  amountPaid : number;
  dueDate : Date;
  createdAt : Date;
  targetMonth : option Z;
  targetYear : option Z;
  transactions : option (list DebtTransaction)
}.

(** [d.transactions || []] *)
Definition transactionsOf (d : Debt) : list DebtTransaction :=
  match transactions d with
  | Some l => l
  | None => []
  end.

Definition handleAddPayment (now : Z) (id0 : string) (amount0 : number)
    (prev : list Debt) : list Debt :=
  map (fun d =>
         if String.eqb (id d) id0 then
           let newTransaction :=
             mkTransaction (App.toString now) (Some now) amount0 App.payment None in
           mkDebt (id d) (name d) (source d) (totalAmount d)
                  (jsAdd (amountPaid d) amount0)
                  (dueDate d) (createdAt d) (targetMonth d) (targetYear d)
                  (Some (transactionsOf d ++ [newTransaction]))
         else d) prev.

Definition handleWithdrawPayment (now : Z) (id0 : string) (amount0 : number)
    (reason0 : string) (prev : list Debt) : list Debt :=
  map (fun d =>
         if String.eqb (id d) id0 then
           let newTransaction :=
             mkTransaction (App.toString now) (Some now) amount0 App.withdrawal
                           (Some reason0) in
           mkDebt (id d) (name d) (source d) (totalAmount d)
                  (Math_max (ofZ 0) (jsSub (amountPaid d) amount0))
                  (dueDate d) (createdAt d) (targetMonth d) (targetYear d)
                  (Some (transactionsOf d ++ [newTransaction]))
         else d) prev.

(** [weeklyDebtContribution] of [App.tsx], [now] being the clock. *)
Definition weeklyDebtContribution (now : Z) (activeDebts : list Debt) : number :=
  fold_left (fun total debt =>
               let remainingAmount := jsSub (totalAmount debt) (amountPaid debt) in
               if jsLe remainingAmount (ofZ 0) then total
               else
                 let weeksLeft :=
                   Math_ceil (jsDiv (daysBetween (Some now) (dueDate debt)) (ofZ 7)) in
                 if jsLe weeksLeft (ofZ 0) then jsAdd total remainingAmount
                 else jsAdd total (jsDiv remainingAmount weeksLeft))
            activeDebts (ofZ 0).

(** A debt of [App], whose amounts are integers, as the debt it stands
    for. *)
Definition transactionOfApp (t : App.DebtTransaction) : DebtTransaction :=
  mkTransaction (App.tid t) (App.date t) (ofZ (App.amount t)) (App.type t)
                (App.reason t).

Definition debtOfApp (d : App.Debt) : Debt :=
  mkDebt (App.id d) (App.name d) (App.source d)
         (ofZ (App.totalAmount d)) (ofZ (App.amountPaid d))
         (App.dueDate d) (App.createdAt d) (App.targetMonth d) (App.targetYear d)
         (option_map (map transactionOfApp) (App.transactions d)).

(** The whole numbers that a double holds exactly whatever the order of the
    sums: from -2^53 to 2^53. *)
Definition safeInteger (z : Z) : Prop := Z.abs z <= 2 ^ 53.

End Doubles.

(** ** utils/date: the week number, the weeks of a year *)

Module DateUtilsMore.
Import JSDate DateUtils.

(** [Date.UTC(year, month, date)]: as the constructor, a year from 0 to 99
    stands for 1900 + year; the fields are read in UTC. *)
Definition DateUTC (year month date : Z) : Date :=
  let yr := if (0 <=? year) && (year <=? 99) then 1900 + year else year in
  TimeClip (MakeDate (MakeDay yr month date) (MakeTime 0 0 0 0)).

Definition getUTCFullYear (t : Z) : Z := YearFromTime t.
Definition getUTCDate (t : Z) : Z := DateFromTime t.
Definition getUTCDay (t : Z) : Z := WeekDay t.

Definition setUTCDate (t : Z) (date : Z) : Date :=
  TimeClip (MakeDate (MakeDay (YearFromTime t) (MonthFromTime t) date)
                     (TimeWithinDay t)).

(** An entry of [getWeeksInYear]. *)
Record WeekEntry : Set := mkWeek { week : Z; wstart : Date; wend : Date }.

Section LocalZone.

Variable tza : Z.

(** [getWeekNumber]: the pair of the year and the week number, each NaN
    ([None]) when the date it is read from is invalid.  The week number is
    [Math.ceil(((d - yearStart) / 86400000 + 1) / 7)], the least integer at
    or above [(d - yearStart + 86400000) / (7 * 86400000)]. *)
Definition getWeekNumber (d : Date) : option Z * option Z :=
  match d with
  | None => (None, None)
  | Some t0 =>
      match DateUTC (getFullYear tza t0) (getMonth tza t0) (getDate tza t0) with
      | None => (None, None)
      | Some d1 =>
          let day := getUTCDay d1 in
          match setUTCDate d1 (getUTCDate d1 + 4 - (if day =? 0 then 7 else day)) with
          | None => (None, None)
          | Some d2 =>
              let yearStart := DateUTC (getUTCFullYear d2) 0 1 in
              let weekNo :=
                match yearStart with
                | Some ys => Some (Math_ceil_div (d2 - ys + 86400000) (7 * 86400000))
                | None => None
                end in
              (Some (getUTCFullYear d2), weekNo)
          end
      end
  end.

(** The loop of [getWeeksInYear]: [n] values of [i] are left to run.
    [start.getFullYear() > year] is false when [start] is invalid. *)
Fixpoint weeksLoop (n : nat) (year i : Z) (weeks : list WeekEntry)
    : list WeekEntry :=
  match n with
  | O => weeks
  | S n' =>
      let r := getWeekRange tza year i in
      let past := match rstart r with
                  | Some s => getFullYear tza s >? year
                  | None => false
                  end in
      if past then weeks
      else weeksLoop n' year (i + 1) (weeks ++ [mkWeek i (rstart r) (rend r)])
  end.

Definition getWeeksInYear (year : Z) : list WeekEntry :=
  let isLeapYear := match newDate tza year 1 29 with
                    | Some t => getMonth tza t =? 1
                    | None => false
                    end in
  let days := if isLeapYear then 366 else 365 in
  let weekCount := Math_ceil_div days 7 in
  weeksLoop (Z.to_nat weekCount) year 1 [].

End LocalZone.

End DateUtilsMore.

(** ** App.tsx: the rest of the derived state and of the handlers *)

Module AppMore.
Import JSDate JSNumber DateUtils DateUtilsMore App.

(** [a > b] on dates; false when one is invalid. *)
Definition date_gt (a b : Date) : bool :=
  match a, b with
  | Some x, Some y => x >? y
  | _, _ => false
  end.

(** *** The status line of a [DebtItem] *)

Inductive StatusColor : Set := green | red | orange.

Definition isOverdue (today : Z) (debt : Debt) : bool :=
  let remaining := totalAmount debt - amountPaid debt in
  date_gt (Some today) (dueDate debt) && (remaining >? 0).

(** [Math.ceil((dueDate - today) / one day)], NaN for an invalid due date. *)
Definition daysLeft (today : Z) (debt : Debt) : option Z :=
  match dueDate debt with
  | Some due => Some (Math_ceil_div (due - today) (1000 * 60 * 60 * 24))
  | None => None
  end.

(** [statusColor] and [statusText].  Both tests are false of NaN. *)
Definition status (today : Z) (debt : Debt) : StatusColor * string :=
  match daysLeft today debt with
  | Some n =>
      if n <? 0 then (red, ("Quá hạn " ++ toString (Z.abs n) ++ " ngày")%string)
      else if n <=? 3 then (orange, ("Gấp! Còn " ++ toString n ++ " ngày")%string)
      else (green, ("Còn " ++ toString n ++ " ngày")%string)
  | None => (green, "Còn NaN ngày"%string)
  end.

(** *** Deleting a debt *)

(** [confirmed] is the answer to [window.confirm]. *)
Definition handleDeleteDebt (confirmed : bool) (id0 : string)
    (prev : list Debt) : list Debt :=
  if confirmed then filter (fun d => negb (String.eqb (id d) id0)) prev
  else prev.

(** *** Opening the form on a debt ([handleEditDebt]) *)

Definition isDigit (c : ascii) : bool :=
  let n := nat_of_ascii c in
  ((48 <=? n) && (n <=? 57))%nat.

(** The rest of [s] after the text [p], when [s] starts with it. *)
Fixpoint afterText (p s : string) : option string :=
  match p with
  | EmptyString => Some s
  | String a p' =>
      match s with
      | String b s' => if Ascii.eqb a b then afterText p' s' else None
      | EmptyString => None
      end
  end.

Fixpoint skipDigits (s : string) : string :=
  match s with
  | String c s' => if isDigit c then skipDigits s' else s
  | EmptyString => EmptyString
  end.

(** [\d+] at the start of [s]: the rest after the digits.  What follows
    [\d+] in the pattern is never a digit, so only the longest run of digits
    can be part of a match. *)
Definition afterDigits (s : string) : option string :=
  match s with
  | String c s' => if isDigit c then Some (skipDigits s') else None
  | EmptyString => None
  end.

Definition andThen (a : option string) (f : string -> option string)
    : option string :=
  match a with
  | Some s => f s
  | None => None
  end.

(** A match of the pattern of [handleEditDebt] at the start of [s], the
    monthly suffix or else the weekly one: the rest after the match. *)
Definition afterSuffix (s : string) : option string :=
  match andThen (andThen (andThen (andThen (afterText "(Tháng " s) afterDigits)
                                  (afterText "/")) afterDigits)
                (afterText ")") with
  | Some rest => Some rest
  | None => andThen (andThen (afterText "(Kỳ " s) afterDigits) (afterText ")")
  end.

(** [name.replace(pattern, '')]: the first match from the left is taken
    out. *)
Fixpoint stripSuffix (s : string) : string :=
  match afterSuffix s with
  | Some rest => rest
  | None =>
      match s with
      | String c s' => String c (stripSuffix s')
      | EmptyString => EmptyString
      end
  end.

(** [s.trim()]: the white space characters at the start and at the end of
    the text are taken out ([isWhiteSpace], [isWhiteSpace2] and
    [isWhiteSpace3] are the white space of one, two and three bytes). *)
Fixpoint trimStart (s : string) : string :=
  match s with
  | EmptyString => EmptyString
  | String c1 s1 =>
      if isWhiteSpace c1 then trimStart s1
      else
        match s1 with
        | EmptyString => s
        | String c2 s2 =>
            if isWhiteSpace2 c1 c2 then trimStart s2
            else
              match s2 with
              | EmptyString => s
              | String c3 s3 =>
                  if isWhiteSpace3 c1 c2 c3 then trimStart s3 else s
              end
        end
  end.

(** The text is kept up to the point from which only white space follows.
    No white space character starts with a continuation byte (80 to BF), so
    the cut never falls inside a character. *)
Fixpoint trimEnd (s : string) : string :=
  match s with
  | String c s' =>
      if trimIsEmpty s then EmptyString else String c (trimEnd s')
  | EmptyString => EmptyString
  end.

Definition trim (s : string) : string := trimEnd (trimStart s).

(** [new Date(d.toISOString().slice(0, 10))] for the time value [t] of a
    valid date.  The ISO text starts with the date in UTC: for a year from 0
    to 9999 its first ten characters are the text of the year, the month and
    the day, which the constructor reads as midnight UTC of that day; for
    another year the text has a sign and six digits of year, its first ten
    characters are the year and the month, read as midnight UTC of the first
    of the month. *)
Definition isoDateOfSlice (t : Z) : Date :=
  let y := YearFromTime t in
  if (0 <=? y) && (y <=? 9999)
  then TimeClip (MakeDate (MakeDay y (MonthFromTime t) (DateFromTime t)) 0)
  else TimeClip (MakeDate (MakeDay y (MonthFromTime t) 1) 0).

(** [handleEditDebt]: the state of the form that the dialog opens with; the
    fields of the form that the handler does not set are those of [form].
    [toISOString] throws on an Invalid Date, and the handler then sets
    nothing: the result is [None]. *)
Definition handleEditDebt (tza : Z) (form : DebtForm) (debt : Debt)
    : option DebtForm :=
  match dueDate debt with
  | None => None
  | Some t =>
      Some (mkForm (Some (id debt)) standard false
              (mkNewDebt (trim (stripSuffix (name debt)))
                         (source debt)
                         (totalAmount debt)
                         (dateString (isoDateOfSlice t))
                         (match targetMonth debt with
                          | Some m => m
                          | None => getMonth tza t
                          end)
                         (match targetYear debt with
                          | Some y => y
                          | None => getFullYear tza t
                          end))
              (shopeeBillMonth form) (shopeeBillYear form)
              (recurringFrequency form) (recurringEndDate form))
  end.

(** *** Fuel and internet *)

Record GasLog : Set := mkGasLog { gid : string; gdate : Date }.

(** [lastGasFill]: the last entry of the history, or null. *)
Definition lastGasFill (gasHistory : list GasLog) : option GasLog :=
  last (map Some gasHistory) None.

(** [lastWifiPayment] is a date or null; the tests on the number of days
    are false of NaN. *)
Definition isWifiPaidRecently (now : Z) (lastWifiPayment : option Date) : bool :=
  match lastWifiPayment with
  | None => false
  | Some p =>
      match daysBetween p (Some now) with
      | Some daysSince => daysSince <? 7
      | None => false
      end
  end.

Definition wifiWarning (now : Z) (lastWifiPayment : option Date) : bool :=
  match lastWifiPayment with
  | None => false
  | Some p =>
      match daysBetween p (Some now) with
      | Some daysSincePayment => daysSincePayment >=? 6
      | None => false
      end
  end.

(** [handleToggleWifi] reads the memoised [isWifiPaidRecently] of the last
    render, here the argument [paidRecently], and the clock of the click;
    the result is the new [lastWifiPayment]. *)
Definition handleToggleWifi (paidRecently : bool) (now : Z) : option Date :=
  if paidRecently then None else Some (Some now).

(** *** Spending totals *)

Definition GAS_COST : Z := 70000.
Definition WIFI_COST : Z := 30000.
Definition FIXED_EXPENSES : Z := GAS_COST + WIFI_COST.

(** [totalActualSpending], of the two spending totals of the state and of
    the weekly debt contribution. *)
Definition totalActualSpending
    (actualFoodSpending actualMiscSpending weeklyDebtContribution : number)
    : number :=
  jsAdd (jsAdd (jsAdd (ofZ FIXED_EXPENSES) actualFoodSpending) actualMiscSpending)
        weeklyDebtContribution.

(** [daysOffCanTake], of the active debts, the income and the total
    spending.  When the spending is NaN, [dailySpending <= 0] and
    [weeklyIncome > totalActualSpending] are both false, the surplus is 0
    and the result 0. *)
Definition daysOffCanTake (activeDebts : list Doubles.Debt)
    (weeklyIncome totalActualSpending : number) : number :=
  let totalDebtRemaining :=
    fold_left (fun sum d =>
                 jsAdd sum (jsSub (Doubles.totalAmount d) (Doubles.amountPaid d)))
              activeDebts (ofZ 0) in
  if jsLe totalDebtRemaining (ofZ 0) then Infinity false
  else
    let dailySpending := jsDiv totalActualSpending (ofZ 7) in
    if jsLe dailySpending (ofZ 0) then Infinity false
    else
      let surplus :=
        if jsGt weeklyIncome totalActualSpending
        then jsSub weeklyIncome totalActualSpending else ofZ 0 in
      if jsLe surplus (ofZ 0) then ofZ 0
      else Math_floor (jsDiv surplus dailySpending).

(** *** Miscellaneous expenses and the wallet import *)

(** Modelled from the spec: the declarations of [ExpenseLog] and of
    [Transaction] in types.ts, which is not among the sources.  The fields
    are those the handlers read and write; the category is compared with the
    strings food and misc. *)
Record ExpenseLog : Set := mkLog {
  lid : string;
  lname : string;
  lamount : number;
  ldate : Date
}.

Record Transaction : Set := mkTx {
  trid : string;
  description : string;
  tramount : number;
  trdate : Date;
  category : string;
  isSelected : bool
}.

(** The three pieces of state the handlers of the expenses write. *)
Record Spending : Set := mkSpending {
  actualFoodSpending : number;
  actualMiscSpending : number;
  miscLogs : list ExpenseLog
}.

(** [list.reduce((sum, t) => sum + t.amount, 0)] *)
Definition sumAmounts (l : list Transaction) : number :=
  fold_left (fun sum t => jsAdd sum (tramount t)) l (ofZ 0).

Definition handleImportMomoTransactions (foundTransactions : list Transaction)
    (s : Spending) : Spending :=
  let selectedTransactions := filter isSelected foundTransactions in
  let foodTotal :=
    sumAmounts (filter (fun t => String.eqb (category t) "food") selectedTransactions) in
  let miscTotal :=
    sumAmounts (filter (fun t => String.eqb (category t) "misc") selectedTransactions) in
  let newMiscLogs :=
    map (fun t => mkLog (trid t) (description t) (tramount t) (trdate t))
        (filter (fun t => String.eqb (category t) "misc") selectedTransactions) in
  mkSpending
    (if jsGt foodTotal (ofZ 0) then jsAdd (actualFoodSpending s) foodTotal
     else actualFoodSpending s)
    (if jsGt miscTotal (ofZ 0) then jsAdd (actualMiscSpending s) miscTotal
     else actualMiscSpending s)
    (if (0 <? Z.of_nat (List.length newMiscLogs))
     then miscLogs s ++ newMiscLogs else miscLogs s).

Definition toggleTransactionSelection (id0 : string)
    (prev : list Transaction) : list Transaction :=
  map (fun t =>
         if String.eqb (trid t) id0
         then mkTx (trid t) (description t) (tramount t) (trdate t) (category t)
                   (negb (isSelected t))
         else t) prev.

(** The state [newMiscLog] of the form. *)
Record NewMiscLog : Set := mkNewLog {
  nl_name : string;
  nl_amount : number;
  nl_date : DateField
}.

Definition handleAddMiscLog (now : Z) (newMiscLog : NewMiscLog)
    (s : Spending) : Spending :=
  let log := mkLog (toString now) (nl_name newMiscLog) (nl_amount newMiscLog)
                   (newDateOfField (nl_date newMiscLog)) in
  mkSpending (actualFoodSpending s)
             (jsAdd (actualMiscSpending s) (lamount log))
             (miscLogs s ++ [log]).

Definition handleDeleteMiscLog (id0 : string) (amount0 : number)
    (s : Spending) : Spending :=
  mkSpending (actualFoodSpending s)
             (Math_max (ofZ 0) (jsSub (actualMiscSpending s) amount0))
             (filter (fun log => negb (String.eqb (lid log) id0)) (miscLogs s)).

Section LocalZone.

Variable tza : Z.

(** The three comparisons of day, month and year with today. *)
Definition sameDayAsToday (today : Z) (d : Date) : bool :=
  match d with
  | Some t =>
      (getDate tza t =? getDate tza today) &&
      (getMonth tza t =? getMonth tza today) &&
      (getFullYear tza t =? getFullYear tza today)
  | None => false
  end.

Definition isGasFilledToday (today : Z) (gasHistory : list GasLog) : bool :=
  match lastGasFill gasHistory with
  | None => false
  | Some g => sameDayAsToday today (gdate g)
  end.

(** [handleToggleGas] reads the memoised [isGasFilledToday] of the last
    render, here the argument [filled], and the clock of the click: the
    entries of today are removed, or an entry of now is added. *)
Definition handleToggleGas (filled : bool) (now : Z) (prev : list GasLog)
    : list GasLog :=
  if filled
  then filter (fun log => negb (sameDayAsToday now (gdate log))) prev
  else prev ++ [mkGasLog (toString now) (Some now)].

(** The filter the application starts with: the calendar year of the
    current date and the week number that [getWeekNumber] gives it (a NaN
    week number is falsy, as an absent one). *)
Definition initialFilter (currentDate : Z) : FilterState :=
  mkFilter FWeek (getFullYear tza currentDate) None
           (snd (getWeekNumber tza (Some currentDate))).

(** *** The debts on display *)

(** [filterM] and [filterY]: the target month and year, or those of the due
    date; NaN ([None]) when they are read from an invalid date. *)
Definition filterM (debt : Debt) : option Z :=
  match targetMonth debt with
  | Some m => Some m
  | None => option_map (getMonth tza) (dueDate debt)
  end.

Definition filterY (debt : Debt) : option Z :=
  match targetYear debt with
  | Some y => Some y
  | None => option_map (getFullYear tza) (dueDate debt)
  end.

Definition strictEq (a : option Z) (b : Z) : bool :=
  match a with
  | Some v => v =? b
  | None => false
  end.

Definition inDebtFilter (debtFilterMonth debtFilterYear : Z) (debt : Debt) : bool :=
  strictEq (filterM debt) debtFilterMonth && strictEq (filterY debt) debtFilterYear.

(** [shopeeDueDatePreview] *)
Definition shopeeDueDatePreview (shopeeBillMonth shopeeBillYear : Z) : Date :=
  let dueMonth0 := shopeeBillMonth + 1 in
  let dueYear0 := shopeeBillYear in
  let dueMonth := if dueMonth0 >? 11 then 0 else dueMonth0 in
  let dueYear := if dueMonth0 >? 11 then dueYear0 + 1 else dueYear0 in
  newDate tza dueYear dueMonth 10.

End LocalZone.

(** The comparator of the sort, [a.dueDate.getTime() - b.dueDate.getTime()],
    read as "a is not after b"; a NaN difference counts as 0. *)
Definition notAfter (a b : Debt) : bool :=
  match dueDate a, dueDate b with
  | Some x, Some y => x <=? y
  | _, _ => true
  end.

(** [Array.prototype.sort] is stable; with a consistent comparator its
    result is the one stable sorted arrangement, which insertion from the
    right builds.  (When a due date is invalid the comparator is not
    consistent and the order is the engine's own.) *)
Fixpoint insertByDue (d : Debt) (l : list Debt) : list Debt :=
  match l with
  | [] => [d]
  | x :: l' => if notAfter d x then d :: x :: l' else x :: insertByDue d l'
  end.

Definition sortByDue (l : list Debt) : list Debt :=
  fold_right insertByDue [] l.

Definition displayDebts (tza : Z) (active : list Debt)
    (debtFilterMonth debtFilterYear : Z) : list Debt :=
  sortByDue (filter (inDebtFilter tza debtFilterMonth debtFilterYear) active).

End AppMore.

(** ** Notions the further properties are stated with *)

Module PropsMore.
Import JSDate JSNumber DateUtils DateUtilsMore App AppMore.

(** The day number (days since the epoch) of the Monday on or before the
    day [day]; day 0 was a Thursday. *)
Definition mondayOf (day : Z) : Z := day - (day + 3) mod 7.

(** The local day number of a time value. *)
Definition localDay (tza t : Z) : Z := Day (LocalTime tza t).

(** The time value of local midnight at the start of the day [day]. *)
Definition localMidnight (tza day : Z) : Z := day * msPerDay - tza.

(** The entry of the week [i] of a year, and the numbers 1 to [n]. *)
Definition weekEntry (tza year i : Z) : WeekEntry :=
  mkWeek i (rstart (getWeekRange tza year i)) (rend (getWeekRange tza year i)).

Definition oneTo (n : nat) : list Z := map Z.of_nat (seq 1 n).


(** The selected transactions of a category, and the log that the import
    makes of a transaction. *)
Definition selectedOf (cat : string) (found : list Transaction)
    : list Transaction :=
  filter (fun t => isSelected t && String.eqb (category t) cat) found.

Definition logOf (t : Transaction) : ExpenseLog :=
  mkLog (trid t) (description t) (tramount t) (trdate t).

(** The whole amount that a number holds, and the whole amounts of a list
    of transactions. *)
Definition wholeOf (x : number) : Z :=
  match x with
  | Finite q => Qfloor q
  | _ => 0
  end.

Definition isWhole (x : number) : Prop := x = ofZ (wholeOf x).

Definition amountOf (l : list Transaction) : Z :=
  fold_right (fun t acc => wholeOf (tramount t) + acc) 0 l.

(** The sum of what remains to pay on the debts of the ledger on numbers,
    for debts that hold whole amounts. *)
Definition totalRemainingOf (debts : list Doubles.Debt) : Z :=
  fold_right (fun d acc =>
                (wholeOf (Doubles.totalAmount d) - wholeOf (Doubles.amountPaid d)) + acc)
             0 debts.

(** An active debt of the ledger on numbers that holds whole amounts. *)
Definition wholeActive (d : Doubles.Debt) : Prop :=
  isWhole (Doubles.totalAmount d) /\ isWhole (Doubles.amountPaid d) /\
  wholeOf (Doubles.amountPaid d) < wholeOf (Doubles.totalAmount d).

(** The days that the surplus of the income pays for, as an exact
    quotient. *)
Definition exactDaysOff (income spending : Q) : Q :=
  (7 * (income - spending) / spending)%Q.

Definition dueTime (d : Debt) : Z :=
  match dueDate d with
  | Some t => t
  | None => 0
  end.

(** The order of the debts on display, and the debts it is defined on. *)
Definition byDue (a b : Debt) : Prop := dueTime a <= dueTime b.

Definition validDue (d : Debt) : Prop := dueDate d <> None.

(** The id of the installment number [count] of a series saved at [now]. *)
Definition installmentId (now count : Z) : string :=
  (toString now ++ "-" ++ toString count)%string.

(** The months counted from year 0. *)
Definition monthIndex (tza c : Z) : Z := 12 * getFullYear tza c + getMonth tza c.

(** A text with no opening parenthesis, and a text that does not start
    with a digit. *)
Fixpoint noParen (s : string) : bool :=
  match s with
  | String c s' => negb (Ascii.eqb "(" c) && noParen s'
  | EmptyString => true
  end.

Definition noDigitAhead (s : string) : bool :=
  match s with
  | String c _ => negb (isDigit c)
  | EmptyString => true
  end.

End PropsMore.
(** ** Concrete inputs used by the examples *)

Module Samples.
Import JSDate DateUtils App.

(** UTC+07:00, the offset of Asia/Ho_Chi_Minh. *)
Definition indochina : Z := 7 * msPerHour.

(** A debt of 1000 of which 100 is paid. *)
Definition carLoan : Debt :=
  mkDebt "d1" "Vay mua xe" "Ngân hàng" 1000 100
         (isoDate 2024 3 1) (Some 1700000000000) None None (Some []).

Definition phoneLoan : Debt :=
  mkDebt "d2" "Trả góp điện thoại" "FE Credit" 300 300
         (isoDate 2024 2 15) (Some 1700000000000) (Some 1) (Some 2024) None.

(** A [DebtItem] as it is mounted. *)
Definition freshItem : DebtItemState := mkItem 0 false EmptyString.

(** The user types 100 and opens the withdrawal panel, then types 500 in the
    amount field, gives a reason and confirms. *)
Definition retypedWithdrawal : list ItemEvent :=
  [TypeAmount 100; ClickWithdraw; TypeAmount 500; TypeReason "thuốc";
   ClickConfirm].

(** The form of a recurring debt that starts on 2024-01-01, and of one that
    starts on 2024-01-31. *)
Definition fromJan1 : NewDebt :=
  mkNewDebt "Góp xe" "Ngân hàng" 500 (dateString (isoDate 2024 1 1)) 0 2024.

Definition fromJan31 : NewDebt :=
  mkNewDebt "Góp xe" "Ngân hàng" 500 (dateString (isoDate 2024 1 31)) 0 2024.

Definition fromJan15 : NewDebt :=
  mkNewDebt "Góp xe" "Ngân hàng" 500 (dateString (isoDate 2024 1 15)) 0 2024.

(** The form of a new recurring debt, and of a new Shopee SPayLater debt. *)
Definition recurringForm (nd : NewDebt) (frequency : Frequency)
    (endField : DateField) : DebtForm :=
  mkForm None standard true nd 0 2024 frequency endField.

Definition shopeeForm (nd : NewDebt) (billMonth billYear : Z) : DebtForm :=
  mkForm None shopee false nd billMonth billYear monthly emptyField.

(** A debt of which 700 remains, due [days] days after the epoch. *)
Definition owes700 (days : Z) : Debt :=
  mkDebt "d3" "Vay bạn" "Bạn" 1000 300 (Some (days * msPerDay))
         (Some 0) None None (Some []).

(** The ledger on numbers: a debt of 2000000 of which 500000 is paid, and
    one that holds the amount of the text 1.005 as paid. *)
Definition motorbikeLoan : Doubles.Debt :=
  Doubles.mkDebt "d1" "Vay mua xe" "Ngân hàng"
                 (JSNumber.ofZ 2000000) (JSNumber.ofZ 500000)
                 (Some 1709251200000) (Some 1700000000000) None None None.

Definition fractionPaid : Doubles.Debt :=
  Doubles.mkDebt "d1" "Vay mua xe" "Ngân hàng"
                 (JSNumber.ofZ 2000000) (Doubles.CurrencyInput_value (1005 # 1000))
                 (Some 1709251200000) (Some 1700000000000) None None None.

End Samples.

(** ** Facts about the calendar *)

Module CalendarFacts.
Import JSDate Props.

Lemma DayFromYear_succ y : DayFromYear (y + 1) = DayFromYear y + DaysInYear y.
Proof.
  unfold DayFromYear, DaysInYear, isLeap.
  destruct (Z.eqb_spec (y mod 4) 0), (Z.eqb_spec (y mod 100) 0),
    (Z.eqb_spec (y mod 400) 0); cbn [andb orb negb];
    Z.div_mod_to_equations; lia.
Qed.

Lemma DayFromYear_block y q : DayFromYear (y + 400 * q) = DayFromYear y + 146097 * q.
Proof. unfold DayFromYear. Z.div_mod_to_equations. lia. Qed.

Lemma DayFromYear_lt y1 y2 : y1 < y2 -> DayFromYear y1 < DayFromYear y2.
Proof. unfold DayFromYear. intros. Z.div_mod_to_equations. lia. Qed.

Lemma DayFromYear_le y1 y2 : y1 <= y2 -> DayFromYear y1 <= DayFromYear y2.
Proof.
  intros H. destruct (Z.eq_dec y1 y2) as [->|]; [lia|].
  apply Z.lt_le_incl, DayFromYear_lt. lia.
Qed.

(** The climb stops at the year of [d] when it starts at or below it with
    enough steps to reach it. *)
Lemma climbYear_spec fuel : forall y d,
  DayFromYear y <= d < DayFromYear (y + Z.of_nat fuel) ->
  DayFromYear (climbYear fuel y d) <= d < DayFromYear (climbYear fuel y d + 1).
Proof.
  induction fuel as [|fuel IH]; intros y d H.
  - rewrite Z.add_0_r in H. lia.
  - cbn [climbYear]. destruct (Z.leb_spec (DayFromYear (y + 1)) d) as [Hle|Hgt].
    + apply IH. replace (y + 1 + Z.of_nat fuel) with (y + Z.of_nat (S fuel)) by lia.
      lia.
    + lia.
Qed.

Lemma YearFromDay_spec d :
  DayFromYear (YearFromDay d) <= d < DayFromYear (YearFromDay d + 1).
Proof.
  unfold YearFromDay. apply climbYear_spec.
  replace (1970 + 400 * (d / 146097) + Z.of_nat 400)
    with (1970 + 400 * (d / 146097 + 1)) by lia.
  rewrite !DayFromYear_block.
  change (DayFromYear 1970) with 0.
  Z.div_mod_to_equations. lia.
Qed.

Lemma YearFromDay_unique d y :
  DayFromYear y <= d < DayFromYear (y + 1) -> YearFromDay d = y.
Proof.
  intros H. pose proof (YearFromDay_spec d) as S.
  destruct (Z.lt_trichotomy (YearFromDay d) y) as [L|[E|G]]; [|exact E|].
  - assert (DayFromYear (YearFromDay d + 1) <= DayFromYear y)
      by (apply DayFromYear_le; lia). lia.
  - assert (DayFromYear (y + 1) <= DayFromYear (YearFromDay d))
      by (apply DayFromYear_le; lia). lia.
Qed.

#[local] Opaque climbYear YearFromDay DayFromYear.

Lemma DayWithinYear_range t :
  0 <= DayWithinYear t < DaysInYear (YearFromTime t).
Proof.
  unfold DayWithinYear, YearFromTime.
  pose proof (YearFromDay_spec (Day t)) as S.
  rewrite DayFromYear_succ in S. lia.
Qed.

Lemma monthOfYearDay_range leap dy : 0 <= monthOfYearDay leap dy <= 11.
Proof.
  unfold monthOfYearDay.
  repeat match goal with |- context [if ?b then _ else _] => destruct b end; lia.
Qed.

Lemma MonthFromTime_range t : 0 <= MonthFromTime t <= 11.
Proof. apply monthOfYearDay_range. Qed.

Lemma MakeDate_Day t : MakeDate (Day t) (TimeWithinDay t) = t.
Proof.
  unfold MakeDate, Day, TimeWithinDay, msPerDay. Z.div_mod_to_equations. lia.
Qed.

Lemma Day_MakeDate d tod : 0 <= tod < msPerDay -> Day (MakeDate d tod) = d.
Proof.
  unfold MakeDate, Day, msPerDay. intros. Z.div_mod_to_equations. nia.
Qed.

Lemma TimeWithinDay_MakeDate d tod :
  0 <= tod < msPerDay -> TimeWithinDay (MakeDate d tod) = tod.
Proof.
  unfold MakeDate, TimeWithinDay, msPerDay. intros. Z.div_mod_to_equations. nia.
Qed.

Lemma MakeDay_small_month y m dt :
  0 <= m <= 11 ->
  MakeDay y m dt = DayFromYear y + monthStart (isLeap y) m + dt - 1.
Proof.
  intros H. unfold MakeDay.
  rewrite (Z.div_small m 12), (Z.mod_small m 12), Z.add_0_r by lia. reflexivity.
Qed.

(** The fields of a time value make its day again, and a shifted date makes
    the day shifted as much. *)
Lemma MakeDay_fields t k :
  MakeDay (YearFromTime t) (MonthFromTime t) (DateFromTime t + k) = Day t + k.
Proof.
  rewrite MakeDay_small_month by apply MonthFromTime_range.
  unfold DateFromTime, DayWithinYear, InLeapYear. lia.
Qed.

Lemma monthOfYearDay_start leap dy :
  0 <= dy -> monthStart leap (monthOfYearDay leap dy) <= dy.
Proof.
  intros H. unfold monthOfYearDay.
  repeat match goal with
         | |- context [if ?a <? ?b then _ else _] => destruct (Z.ltb_spec a b)
         end; destruct leap; cbn in *; lia.
Qed.

Lemma monthOfYearDay_next leap dy :
  monthOfYearDay leap dy < 11 ->
  dy < monthStart leap (monthOfYearDay leap dy + 1).
Proof.
  unfold monthOfYearDay.
  repeat match goal with
         | |- context [if ?a <? ?b then _ else _] => destruct (Z.ltb_spec a b)
         end; destruct leap; cbn in *; lia.
Qed.


Lemma month_cases m : 0 <= m <= 11 ->
  m = 0 \/ m = 1 \/ m = 2 \/ m = 3 \/ m = 4 \/ m = 5 \/ m = 6 \/ m = 7 \/
  m = 8 \/ m = 9 \/ m = 10 \/ m = 11.
Proof. lia. Qed.

Ltac split_month H :=
  apply month_cases in H;
  repeat (destruct H as [H|H]; [subst|]); [..|subst].

Ltac decide_if :=
  match goal with
  | |- context [if ?a <? ?b then _ else _] =>
      destruct (Z.ltb_spec a b); [try lia|try lia]
  end.

Lemma monthOfYearDay_in_month leap m dy :
  0 <= m <= 11 ->
  monthStart leap m <= dy ->
  dy < (if m =? 11 then monthStart leap 11 + 31 else monthStart leap (m + 1)) ->
  monthOfYearDay leap dy = m.
Proof.
  intros Hm Hlo Hhi. unfold monthOfYearDay.
  split_month Hm; destruct leap; cbn in *; repeat decide_if.
Qed.

Lemma daysInMonth_range y m : 0 <= m <= 11 -> 28 <= daysInMonth y m <= 31.
Proof.
  intros H. unfold daysInMonth. split_month H; destruct (isLeap y); cbn; lia.
Qed.

(** The months tile the year. *)
Lemma month_fits y m :
  0 <= m <= 11 ->
  0 <= monthStart (isLeap y) m /\
  monthStart (isLeap y) m + daysInMonth y m <= DaysInYear y.
Proof.
  intros H. unfold daysInMonth, DaysInYear.
  split_month H; destruct (isLeap y); cbn; lia.
Qed.

(** Moving a time value to the next month moves its day by the length of its
    month. *)
Lemma MakeDay_next_month t :
  MakeDay (YearFromTime t) (MonthFromTime t + 1) (DateFromTime t)
  = Day t + daysInMonth (YearFromTime t) (MonthFromTime t).
Proof.
  pose proof (MakeDay_fields t 0) as F. rewrite !Z.add_0_r in F.
  pose proof (MonthFromTime_range t) as R. rewrite <- F.
  rewrite (MakeDay_small_month _ (MonthFromTime t)) by assumption.
  unfold daysInMonth.
  destruct (Z.eqb_spec (MonthFromTime t) 11) as [E|N].
  - rewrite E. unfold MakeDay. change ((11 + 1) / 12) with 1.
    change ((11 + 1) mod 12) with 0. rewrite DayFromYear_succ.
    unfold DaysInYear. destruct (isLeap (YearFromTime t)); cbn; lia.
  - rewrite MakeDay_small_month by lia. lia.
Qed.

(** The fields of a day made from a valid year, month and date. *)
Lemma fields_of_MakeDay y m dt tod :
  0 <= m <= 11 -> 1 <= dt <= daysInMonth y m -> 0 <= tod < msPerDay ->
  YearFromTime (MakeDate (MakeDay y m dt) tod) = y /\
  MonthFromTime (MakeDate (MakeDay y m dt) tod) = m /\
  DateFromTime (MakeDate (MakeDay y m dt) tod) = dt.
Proof.
  intros Hm Hd Ht. pose proof (month_fits y m Hm) as [F0 F1].
  assert (Y : YearFromTime (MakeDate (MakeDay y m dt) tod) = y).
  { unfold YearFromTime. rewrite Day_MakeDate by assumption.
    apply YearFromDay_unique.
    rewrite DayFromYear_succ, MakeDay_small_month by assumption. lia. }
  assert (M : MonthFromTime (MakeDate (MakeDay y m dt) tod) = m).
  { unfold MonthFromTime, InLeapYear, DayWithinYear. rewrite Y.
    rewrite Day_MakeDate, MakeDay_small_month by assumption.
    apply monthOfYearDay_in_month; [assumption|lia|].
    unfold daysInMonth in Hd. destruct (Z.eqb_spec m 11); subst; lia. }
  repeat split; try assumption.
  unfold DateFromTime, InLeapYear, DayWithinYear. rewrite M, Y.
  rewrite Day_MakeDate, MakeDay_small_month by assumption. lia.
Qed.

Lemma TimeClip_some t u : TimeClip t = Some u -> u = t /\ Z.abs t <= maxTime.
Proof.
  unfold TimeClip. destruct (Z.leb_spec (Z.abs t) maxTime); intros E;
    [injection E as <-; split; [reflexivity|assumption] | discriminate].
Qed.

(** The date of a time value is a day of its month. *)
Lemma DateFromTime_range t :
  1 <= DateFromTime t <= daysInMonth (YearFromTime t) (MonthFromTime t).
Proof.
  unfold DateFromTime, MonthFromTime, daysInMonth, InLeapYear.
  pose proof (DayWithinYear_range t) as R.
  pose proof (monthOfYearDay_start (isLeap (YearFromTime t)) (DayWithinYear t)
                (proj1 R)) as S.
  pose proof (monthOfYearDay_next (isLeap (YearFromTime t)) (DayWithinYear t)) as N.
  pose proof (monthOfYearDay_range (isLeap (YearFromTime t)) (DayWithinYear t)) as M.
  split; [lia|].
  destruct (Z.eqb_spec (monthOfYearDay (isLeap (YearFromTime t)) (DayWithinYear t)) 11)
    as [E|NE].
  - rewrite E in *. unfold DaysInYear in R.
    destruct (isLeap (YearFromTime t)); cbn in *; lia.
  - lia.
Qed.

(** [MakeDay] carries a month outside 0..11 over to the year. *)
Lemma MakeDay_carry y m dt : MakeDay y m dt = MakeDay (y + m / 12) (m mod 12) dt.
Proof.
  unfold MakeDay.
  rewrite (Z.div_small (m mod 12) 12), Z.mod_mod, Z.add_0_r
    by (try apply Z.mod_pos_bound; lia).
  reflexivity.
Qed.

(** A date past the end of a month other than December is a date of the
    next month. *)
Lemma MakeDay_overflow y m dt :
  0 <= m < 11 -> MakeDay y m dt = MakeDay y (m + 1) (dt - daysInMonth y m).
Proof.
  intros H. rewrite !MakeDay_small_month by lia. unfold daysInMonth.
  destruct (Z.eqb_spec m 11); lia.
Qed.

Section LocalZone.

Variable tza : Z.

(** [setMonth] to the next month when the date exists there: the same date
    and time of day, one month later. *)
Lemma setMonth_next_regular c c' :
  let y' := getFullYear tza c + (getMonth tza c + 1) / 12 in
  let m' := (getMonth tza c + 1) mod 12 in
  getDate tza c <= daysInMonth y' m' ->
  setMonth tza c (getMonth tza c + 1) = Some c' ->
  getFullYear tza c' = y' /\ getMonth tza c' = m' /\
  getDate tza c' = getDate tza c /\
  TimeWithinDay (LocalTime tza c') = TimeWithinDay (LocalTime tza c).
Proof.
  cbv zeta. unfold setMonth, getFullYear, getMonth, getDate. intros Hd E.
  apply TimeClip_some in E. destruct E as [-> _].
  set (l := LocalTime tza c) in *.
  assert (T : 0 <= TimeWithinDay l < msPerDay)
    by (apply Z.mod_pos_bound; reflexivity).
  assert (M : 0 <= (MonthFromTime l + 1) mod 12 <= 11)
    by (pose proof (Z.mod_pos_bound (MonthFromTime l + 1) 12); lia).
  pose proof (DateFromTime_range l) as D.
  replace (LocalTime tza (UTC tza (MakeDate (MakeDay (YearFromTime l)
             (MonthFromTime l + 1) (DateFromTime l)) (TimeWithinDay l))))
    with (MakeDate (MakeDay (YearFromTime l) (MonthFromTime l + 1)
                            (DateFromTime l)) (TimeWithinDay l))
    by (unfold LocalTime, UTC; lia).
  rewrite MakeDay_carry.
  destruct (fields_of_MakeDay (YearFromTime l + (MonthFromTime l + 1) / 12)
              ((MonthFromTime l + 1) mod 12) (DateFromTime l) (TimeWithinDay l))
    as (Y & Mo & Da); try assumption; [lia|].
  repeat split; try assumption.
  apply TimeWithinDay_MakeDate. assumption.
Qed.

(** [setMonth] to the next month when the date does not exist there: the
    month after the next, the date reduced by the length of the next
    month. *)
Lemma setMonth_next_overflow c c' :
  let y' := getFullYear tza c + (getMonth tza c + 1) / 12 in
  let m' := (getMonth tza c + 1) mod 12 in
  daysInMonth y' m' < getDate tza c ->
  setMonth tza c (getMonth tza c + 1) = Some c' ->
  getFullYear tza c' = y' /\ getMonth tza c' = m' + 1 /\
  getDate tza c' = getDate tza c - daysInMonth y' m'.
Proof.
  cbv zeta. unfold setMonth, getFullYear, getMonth, getDate. intros Hd E.
  apply TimeClip_some in E. destruct E as [-> _].
  set (l := LocalTime tza c) in *.
  assert (T : 0 <= TimeWithinDay l < msPerDay)
    by (apply Z.mod_pos_bound; reflexivity).
  pose proof (Z.mod_pos_bound (MonthFromTime l + 1) 12 eq_refl) as M.
  pose proof (DateFromTime_range l) as D.
  pose proof (daysInMonth_range (YearFromTime l) (MonthFromTime l)
                (MonthFromTime_range l)) as R.
  set (y' := YearFromTime l + (MonthFromTime l + 1) / 12) in *.
  set (m' := (MonthFromTime l + 1) mod 12) in *.
  assert (M11 : m' < 11).
  { destruct (Z.eq_dec m' 11) as [E|]; [|lia].
    rewrite E in Hd. unfold daysInMonth in Hd at 1. cbn in Hd. lia. }
  pose proof (daysInMonth_range y' m' ltac:(lia)) as R'.
  pose proof (daysInMonth_range y' (m' + 1) ltac:(lia)) as R''.
  replace (LocalTime tza (UTC tza (MakeDate (MakeDay (YearFromTime l)
             (MonthFromTime l + 1) (DateFromTime l)) (TimeWithinDay l))))
    with (MakeDate (MakeDay (YearFromTime l) (MonthFromTime l + 1)
                            (DateFromTime l)) (TimeWithinDay l))
    by (unfold LocalTime, UTC; lia).
  rewrite MakeDay_carry. fold y' m'. rewrite MakeDay_overflow by lia.
  destruct (fields_of_MakeDay y' (m' + 1) (DateFromTime l - daysInMonth y' m')
              (TimeWithinDay l)) as (Y & Mo & Da); [lia|lia|assumption|].
  repeat split; assumption.
Qed.

Lemma setDate_shift c k :
  setDate tza c (getDate tza c + k) = TimeClip (c + k * msPerDay).
Proof.
  unfold setDate, getDate. rewrite MakeDay_fields. f_equal.
  pose proof (MakeDate_Day (LocalTime tza c)) as E.
  unfold UTC, MakeDate, LocalTime in *. lia.
Qed.

Lemma setMonth_next c :
  setMonth tza c (getMonth tza c + 1)
  = TimeClip (c + daysInMonth (getFullYear tza c) (getMonth tza c) * msPerDay).
Proof.
  unfold setMonth, getMonth, getFullYear. rewrite MakeDay_next_month. f_equal.
  pose proof (MakeDate_Day (LocalTime tza c)) as E.
  unfold UTC, MakeDate, LocalTime in *. lia.
Qed.

Lemma setHours_end_of_day e :
  setHours tza e 23 59 59 999 = TimeClip (endOfLocalDay tza e).
Proof.
  unfold setHours, endOfLocalDay. f_equal.
  unfold UTC, MakeDate, MakeTime, msPerDay, msPerHour, msPerMinute, msPerSecond.
  lia.
Qed.

(** [endOfLocalDay e] is the last time value of the local day of [e]. *)
Lemma endOfLocalDay_last e t :
  t <= endOfLocalDay tza e <-> Day (LocalTime tza t) <= Day (LocalTime tza e).
Proof.
  unfold endOfLocalDay, LocalTime, Day, msPerDay.
  split; intros H; Z.div_mod_to_equations; lia.
Qed.

End LocalZone.

End CalendarFacts.
(** ** The arithmetic of the numbers *)

Module NumberFacts.
Import JSNumber.

(** *** Powers of two *)

Lemma pow2_pos e : (0 < pow2 e)%Q.
Proof. apply Qpower_0_lt. reflexivity. Qed.

Lemma pow2_add a b : (pow2 (a + b) == pow2 a * pow2 b)%Q.
Proof. apply Qpower_plus. discriminate. Qed.

Lemma pow2_Z e : 0 <= e -> (pow2 e == inject_Z (2 ^ e))%Q.
Proof. intros H. unfold pow2. now rewrite Zpower_Qpower. Qed.

Lemma pow2_0 : (pow2 0 == 1)%Q.
Proof. reflexivity. Qed.

Lemma pow2_le a b : a <= b -> (pow2 a <= pow2 b)%Q.
Proof.
  intros H. replace b with (a + (b - a)) by lia. rewrite pow2_add.
  rewrite <- (Qmult_1_r (pow2 a)) at 1.
  apply Qmult_le_l; [apply pow2_pos|].
  rewrite pow2_Z by lia. change 1%Q with (inject_Z 1). rewrite <- Zle_Qle.
  pose proof (Z.pow_pos_nonneg 2 (b - a)). lia.
Qed.

Lemma pow2_lt a b : a < b -> (pow2 a < pow2 b)%Q.
Proof.
  intros H. replace b with (a + (b - a)) by lia. rewrite pow2_add.
  rewrite <- (Qmult_1_r (pow2 a)) at 1.
  apply Qmult_lt_l; [apply pow2_pos|].
  rewrite pow2_Z by lia. change 1%Q with (inject_Z 1). rewrite <- Zlt_Qlt.
  apply Z.pow_gt_1; lia.
Qed.

Lemma pow2_lt_inv a b : (pow2 a < pow2 b)%Q -> a < b.
Proof.
  intros H. destruct (Z.lt_ge_cases a b) as [L|G]; [exact L|].
  apply pow2_le in G. lra.
Qed.

(** *** The binary exponent of a positive rational *)

Lemma ilog2_spec q :
  (0 < q)%Q -> (pow2 (ilog2 q) <= q < pow2 (ilog2 q + 1))%Q.
Proof.
  intros Hq. destruct q as [a b]. unfold ilog2. cbn [Qnum Qden].
  assert (Ha : 0 < a) by (unfold Qlt in Hq; cbn in Hq; lia).
  pose proof (Z.log2_spec a Ha) as [A1 A2].
  pose proof (Z.log2_spec (Zpos b) eq_refl) as [B1 B2].
  pose proof (Z.log2_nonneg a) as La. pose proof (Z.log2_nonneg (Zpos b)) as Lb.
  set (la := Z.log2 a) in *. set (lb := Z.log2 (Zpos b)) in *.
  assert (Q1 : (a # b == inject_Z a / inject_Z (Zpos b))%Q) by apply Qmake_Qdiv.
  assert (Pb : (0 < inject_Z (Zpos b))%Q) by reflexivity.
  assert (U : (a # b < pow2 (la - lb + 1))%Q).
  { rewrite Q1. apply Qlt_shift_div_r; [exact Pb|].
    apply Qlt_le_trans with (pow2 (la - lb + 1) * pow2 lb)%Q.
    - rewrite <- pow2_add. replace (la - lb + 1 + lb) with (Z.succ la) by lia.
      rewrite pow2_Z by lia. rewrite <- Zlt_Qlt. exact A2.
    - apply Qmult_le_l; [apply pow2_pos|]. rewrite pow2_Z by lia.
      rewrite <- Zle_Qle. exact B1. }
  assert (L : (pow2 (la - lb - 1) < a # b)%Q).
  { rewrite Q1. apply Qlt_shift_div_l; [exact Pb|].
    apply Qlt_le_trans with (pow2 (la - lb - 1) * pow2 (lb + 1))%Q.
    - apply Qmult_lt_l; [apply pow2_pos|]. rewrite pow2_Z by lia.
      rewrite <- Zlt_Qlt. exact B2.
    - rewrite <- pow2_add. replace (la - lb - 1 + (lb + 1)) with la by lia.
      rewrite pow2_Z by lia. rewrite <- Zle_Qle. exact A1. }
  destruct (Qle_bool (pow2 (la - lb)) (a # b)) eqn:C.
  - apply Qle_bool_iff in C. split; [exact C|exact U].
  - assert (C' : (a # b < pow2 (la - lb))%Q).
    { apply Qnot_le_lt. intros H. apply Qle_bool_iff in H. congruence. }
    replace (la - lb - 1 + 1) with (la - lb) by lia.
    split; [apply Qlt_le_weak; exact L|exact C'].
Qed.

Lemma ilog2_unique q e :
  (pow2 e <= q < pow2 (e + 1))%Q -> ilog2 q = e.
Proof.
  intros [H1 H2].
  assert (Hq : (0 < q)%Q) by (pose proof (pow2_pos e); lra).
  pose proof (ilog2_spec q Hq) as [S1 S2].
  assert (e < ilog2 q + 1) by (apply pow2_lt_inv; lra).
  assert (ilog2 q < e + 1) by (apply pow2_lt_inv; lra).
  lia.
Qed.

Lemma ilog2_comp q q' : (0 < q)%Q -> (q == q')%Q -> ilog2 q = ilog2 q'.
Proof.
  intros Hq E. symmetry. apply ilog2_unique. rewrite <- E. now apply ilog2_spec.
Qed.

(** *** Rounding to the nearest integer, ties to even *)

Lemma roundEven_comp y y' : (y == y')%Q -> roundEven y = roundEven y'.
Proof.
  intros E. unfold roundEven.
  assert (F : Qfloor y = Qfloor y') by (now rewrite E).
  rewrite F.
  assert (C : (y - inject_Z (Qfloor y') ?= 1 # 2)%Q
              = (y' - inject_Z (Qfloor y') ?= 1 # 2)%Q) by (now rewrite E).
  now rewrite C.
Qed.

Lemma roundEven_Z n : roundEven (inject_Z n) = n.
Proof.
  unfold roundEven. rewrite Qfloor_Z.
  assert (C : (inject_Z n - inject_Z n ?= 1 # 2)%Q = Lt).
  { apply Qlt_alt. setoid_replace (inject_Z n - inject_Z n)%Q with 0%Q by ring.
    reflexivity. }
  now rewrite C.
Qed.

Lemma roundEven_near y :
  (inject_Z (roundEven y) - (1 # 2) <= y <= inject_Z (roundEven y) + (1 # 2))%Q.
Proof.
  unfold roundEven. pose proof (Qfloor_le y) as L. pose proof (Qlt_floor y) as U.
  rewrite inject_Z_plus in U. change (inject_Z 1) with 1%Q in U.
  destruct (y - inject_Z (Qfloor y) ?= 1 # 2)%Q eqn:C.
  - apply Qeq_alt in C. destruct (Z.even (Qfloor y));
      rewrite ?inject_Z_plus; change (inject_Z 1) with 1%Q; lra.
  - apply Qlt_alt in C. lra.
  - apply Qgt_alt in C. rewrite inject_Z_plus. change (inject_Z 1) with 1%Q. lra.
Qed.

Lemma roundEven_ge y m : (inject_Z m <= y)%Q -> m <= roundEven y.
Proof.
  intros H. apply Qfloor_resp_le in H. rewrite Qfloor_Z in H.
  unfold roundEven. destruct (y - inject_Z (Qfloor y) ?= 1 # 2)%Q;
    try destruct (Z.even (Qfloor y)); lia.
Qed.

Lemma roundEven_le y m : (y <= inject_Z m)%Q -> roundEven y <= m.
Proof.
  intros H. pose proof (roundEven_near y) as [N _].
  assert (L : (inject_Z (roundEven y) < inject_Z (m + 1))%Q).
  { rewrite inject_Z_plus. change (inject_Z 1) with 1%Q. lra. }
  rewrite <- Zlt_Qlt in L. lia.
Qed.

(** *** Rounding to binary64 *)

Lemma isNegative_comp q q' : (q == q')%Q -> isNegative q = isNegative q'.
Proof.
  unfold Qeq, isNegative. intros E.
  destruct (Z.ltb_spec (Qnum q) 0), (Z.ltb_spec (Qnum q') 0); try reflexivity; nia.
Qed.

Lemma Qabs_pos_of_nonzero q : ~ (q == 0)%Q -> (0 < Qabs q)%Q.
Proof.
  intros H. pose proof (Qabs_nonneg q) as N.
  destruct (Qlt_le_dec 0 (Qabs q)) as [L|G]; [exact L|].
  exfalso. apply H. apply Qabs_Qle_condition in G. lra.
Qed.


Lemma grain_comp q q' : ~ (q == 0)%Q -> (q == q')%Q -> grain q = grain q'.
Proof.
  intros H E. unfold grain. f_equal. f_equal.
  apply ilog2_comp; [now apply Qabs_pos_of_nonzero | now rewrite E].
Qed.

Lemma round64_comp q q' : (q == q')%Q -> round64 q = round64 q'.
Proof.
  intros E. unfold round64.
  destruct (Qeq_bool q 0) eqn:Z0.
  - apply Qeq_bool_iff in Z0.
    assert (Z1 : Qeq_bool q' 0 = true) by (apply Qeq_bool_iff; now rewrite <- E).
    now rewrite Z1.
  - assert (N : ~ (q == 0)%Q) by (intros C; apply Qeq_bool_iff in C; congruence).
    assert (Z1 : Qeq_bool q' 0 = false).
    { destruct (Qeq_bool q' 0) eqn:C; [|reflexivity].
      apply Qeq_bool_iff in C. rewrite <- E in C. contradiction. }
    rewrite Z1. fold (grain q) (grain q'). rewrite <- (grain_comp q q' N E).
    rewrite <- (roundEven_comp _ _ (Qdiv_comp _ _ E _ _ (Qeq_refl (pow2 (grain q))))).
    rewrite <- (isNegative_comp q q' E).
    reflexivity.
Qed.

(** A number on a grid of spacing [pow2 w], with at most 53 bits at that
    spacing, is a double: rounding gives it back. *)
Lemma round64_grid q n w :
  (q == inject_Z n * pow2 w)%Q -> (Qabs q < pow2 (w + 53))%Q ->
  -1074 <= w -> w + 53 <= 1024 ->
  round64 q = Finite (Qred q).
Proof.
  intros E B Hw Hw'. unfold round64.
  destruct (Qeq_bool q 0) eqn:Z0.
  { apply Qeq_bool_iff in Z0. f_equal. symmetry. change 0%Q with (Qred 0).
    now apply Qred_complete. }
  assert (N : ~ (q == 0)%Q) by (intros C; apply Qeq_bool_iff in C; congruence).
  fold (grain q). set (u := grain q).
  pose proof (ilog2_spec (Qabs q) (Qabs_pos_of_nonzero q N)) as [S1 S2].
  assert (Le : ilog2 (Qabs q) < w + 53) by (apply pow2_lt_inv; lra).
  assert (Hu : u <= w) by (unfold u, grain; lia).
  assert (D : (q / pow2 u == inject_Z (n * 2 ^ (w - u)))%Q).
  { rewrite inject_Z_mult, <- pow2_Z by lia. rewrite E.
    replace w with ((w - u) + u) at 1 by lia. rewrite pow2_add.
    field. pose proof (pow2_pos u). lra. }
  rewrite (roundEven_comp _ _ D), roundEven_Z.
  assert (R : (inject_Z (n * 2 ^ (w - u)) * pow2 u == q)%Q).
  { rewrite <- D. field. pose proof (pow2_pos u). lra. }
  destruct (Qle_bool (pow2 1024) (Qabs (inject_Z (n * 2 ^ (w - u)) * pow2 u))) eqn:O.
  - apply Qle_bool_iff in O. rewrite R in O.
    pose proof (pow2_le (w + 53) 1024 Hw'). lra.
  - f_equal. now apply Qred_complete.
Qed.

Lemma Qred_inject_Z z : Qred (inject_Z z) = inject_Z z.
Proof. apply Qcanon.Qred_identity. cbn. apply Z.gcd_1_r. Qed.

(** An integer of magnitude up to [2 ^ 53] is a double. *)
Lemma round64_Z z : Z.abs z <= 2 ^ 53 -> round64 (inject_Z z) = ofZ z.
Proof.
  intros H. unfold ofZ. rewrite <- (Qred_inject_Z z) at 2.
  change (2 ^ 53) with 9007199254740992 in H.
  assert (A : (Qabs (inject_Z z) == inject_Z (Z.abs z))%Q) by reflexivity.
  destruct (Z.eq_dec (Z.abs z) 9007199254740992) as [E|N].
  - assert (C : z = 9007199254740992 \/ z = - 9007199254740992) by lia.
    destruct C as [-> | ->]; vm_compute; reflexivity.
  - apply (round64_grid _ z 0); [| |lia|lia].
    + rewrite pow2_0. ring.
    + rewrite pow2_Z by lia. rewrite A, <- Zlt_Qlt.
      change (2 ^ (0 + 53)) with 9007199254740992. lia.
Qed.

Lemma jsAdd_Z a b :
  Z.abs (a + b) <= 2 ^ 53 -> jsAdd (ofZ a) (ofZ b) = ofZ (a + b).
Proof.
  intros H. unfold jsAdd, ofZ.
  rewrite (round64_comp _ (inject_Z (a + b))) by (rewrite inject_Z_plus; reflexivity).
  now apply round64_Z.
Qed.

Lemma jsNeg_Z a : jsNeg (ofZ a) = ofZ (- a).
Proof.
  unfold jsNeg, ofZ. f_equal. rewrite <- (Qred_inject_Z (- a)).
  apply Qred_complete. rewrite inject_Z_opp. reflexivity.
Qed.

Lemma jsSub_Z a b :
  Z.abs (a - b) <= 2 ^ 53 -> jsSub (ofZ a) (ofZ b) = ofZ (a - b).
Proof. intros H. unfold jsSub. rewrite jsNeg_Z. now apply jsAdd_Z. Qed.


(** *** Whole numbers *)

Lemma compare_Z a b : compareNumbers (ofZ a) (ofZ b) = Some (a ?= b).
Proof.
  unfold compareNumbers, ofZ. f_equal. unfold Qcompare. cbn. now rewrite !Z.mul_1_r.
Qed.

Lemma jsLe_Z a b : jsLe (ofZ a) (ofZ b) = (a <=? b).
Proof.
  unfold jsLe. rewrite compare_Z. unfold Z.leb. destruct (a ?= b); reflexivity.
Qed.

Lemma jsLt_Z a b : jsLt (ofZ a) (ofZ b) = (a <? b).
Proof.
  unfold jsLt. rewrite compare_Z. unfold Z.ltb. destruct (a ?= b); reflexivity.
Qed.

Lemma jsGt_Z a b : jsGt (ofZ a) (ofZ b) = (a >? b).
Proof. unfold jsGt. rewrite jsLt_Z. now rewrite Z.gtb_ltb. Qed.

Lemma Math_max_Z a b : Math_max (ofZ a) (ofZ b) = ofZ (Z.max a b).
Proof.
  unfold Math_max. rewrite compare_Z. unfold Z.max. destruct (a ?= b) eqn:C.
  - reflexivity.
  - reflexivity.
  - reflexivity.
Qed.

Lemma Math_abs_Z a : Math_abs (ofZ a) = ofZ (Z.abs a).
Proof.
  unfold Math_abs, ofZ. f_equal. rewrite <- (Qred_inject_Z (Z.abs a)).
  apply Qred_complete. reflexivity.
Qed.

Lemma ofZ_inj a b : ofZ a = ofZ b -> a = b.
Proof. unfold ofZ, inject_Z. intros E. now injection E. Qed.

(** *** Rounding keeps the order of the doubles around *)

Lemma Qfloor_unique x k :
  (inject_Z k <= x < inject_Z (k + 1))%Q -> Qfloor x = k.
Proof.
  intros [L U]. pose proof (Qfloor_le x) as F1. pose proof (Qlt_floor x) as F2.
  assert (A : (inject_Z k < inject_Z (Qfloor x + 1))%Q) by lra.
  assert (B : (inject_Z (Qfloor x) < inject_Z (k + 1))%Q) by lra.
  rewrite <- Zlt_Qlt in A, B. lia.
Qed.

(** A rational between two multiples of [pow2 w], where the doubles are at
    least as dense as these multiples, rounds to a double between the
    two. *)
Lemma round64_between q m1 m2 w :
  (inject_Z m1 * pow2 w <= q <= inject_Z m2 * pow2 w)%Q ->
  (Qabs q < pow2 (w + 53))%Q -> -1074 <= w -> w + 53 < 1024 ->
  exists r, round64 q = Finite r /\
            (inject_Z m1 * pow2 w <= r <= inject_Z m2 * pow2 w)%Q.
Proof.
  intros [B1 B2] B Hw Hw'. unfold round64.
  destruct (Qeq_bool q 0) eqn:Z0.
  { apply Qeq_bool_iff in Z0. exists 0%Q. split; [reflexivity|].
    rewrite Z0 in B1, B2. split; assumption. }
  assert (N : ~ (q == 0)%Q) by (intros C; apply Qeq_bool_iff in C; congruence).
  set (u := grain q).
  pose proof (ilog2_spec (Qabs q) (Qabs_pos_of_nonzero q N)) as [S1 S2].
  assert (Le : ilog2 (Qabs q) < w + 53) by (apply pow2_lt_inv; lra).
  assert (Hu : u <= w) by (unfold u, grain; lia).
  pose proof (pow2_pos u) as Pu.
  assert (W : (pow2 w == inject_Z (2 ^ (w - u)) * pow2 u)%Q).
  { rewrite <- pow2_Z by lia. rewrite <- pow2_add. now replace (w - u + u) with w by lia. }
  assert (V : (pow2 (w + 53) == inject_Z (2 ^ (w + 53 - u)) * pow2 u)%Q).
  { rewrite <- pow2_Z by lia. rewrite <- pow2_add.
    now replace (w + 53 - u + u) with (w + 53) by lia. }
  set (n := roundEven (q / pow2 u)).
  assert (G1 : m1 * 2 ^ (w - u) <= n).
  { apply roundEven_ge. rewrite inject_Z_mult. apply Qle_shift_div_l; [exact Pu|].
    rewrite <- Qmult_assoc, <- W. exact B1. }
  assert (G2 : n <= m2 * 2 ^ (w - u)).
  { apply roundEven_le. rewrite inject_Z_mult. apply Qle_shift_div_r; [exact Pu|].
    rewrite <- Qmult_assoc, <- W. exact B2. }
  assert (Qa : (- pow2 (w + 53) <= q <= pow2 (w + 53))%Q).
  { apply Qabs_Qle_condition. lra. }
  assert (G3 : - 2 ^ (w + 53 - u) <= n).
  { apply roundEven_ge. rewrite inject_Z_opp. apply Qle_shift_div_l; [exact Pu|].
    setoid_replace (- inject_Z (2 ^ (w + 53 - u)) * pow2 u)%Q
      with (- (inject_Z (2 ^ (w + 53 - u)) * pow2 u))%Q by ring.
    rewrite <- V. lra. }
  assert (G4 : n <= 2 ^ (w + 53 - u)).
  { apply roundEven_le. apply Qle_shift_div_r; [exact Pu|]. rewrite <- V. lra. }
  assert (R1 : (inject_Z m1 * pow2 w <= inject_Z n * pow2 u)%Q).
  { rewrite W, Qmult_assoc, <- inject_Z_mult.
    apply Qmult_le_compat_r; [|lra]. rewrite <- Zle_Qle. exact G1. }
  assert (R2 : (inject_Z n * pow2 u <= inject_Z m2 * pow2 w)%Q).
  { rewrite W, Qmult_assoc, <- inject_Z_mult.
    apply Qmult_le_compat_r; [|lra]. rewrite <- Zle_Qle. exact G2. }
  assert (R3 : (Qabs (inject_Z n * pow2 u) <= pow2 (w + 53))%Q).
  { apply Qabs_Qle_condition. rewrite V. split.
    - setoid_replace (- (inject_Z (2 ^ (w + 53 - u)) * pow2 u))%Q
        with (inject_Z (- 2 ^ (w + 53 - u)) * pow2 u)%Q
        by (rewrite inject_Z_opp; ring).
      apply Qmult_le_compat_r; [|lra]. rewrite <- Zle_Qle. exact G3.
    - apply Qmult_le_compat_r; [|lra]. rewrite <- Zle_Qle. exact G4. }
  destruct (Qle_bool (pow2 1024) (Qabs (inject_Z n * pow2 u))) eqn:O.
  - apply Qle_bool_iff in O.
    pose proof (pow2_lt (w + 53) 1024 Hw'). lra.
  - exists (Qred (inject_Z n * pow2 u)). split; [reflexivity|].
    rewrite Qred_correct. split; assumption.
Qed.

(** Injected integers, as polynomials for [lra] and [nra]. *)
Ltac push_inject :=
  unfold Z.sub in *;
  repeat (rewrite inject_Z_plus in * || rewrite inject_Z_mult in *
          || rewrite inject_Z_opp in * );
  change (inject_Z 2) with 2%Q in *; change (inject_Z 1) with 1%Q in *;
  change (inject_Z 0) with 0%Q in *.

Lemma half_of_the_grid w :
  w <= -1 -> (inject_Z (2 ^ (- w - 1)) * pow2 w == 1 # 2)%Q.
Proof.
  intros H. rewrite <- pow2_Z by lia. rewrite <- pow2_add.
  replace (- w - 1 + w) with (-1) by lia. reflexivity.
Qed.

(** [Math.round(d / D)] on whole numbers: the quotient is rounded to a
    double before [Math.round] sees it, and the result is the integer nearest
    to the exact quotient as long as the doubles around the quotient are
    closer to one another than the quotient can be to a half. *)
Lemma Math_round_jsDiv d D w :
  0 < D -> 2 * D <= 2 ^ (- w) -> -53 <= w <= -1 ->
  Z.abs d < D * 2 ^ (w + 53) ->
  Math_round (jsDiv (ofZ d) (ofZ D)) = ofZ ((2 * d + D) / (2 * D)).
Proof.
  intros HD H2 Hw Hd. unfold jsDiv, ofZ.
  assert (PD : (0 < inject_Z D)%Q) by (change 0%Q with (inject_Z 0); now rewrite <- Zlt_Qlt).
  assert (ND : Qeq_bool (inject_Z D) 0 = false).
  { destruct (Qeq_bool (inject_Z D) 0) eqn:C; [|reflexivity].
    apply Qeq_bool_iff in C. lra. }
  rewrite ND.
  set (k := (2 * d + D) / (2 * D)).
  assert (K : 2 * D * k <= 2 * d + D /\ 2 * d + D + 1 <= 2 * D * k + 2 * D).
  { unfold k. Z.div_mod_to_equations. nia. }
  destruct K as [K1 K2]. rewrite Zle_Qle in K1, K2.
  set (q := (inject_Z d / inject_Z D)%Q).
  assert (Eq : (q * inject_Z D == inject_Z d)%Q) by (unfold q; field; lra).
  pose proof (pow2_pos w) as Pw.
  pose proof (half_of_the_grid w ltac:(lia)) as Hh.
  assert (H2' : (inject_Z (2 * D) * pow2 w <= 1)%Q).
  { apply Qle_trans with (inject_Z (2 ^ (- w)) * pow2 w)%Q.
    - apply Qmult_le_compat_r; [|lra]. rewrite <- Zle_Qle. exact H2.
    - rewrite <- pow2_Z by lia. rewrite <- pow2_add.
      replace (- w + w) with 0 by lia. rewrite pow2_0. lra. }
  set (h := inject_Z (2 ^ (- w - 1))) in *.
  assert (L : (inject_Z ((2 * k - 1) * 2 ^ (- w - 1)) * pow2 w <= q)%Q).
  { rewrite inject_Z_mult. fold h. rewrite <- Qmult_assoc, Hh.
    apply Qmult_lt_0_le_reg_r with (inject_Z D); [exact PD|]. rewrite Eq.
    clear Hh H2' Eq. push_inject. lra. }
  assert (U : (q <= inject_Z ((2 * k + 1) * 2 ^ (- w - 1) - 1) * pow2 w)%Q).
  { unfold Z.sub at 1. rewrite inject_Z_plus, inject_Z_mult. fold h.
    setoid_replace ((inject_Z (2 * k + 1) * h + inject_Z (- (1))) * pow2 w)%Q
      with (inject_Z (2 * k + 1) * (h * pow2 w) - pow2 w)%Q
      by (change (inject_Z (- (1))) with (- (1))%Q; ring).
    rewrite Hh.
    apply Qmult_lt_0_le_reg_r with (inject_Z D); [exact PD|]. rewrite Eq.
    clear Hh Eq L. push_inject. nra. }
  assert (B : (Qabs q < pow2 (w + 53))%Q).
  { unfold q. unfold Qdiv. rewrite Qabs_Qmult.
    rewrite (Qabs_pos (/ inject_Z D)) by (apply Qlt_le_weak, Qinv_lt_0_compat; exact PD).
    apply Qlt_shift_div_r; [exact PD|].
    assert (A : (Qabs (inject_Z d) == inject_Z (Z.abs d))%Q) by reflexivity.
    rewrite A, pow2_Z by lia. rewrite <- inject_Z_mult, <- Zlt_Qlt. lia. }
  destruct (round64_between q _ _ w (conj L U) B) as (r & E & R1 & R2); [lia|lia|].
  rewrite E. unfold Math_round, ofZ. do 2 f_equal.
  apply Qfloor_unique.
  rewrite inject_Z_mult in R1. fold h in R1. rewrite <- Qmult_assoc, Hh in R1.
  unfold Z.sub in R2 at 1. rewrite inject_Z_plus, inject_Z_mult in R2. fold h in R2.
  setoid_replace ((inject_Z (2 * k + 1) * h + inject_Z (- (1))) * pow2 w)%Q
    with (inject_Z (2 * k + 1) * (h * pow2 w) - pow2 w)%Q
    in R2 by (change (inject_Z (- (1))) with (- (1))%Q; ring).
  rewrite Hh in R2.
  clear Hh Eq L U K1 K2 H2' B E. push_inject. split; lra.
Qed.

(** *** The relative error of rounding *)

(** A positive rational in the range of the normal doubles rounds to a
    double within 2^-53 of it, relatively. *)
Lemma round64_relative q :
  (pow2 (-1022) <= q)%Q -> (q < pow2 1023)%Q ->
  exists r, round64 q = Finite r /\
            ((1 - pow2 (-53)) * q <= r <= (1 + pow2 (-53)) * q)%Q.
Proof.
  intros Lo Hi. pose proof (pow2_pos (-1022)) as P0.
  assert (Pq : (0 < q)%Q) by lra.
  unfold round64.
  destruct (Qeq_bool q 0) eqn:Z0; [apply Qeq_bool_iff in Z0; lra|].
  assert (Aq : (Qabs q == q)%Q) by (apply Qabs_pos; lra).
  pose proof (ilog2_spec q Pq) as [S1 S2].
  assert (E1 : -1022 <= ilog2 q).
  { assert (-1022 < ilog2 q + 1) by (apply pow2_lt_inv; lra). lia. }
  assert (E2 : ilog2 q < 1023) by (apply pow2_lt_inv; lra).
  assert (G : grain q = ilog2 q - 52).
  { unfold grain. rewrite (ilog2_comp (Qabs q) q) by (rewrite ?Aq; lra || exact Aq). lia. }
  rewrite G. set (e := ilog2 q) in *. set (u := e - 52).
  pose proof (pow2_pos u) as Pu.
  pose proof (roundEven_near (q / pow2 u)) as [N1 N2].
  set (n := roundEven (q / pow2 u)) in *.
  assert (Q1 : (q / pow2 u * pow2 u == q)%Q) by (field; lra).
  assert (H1 : (inject_Z n * pow2 u - (1 # 2) * pow2 u <= q)%Q).
  { rewrite <- Q1 at 1. 
    setoid_replace (inject_Z n * pow2 u - (1 # 2) * pow2 u)%Q
      with ((inject_Z n - (1 # 2)) * pow2 u)%Q by ring.
    apply Qmult_le_compat_r; lra. }
  assert (H2 : (q <= inject_Z n * pow2 u + (1 # 2) * pow2 u)%Q).
  { rewrite <- Q1 at 1.
    setoid_replace (inject_Z n * pow2 u + (1 # 2) * pow2 u)%Q
      with ((inject_Z n + (1 # 2)) * pow2 u)%Q by ring.
    apply Qmult_le_compat_r; lra. }
  assert (Hu : ((1 # 2) * pow2 u == pow2 (-53) * pow2 e)%Q).
  { rewrite <- pow2_add. change (1 # 2)%Q with (pow2 (-1)). rewrite <- pow2_add.
    unfold u. now replace (-1 + (e - 52)) with (-53 + e) by lia. }
  rewrite Hu in H1, H2.
  assert (Ee : (pow2 (-53) * pow2 e <= pow2 (-53) * q)%Q).
  { apply Qmult_le_l; [apply pow2_pos|exact S1]. }
  assert (P53 : (pow2 (-53) == 1 # 9007199254740992)%Q) by reflexivity.
  set (r := (inject_Z n * pow2 u)%Q) in *.
  assert (R1 : ((1 - pow2 (-53)) * q <= r)%Q).
  { setoid_replace ((1 - pow2 (-53)) * q)%Q with (q - pow2 (-53) * q)%Q by ring. lra. }
  assert (R2 : (r <= (1 + pow2 (-53)) * q)%Q).
  { setoid_replace ((1 + pow2 (-53)) * q)%Q with (q + pow2 (-53) * q)%Q by ring. lra. }
  assert (Rp : (0 <= r)%Q).
  { apply Qle_trans with ((1 - pow2 (-53)) * q)%Q; [|exact R1].
    apply Qmult_le_0_compat; [rewrite P53|]; lra. }
  destruct (Qle_bool (pow2 1024) (Qabs r)) eqn:O.
  - apply Qle_bool_iff in O. rewrite (Qabs_pos r Rp) in O.
    assert (T : (pow2 1024 == 2 * pow2 1023)%Q).
    { change 2%Q with (pow2 1). rewrite <- pow2_add. reflexivity. }
    assert (M : ((1 + pow2 (-53)) * q <= 2 * q)%Q).
    { apply Qmult_le_compat_r; [rewrite P53|]; lra. }
    lra.
  - exists (Qred r). split; [reflexivity|]. rewrite Qred_correct. split; assumption.
Qed.

End NumberFacts.

(** ** The ledger and the partition *)

Module LedgerFacts.
Import JSDate DateUtils App Props Samples.

(** An id other than the empty string is truthy. *)
Lemma truthyId_some (i : string) : i <> EmptyString -> truthyId (Some i) = Some i.
Proof. destruct i; [contradiction|reflexivity]. Qed.

Lemma Forall2_map_same {A : Type} (P : A -> A -> Prop) (f : A -> A) (l : list A) :
  (forall x, In x l -> P x (f x)) -> Forall2 P l (map f l).
Proof.
  induction l as [|x l IH]; intros H; cbn; constructor.
  - apply H. now left.
  - apply IH. intros y Hy. apply H. now right.
Qed.

Lemma map_unchanged {A : Type} (f : A -> A) (l : list A) :
  (forall x, In x l -> f x = x) -> map f l = l.
Proof.
  intros H. rewrite <- (map_id l) at 2. apply map_ext_in. exact H.
Qed.

Lemma sameFrame_refl d : sameFrame d d.
Proof. repeat split. Qed.

(** C10. A payment or a withdrawal on the debts changes only the debts whose
    id is the target id, and of those only [amountPaid] and [transactions]:
    position by position, the id, name, source, total amount, due date,
    creation date and target month and year are those of before, and a debt
    with another id is the same debt.  When no debt has the target id, the
    debts are unchanged. *)
Theorem ledger_frame (now : Z) (id0 : string) (a : Z) (why : string)
    (prev : list Debt) :
  let untouched := fun d d' => sameFrame d d' /\ (id d <> id0 -> d' = d) in
  Forall2 untouched prev (handleAddPayment now id0 a prev) /\
  Forall2 untouched prev (handleWithdrawPayment now id0 a why prev) /\
  ((forall d, In d prev -> id d <> id0) ->
   handleAddPayment now id0 a prev = prev /\
   handleWithdrawPayment now id0 a why prev = prev).
Proof.
  cbv zeta. unfold handleAddPayment, handleWithdrawPayment.
  split; [|split].
  - apply Forall2_map_same. intros d _.
    destruct (String.eqb_spec (id d) id0) as [E|N].
    + split; [repeat split | intros C; contradiction].
    + split; [apply sameFrame_refl | reflexivity].
  - apply Forall2_map_same. intros d _.
    destruct (String.eqb_spec (id d) id0) as [E|N].
    + split; [repeat split | intros C; contradiction].
    + split; [apply sameFrame_refl | reflexivity].
  - intros H. split; apply map_unchanged; intros d Hd;
      destruct (String.eqb_spec (id d) id0) as [E|N];
      try reflexivity; exfalso; exact (H d Hd E).
Qed.


Lemma partition_acc debts : forall acc,
  fold_left (fun acc debt =>
               if amountPaid debt >=? totalAmount debt
               then mkPartition (activeDebts acc) (completedDebts acc ++ [debt])
               else mkPartition (activeDebts acc ++ [debt]) (completedDebts acc))
            debts acc
  = mkPartition (activeDebts acc ++ filter (fun d => negb (completed d)) debts)
                (completedDebts acc ++ filter completed debts).
Proof.
  induction debts as [|d debts IH]; intros [act com]; cbn [fold_left filter].
  - cbn. now rewrite !app_nil_r.
  - rewrite IH. unfold completed.
    destruct (amountPaid d >=? totalAmount d); cbn;
      rewrite <- ?app_assoc; reflexivity.
Qed.

Lemma filter_split_perm {A : Type} (p : A -> bool) (l : list A) :
  Permutation l (filter (fun x => negb (p x)) l ++ filter p l).
Proof.
  induction l as [|x l IH]; cbn; [constructor|].
  destruct (p x); cbn.
  - apply Permutation_cons_app. exact IH.
  - constructor. exact IH.
Qed.

(** C4. The active debts are the debts that are not completed, in the order
    of the input, and the completed debts those that are, in the order of the
    input; together they are the input (each debt as often as it occurs
    there), a debt is among the completed ones exactly when it is an input
    debt with [amountPaid >= totalAmount], among the active ones exactly when
    it is an input debt with [amountPaid < totalAmount], and never among
    both. *)
Theorem partition_exhaustive_disjoint_stable (debts : list Debt) :
  let p := partitionDebts debts in
  activeDebts p = filter (fun d => negb (completed d)) debts /\
  completedDebts p = filter completed debts /\
  Permutation debts (activeDebts p ++ completedDebts p) /\
  (forall d, In d (completedDebts p) <-> In d debts /\ amountPaid d >= totalAmount d) /\
  (forall d, In d (activeDebts p) <-> In d debts /\ amountPaid d < totalAmount d) /\
  (forall d, ~ (In d (activeDebts p) /\ In d (completedDebts p))).
Proof.
  cbv zeta. unfold partitionDebts. rewrite partition_acc. cbn [activeDebts completedDebts app].
  assert (C : forall d, completed d = true <-> amountPaid d >= totalAmount d).
  { intros d. unfold completed. rewrite Z.geb_le. lia. }
  assert (NC : forall d, negb (completed d) = true <-> amountPaid d < totalAmount d).
  { intros d. rewrite negb_true_iff, <- not_true_iff_false, C. lia. }
  split; [reflexivity|]. split; [reflexivity|].
  split; [apply filter_split_perm|]. split; [|split].
  - intros d. rewrite filter_In, C. reflexivity.
  - intros d. rewrite filter_In, NC. reflexivity.
  - intros d [H1 H2]. apply filter_In in H1, H2.
    destruct H1 as [_ H1], H2 as [_ H2]. rewrite H2 in H1. discriminate.
Qed.

Lemma ledger_frame_witness :
  (forall d, In d [carLoan; phoneLoan] -> id d <> "d9"%string) /\
  handleAddPayment 5 "d9" 50 [carLoan; phoneLoan] = [carLoan; phoneLoan].
Proof.
  assert (H : forall d, In d [carLoan; phoneLoan] -> id d <> "d9"%string).
  { intros d [<-|[<-|[]]]; discriminate. }
  split; [exact H|].
  exact (proj1 (proj2 (proj2 (ledger_frame 5 "d9" 50 "x" [carLoan; phoneLoan])) H)).
Defined.


(** *** Withdrawing more than was paid *)

(** The guard of [initiateWithdraw]: an amount above [amountPaid] leaves the
    component as it is, the reason panel closed. *)
Lemma initiateWithdraw_rejects (debt : Debt) (st : DebtItemState) :
  inputValue st > amountPaid debt -> initiateWithdraw debt st = st.
Proof.
  intros H. unfold initiateWithdraw.
  destruct (inputValue st <=? 0); [reflexivity|].
  destruct (Z.gtb_spec (inputValue st) (amountPaid debt)); [reflexivity|lia].
Qed.

(** [handleWithdrawPayment] itself has no guard: on a targeted debt that
    holds less than the amount, it sets [amountPaid] to 0 and appends the
    withdrawal record. *)
Lemma handleWithdrawPayment_over_balance (now : Z) (id0 : string) (a : Z)
    (why : string) (prev : list Debt) :
  Forall2 (fun d d' =>
             id d = id0 -> amountPaid d < a ->
             amountPaid d' = 0 /\
             transactionsOf d' =
               transactionsOf d ++
               [mkTransaction (toString now) (Some now) a withdrawal (Some why)])
          prev (handleWithdrawPayment now id0 a why prev).
Proof.
  unfold handleWithdrawPayment. apply Forall2_map_same. intros d _ E H.
  apply String.eqb_eq in E. rewrite E. cbn [amountPaid transactionsOf transactions].
  split; [lia|reflexivity].
Qed.

(** [confirmWithdraw] passes the amount that the field holds when the button
    is pressed, and does not compare it with [amountPaid]. *)
Lemma confirmWithdraw_unchecked (now : Z) (debt : Debt) (st : DebtItemState)
    (debts : list Debt) :
  trimIsEmpty (withdrawReason st) = false ->
  snd (confirmWithdraw now debt st debts)
  = handleWithdrawPayment now (id debt) (inputValue st) (withdrawReason st) debts.
Proof. intros H. unfold confirmWithdraw. rewrite H. reflexivity. Qed.

(** C1 on the code.  While the reason panel is open the amount field stays
    editable: the user opens the panel with 100 (the debt holds 100), retypes
    500 and confirms.  The withdrawal of 500 is not rejected: [amountPaid]
    falls from 100 to 0 and a withdrawal record of 500 is appended. *)
Theorem retyped_withdrawal_goes_through :
  amountPaid carLoan = 100 /\
  transactionsOf carLoan = [] /\
  snd (runItem 1700000000001 "d1" retypedWithdrawal (freshItem, [carLoan]))
  = [mkDebt "d1" "Vay mua xe" "Ngân hàng" 1000 0
            (isoDate 2024 3 1) (Some 1700000000000) None None
            (Some [mkTransaction "1700000000001" (Some 1700000000001) 500
                                 withdrawal (Some "thuốc"%string)])].
Proof. repeat split. Qed.

End LedgerFacts.
(** ** The ledger on the numbers of JavaScript *)

Module DoubleLedgerFacts.
Import JSDate JSNumber Doubles Samples NumberFacts.

Lemma Forall2_map_both {A : Type} (P : A -> A -> Prop) (f : A -> A) (l : list A) :
  (forall x, In x l -> P x (f x)) -> Forall2 P l (map f l).
Proof.
  induction l as [|x l IH]; intros H; cbn [map]; constructor.
  - apply H. now left.
  - apply IH. intros y Hy. apply H. now right.
Qed.

(** *** The integer ledger of [App] is the ledger on whole amounts *)

Lemma transactionsOf_debtOfApp d :
  transactionsOf (debtOfApp d) = map transactionOfApp (App.transactionsOf d).
Proof.
  unfold transactionsOf, App.transactionsOf, debtOfApp. cbn [transactions].
  destruct (App.transactions d); reflexivity.
Qed.

Lemma handleAddPayment_on_whole_amounts now id0 a prev :
  Forall (fun d => App.id d = id0 -> safeInteger (App.amountPaid d + a)) prev ->
  handleAddPayment now id0 (ofZ a) (map debtOfApp prev)
  = map debtOfApp (App.handleAddPayment now id0 a prev).
Proof.
  intros H. unfold handleAddPayment, App.handleAddPayment. rewrite !map_map.
  apply map_ext_in. intros d Hd. rewrite Forall_forall in H.
  change (id (debtOfApp d)) with (App.id d).
  destruct (String.eqb_spec (App.id d) id0) as [E|E]; [|reflexivity].
  cbv zeta. rewrite transactionsOf_debtOfApp. unfold debtOfApp.
  cbn [id name source totalAmount amountPaid dueDate createdAt targetMonth
       targetYear transactions
       App.id App.name App.source App.totalAmount App.amountPaid App.dueDate
       App.createdAt App.targetMonth App.targetYear App.transactions option_map].
  rewrite map_app. rewrite jsAdd_Z by (apply (H d Hd E)). reflexivity.
Qed.

Lemma handleWithdrawPayment_on_whole_amounts now id0 a why prev :
  Forall (fun d => App.id d = id0 -> safeInteger (App.amountPaid d - a)) prev ->
  handleWithdrawPayment now id0 (ofZ a) why (map debtOfApp prev)
  = map debtOfApp (App.handleWithdrawPayment now id0 a why prev).
Proof.
  intros H. unfold handleWithdrawPayment, App.handleWithdrawPayment. rewrite !map_map.
  apply map_ext_in. intros d Hd. rewrite Forall_forall in H.
  change (id (debtOfApp d)) with (App.id d).
  destruct (String.eqb_spec (App.id d) id0) as [E|E]; [|reflexivity].
  cbv zeta. rewrite transactionsOf_debtOfApp. unfold debtOfApp.
  cbn [id name source totalAmount amountPaid dueDate createdAt targetMonth
       targetYear transactions
       App.id App.name App.source App.totalAmount App.amountPaid App.dueDate
       App.createdAt App.targetMonth App.targetYear App.transactions option_map].
  rewrite map_app. rewrite jsSub_Z by (apply (H d Hd E)). rewrite Math_max_Z.
  reflexivity.
Qed.

(** *** A payment and the withdrawal of the same amount *)

(** On whole amounts the sum and the difference are exact up to 2^53. *)
Lemma round_trip_of_whole_amounts p n :
  0 <= p -> 0 < n -> p + n <= 2 ^ 53 ->
  Math_max (ofZ 0) (jsSub (jsAdd (ofZ p) (ofZ n)) (ofZ n)) = ofZ p.
Proof.
  intros Hp Hn B. change (2 ^ 53) with 9007199254740992 in B.
  rewrite jsAdd_Z by (change (2 ^ 53) with 9007199254740992; lia).
  rewrite jsSub_Z by (change (2 ^ 53) with 9007199254740992; lia).
  rewrite Math_max_Z. f_equal. lia.
Qed.

(** C3, amended.  A payment of [a > 0] followed by a withdrawal of the same
    amount on a debt whose [amountPaid] is not negative: the transactions of
    the debt are those of before followed by the payment record and then the
    withdrawal record, two entries more, whatever the amount; and the debt
    has its [amountPaid] of before when [amountPaid] and [a] are whole
    numbers whose sum is at most 2^53. *)
Theorem payment_then_withdrawal (now1 now2 : Z) (id0 : string) (a : number)
    (why : string) (prev : list Debt) :
  jsGt a (ofZ 0) = true ->
  Forall2 (fun d d' =>
             id d = id0 -> jsGe (amountPaid d) (ofZ 0) = true ->
             (forall p n : Z,
                amountPaid d = ofZ p -> a = ofZ n -> p + n <= 2 ^ 53 ->
                amountPaid d' = amountPaid d) /\
             transactionsOf d' =
               transactionsOf d ++
               [mkTransaction (App.toString now1) (Some now1) a App.payment None;
                mkTransaction (App.toString now2) (Some now2) a App.withdrawal
                              (Some why)] /\
             List.length (transactionsOf d') = (List.length (transactionsOf d) + 2)%nat)
          prev
          (handleWithdrawPayment now2 id0 a why (handleAddPayment now1 id0 a prev)).
Proof.
  intros Ha. unfold handleAddPayment, handleWithdrawPayment. rewrite map_map.
  apply Forall2_map_both. intros d _ E Hd.
  apply String.eqb_eq in E. rewrite E. cbn [id]. rewrite E.
  cbn [amountPaid transactionsOf transactions].
  split; [|split].
  - intros p n Ep En B. rewrite Ep, En in *.
    unfold jsGt in Ha. rewrite jsLt_Z in Ha. unfold jsGe in Hd. rewrite jsLe_Z in Hd.
    apply round_trip_of_whole_amounts; lia.
  - rewrite <- app_assoc. reflexivity.
  - rewrite !length_app. cbn. lia.
Qed.

Lemma payment_then_withdrawal_witness :
  jsGt (ofZ 40000) (ofZ 0) = true /\
  exists d',
    handleWithdrawPayment 6 "d1" (ofZ 40000) "x"
      (handleAddPayment 5 "d1" (ofZ 40000) [motorbikeLoan]) = [d'] /\
    amountPaid d' = amountPaid motorbikeLoan /\
    List.length (transactionsOf d') = 2%nat.
Proof.
  assert (P : jsGt (ofZ 40000) (ofZ 0) = true) by reflexivity.
  split; [exact P|].
  pose proof (payment_then_withdrawal 5 6 "d1" (ofZ 40000) "x" [motorbikeLoan] P) as F.
  unfold handleWithdrawPayment, handleAddPayment in F. cbn [map] in F.
  inversion F as [|d0 d' l l' H T]; subst. clear F T.
  eexists. split; [reflexivity|].
  destruct (H eq_refl eq_refl) as (A & _ & L).
  split; [|exact L].
  apply (A 500000 40000); [reflexivity|reflexivity|].
  change (2 ^ 53) with 9007199254740992. lia.
Defined.

(** C3 as it is worded fails on an amount that is not a whole number.  The
    text 1.005 in the amount field makes the amount 1.005 * 1000, which is
    the double 1004.9999999999999; on a debt that holds it as [amountPaid], a
    payment of 100000 (the text 100) followed by the withdrawal of 100000
    leaves [amountPaid] at 1005. *)
Lemma fraction_is_not_given_back :
  amountPaid fractionPaid = Finite (8840073487319039 # 8796093022208) /\
  CurrencyInput_value 100 = ofZ 100000 /\
  jsGe (amountPaid fractionPaid) (ofZ 0) = true /\
  jsGt (CurrencyInput_value 100) (ofZ 0) = true /\
  exists d',
    handleWithdrawPayment 6 "d1" (CurrencyInput_value 100) "x"
      (handleAddPayment 5 "d1" (CurrencyInput_value 100) [fractionPaid]) = [d'] /\
    amountPaid d' = ofZ 1005 /\
    amountPaid d' <> amountPaid fractionPaid.
Proof.
  split; [vm_compute; reflexivity|]. split; [vm_compute; reflexivity|].
  split; [vm_compute; reflexivity|]. split; [vm_compute; reflexivity|].
  eexists. split; [reflexivity|]. split; [vm_compute; reflexivity|].
  vm_compute. discriminate.
Qed.

(** Nor on whole numbers above 2^53: 2^53 + 1 is not a double. *)
Example large_amount_is_not_given_back :
  Math_max (ofZ 0) (jsSub (jsAdd (ofZ (2 ^ 53)) (ofZ 1)) (ofZ 1)) = ofZ (2 ^ 53 - 1).
Proof. vm_compute. reflexivity. Qed.

End DoubleLedgerFacts.

(** ** The weekly debt contribution *)

Module AggregationFacts.
Import JSDate DateUtils App Props Samples.

(** [Math_ceil_div n d] is the least integer at or above [n / d], and
    [Math_round_div n d] the integer nearest to [n / d], a half going up. *)
Lemma Math_ceil_div_spec n d :
  0 < d -> d * (Math_ceil_div n d - 1) < n <= d * Math_ceil_div n d.
Proof. unfold Math_ceil_div. intros H. Z.div_mod_to_equations. nia. Qed.

Lemma Math_round_div_spec n d :
  0 < d ->
  2 * d * Math_round_div n d - d <= 2 * n < 2 * d * Math_round_div n d + d.
Proof. unfold Math_round_div. intros H. Z.div_mod_to_equations. nia. Qed.


Lemma Neq_refl a : Neq a a.
Proof. destruct a; cbn; [reflexivity|exact I]. Qed.

Lemma Neq_trans a b c : Neq a b -> Neq b c -> Neq a c.
Proof.
  destruct a, b, c; cbn; try tauto. intros H1 H2. now rewrite H1.
Qed.


Lemma Nplus_compat_r a b c : Neq a b -> Neq (Nplus a c) (Nplus b c).
Proof.
  destruct a, b, c; cbn; try tauto. intros H. now rewrite H.
Qed.

Lemma Nplus_assoc a b c : Neq (Nplus (Nplus a b) c) (Nplus a (Nplus b c)).
Proof. destruct a, b, c; cbn; try exact I. symmetry. apply Qplus_assoc. Qed.

Lemma Nplus_0_r a : Neq (Nplus a (Some 0%Q)) a.
Proof. destruct a; cbn; [apply Qplus_0_r|exact I]. Qed.

Lemma Nplus_0_l a : Neq (Nplus (Some 0%Q) a) a.
Proof. destruct a; cbn; [apply Qplus_0_l|exact I]. Qed.

(** One step of the reducer adds the contribution of the debt. *)
Lemma reducer_step now total debt :
  Neq (let remainingAmount := totalAmount debt - amountPaid debt in
       if remainingAmount <=? 0 then total
       else
         let weeksLeft := weeksLeftOf now (dueDate debt) in
         if Nle0 weeksLeft
         then Nplus total (Some (inject_Z remainingAmount))
         else Nplus total (Ndiv remainingAmount weeksLeft))
      (Nplus total (contribution now debt)).
Proof.
  cbv zeta. unfold contribution.
  destruct (totalAmount debt - amountPaid debt <=? 0).
  - apply Neq_trans with (Nplus total (Some 0%Q)); [|apply Neq_refl].
    destruct total; cbn; [symmetry; apply Qplus_0_r|exact I].
  - destruct (weeksLeftOf now (dueDate debt)) as [w|]; cbn [Nle0 Ndiv].
    + destruct (w <=? 0); apply Neq_refl.
    + apply Neq_refl.
Qed.

Lemma reducer_fold now active : forall total,
  Neq (fold_left (fun total debt =>
                    let remainingAmount := totalAmount debt - amountPaid debt in
                    if remainingAmount <=? 0 then total
                    else
                      let weeksLeft := weeksLeftOf now (dueDate debt) in
                      if Nle0 weeksLeft
                      then Nplus total (Some (inject_Z remainingAmount))
                      else Nplus total (Ndiv remainingAmount weeksLeft))
                 active total)
      (Nplus total (sumOfContributions now active)).
Proof.
  induction active as [|d active IH]; intros total; cbn [fold_left].
  - unfold sumOfContributions. cbn.
    destruct total; cbn; [symmetry; apply Qplus_0_r|exact I].
  - eapply Neq_trans; [apply IH|].
    eapply Neq_trans; [apply Nplus_compat_r, reducer_step|].
    apply Nplus_assoc.
Qed.

(** The reducer adds up the shares of the debts: nothing for a debt with
    nothing left to pay, the whole remaining balance when the [weeksLeft] of
    the code is not positive, the remaining balance divided by it otherwise. *)
Lemma weeklyDebtContribution_sum_of_shares (now : Z) (active : list Debt) :
  Neq (weeklyDebtContribution now active) (sumOfContributions now active).
Proof.
  unfold weeklyDebtContribution.
  eapply Neq_trans; [apply reducer_fold|]. apply Nplus_0_l.
Qed.

(** The [weeksLeft] of the code written out:
    [ceil (round (|now - due| / 86400000) / 7)]. *)
Lemma weeksLeftOf_unfolded now due :
  weeksLeftOf now (Some due)
  = Some (- (- ((2 * Z.abs (now - due) + 86400000) / (2 * 86400000)) / 7)).
Proof. reflexivity. Qed.

(** Where the code does what is specified: on a debt that is not yet due,
    and on a debt that fell due less than half a day ago. *)
Lemma contribution_as_specified now debt :
  (forall due, dueDate debt = Some due ->
               now < due \/ 2 * (now - due) < msPerDay) ->
  contribution now debt = specifiedContribution now debt.
Proof.
  intros H. unfold contribution, specifiedContribution.
  destruct (totalAmount debt - amountPaid debt <=? 0); [reflexivity|].
  destruct (dueDate debt) as [due|] eqn:D; [|reflexivity].
  rewrite weeksLeftOf_unfolded.
  destruct (Z.leb_spec due now) as [L|G]; [|reflexivity].
  destruct (H due eq_refl) as [F|N]; [lia|].
  replace (- (- ((2 * Z.abs (now - due) + 86400000) / (2 * 86400000)) / 7))
    with 0; [reflexivity|].
  unfold msPerDay in N. Z.div_mod_to_equations. lia.
Qed.

Lemma weeklyDebtContribution_as_specified now active :
  Forall (fun debt => forall due, dueDate debt = Some due ->
                        now < due \/ 2 * (now - due) < msPerDay) active ->
  Neq (weeklyDebtContribution now active) (specifiedWeeklyContribution now active).
Proof.
  intros H. eapply Neq_trans; [apply weeklyDebtContribution_sum_of_shares|].
  unfold sumOfContributions, specifiedWeeklyContribution.
  replace (map (contribution now) active)
    with (map (specifiedContribution now) active); [apply Neq_refl|].
  induction H as [|d l Hd _ IH]; [reflexivity|].
  cbn [map]. rewrite IH. f_equal. symmetry. apply contribution_as_specified, Hd.
Qed.

(** The two examples of the specification: 700 remaining and [weeksLeft = 7]
    give 100; 700 remaining and [weeksLeft = 0] give 700. *)
Example seven_weeks_left :
  weeksLeftOf 0 (dueDate (owes700 49)) = Some 7 /\
  Neq (weeklyDebtContribution 0 [owes700 49]) (Some 100%Q) /\
  Neq (specifiedWeeklyContribution 0 [owes700 49]) (Some 100%Q).
Proof. repeat split. Qed.

Example no_week_left :
  weeksLeftOf 0 (dueDate (owes700 0)) = Some 0 /\
  Neq (weeklyDebtContribution 0 [owes700 0]) (Some 700%Q) /\
  Neq (specifiedWeeklyContribution 0 [owes700 0]) (Some 700%Q).
Proof. repeat split. Qed.

(** C2.  The code does not contribute the full remaining balance of an
    overdue debt.  A debt with 700 remaining that fell due 14 days before
    [now] is overdue, so that the weekly debt contribution is specified to be
    700; [daysBetween] is an absolute value, the code finds 14 days and
    [weeksLeft = 2], and contributes 350, on the integers as on the
    doubles. *)
Theorem overdue_debt_is_amortised :
  totalAmount (owes700 0) - amountPaid (owes700 0) = 700 /\
  dueDate (owes700 0) = Some 0 /\
  daysBetween (Some (14 * msPerDay)) (dueDate (owes700 0)) = Some 14 /\
  weeksLeftOf (14 * msPerDay) (dueDate (owes700 0)) = Some 2 /\
  Neq (weeklyDebtContribution (14 * msPerDay) [owes700 0]) (Some 350%Q) /\
  Doubles.weeklyDebtContribution (14 * msPerDay) [Doubles.debtOfApp (owes700 0)]
  = JSNumber.ofZ 350 /\
  Neq (specifiedWeeklyContribution (14 * msPerDay) [owes700 0]) (Some 700%Q) /\
  ~ Neq (weeklyDebtContribution (14 * msPerDay) [owes700 0])
        (specifiedWeeklyContribution (14 * msPerDay) [owes700 0]).
Proof.
  split; [reflexivity|]. split; [reflexivity|]. split; [reflexivity|].
  split; [reflexivity|]. split; [reflexivity|].
  split; [vm_compute; reflexivity|]. split; [reflexivity|].
  vm_compute. discriminate.
Qed.

End AggregationFacts.

(** ** The week filter *)

Module FilterFacts.
Import JSDate DateUtils App Props Samples CalendarFacts.

Lemma date_le_within (d lo hi : Date) :
  date_ge d lo && date_le d hi = true <-> within d lo hi.
Proof.
  unfold date_ge, date_le, within. split.
  - destruct d as [t|], lo as [a|], hi as [b|]; cbn;
      rewrite ?andb_false_r; try discriminate.
    intros H. apply andb_true_iff in H. destruct H as [H1 H2].
    apply Z.leb_le in H1, H2. exists t, a, b. repeat split; assumption.
  - intros (t & a & b & -> & -> & -> & H1 & H2).
    apply andb_true_iff. split; apply Z.leb_le; assumption.
Qed.

(** For a week number other than 0 the guard [if (week)] passes, and the
    filter is the comparison of the date with the two ends of the range. *)
Lemma week_filter_of_truthy_week (tza : Z) (d : Date) (year : Z)
    (month : option Z) (week : Z) :
  week <> 0 ->
  (isDateInFilter tza d (mkFilter FWeek year month (Some week)) = true <->
   within d (rstart (getWeekRange tza year week))
            (lastMillisecondOfDay tza (rend (getWeekRange tza year week)))).
Proof.
  intros W. unfold isDateInFilter. cbn [ftype fweek fyear Z.eqb].
  destruct (Z.eqb_spec week 0) as [E|_]; [contradiction|].
  generalize (getWeekRange tza year week) as r. intros [s e].
  cbn [rstart rend]. rewrite <- date_le_within. unfold lastMillisecondOfDay.
  destruct e as [e|]; [rewrite setHours_end_of_day|]; reflexivity.
Qed.

(** C8.  For every date, every year and every week number (the weeks of a
    filter are counted from 1), the week filter holds of the date exactly
    when the date lies between the start of [getWeekRange year week] and the
    last millisecond (23:59:59.999) of the day of its end, both included; and
    a week filter with no week number holds of no date. *)
Theorem week_filter_iff_in_week_range (tza : Z) (d : Date) (year : Z)
    (month : option Z) (week : Z) :
  1 <= week ->
  (isDateInFilter tza d (mkFilter FWeek year month (Some week)) = true <->
   within d (rstart (getWeekRange tza year week))
            (lastMillisecondOfDay tza (rend (getWeekRange tza year week)))) /\
  isDateInFilter tza d (mkFilter FWeek year month None) = false.
Proof.
  intros W. split; [|reflexivity].
  apply week_filter_of_truthy_week. lia.
Qed.

Lemma week_filter_iff_in_week_range_witness :
  1 <= 1 /\
  (isDateInFilter indochina (isoDate 2024 1 3) (mkFilter FWeek 2024 None (Some 1)) = true <->
   within (isoDate 2024 1 3) (rstart (getWeekRange indochina 2024 1))
          (lastMillisecondOfDay indochina (rend (getWeekRange indochina 2024 1)))).
Proof.
  assert (W : 1 <= 1) by lia.
  split; [exact W|].
  exact (proj1 (week_filter_iff_in_week_range indochina (isoDate 2024 1 3) 2024 None 1 W)).
Defined.

(** Outside the week numbers of a filter: the number 0 is falsy, so the guard
    treats it as a missing week number. *)
Remark week_zero_is_treated_as_missing (tza : Z) (d : Date) (year : Z)
    (month : option Z) :
  isDateInFilter tza d (mkFilter FWeek year month (Some 0)) = false.
Proof. reflexivity. Qed.

End FilterFacts.

(** ** The recurring expander *)

Module RecurringFacts.
Import JSDate DateUtils App Props Samples CalendarFacts.

Section LocalZone.

Variable tza : Z.

Lemma advance_weekly c : advance tza weekly c = TimeClip (c + 7 * msPerDay).
Proof. apply setDate_shift. Qed.

Lemma advance_monthly c :
  advance tza monthly c
  = TimeClip (c + daysInMonth (getFullYear tza c) (getMonth tza c) * msPerDay).
Proof. apply setMonth_next. Qed.

(** Every step moves [currentDate] forward, by a week at least. *)
Lemma advance_at_least_a_week freq c c' :
  advance tza freq c = Some c' -> c + 7 * msPerDay <= c'.
Proof.
  destruct freq.
  - rewrite advance_weekly. intros E. apply TimeClip_some in E. lia.
  - rewrite advance_monthly. intros E. apply TimeClip_some in E.
    pose proof (daysInMonth_range (getFullYear tza c) (getMonth tza c)
                  (MonthFromTime_range _)) as R.
    unfold msPerDay in *. lia.
Qed.

Variables (now : Z) (nd : NewDebt) (freq : Frequency).

Lemma loop_exit fuel e c count acc :
  e < c ->
  recurringLoop tza fuel now nd freq (Some e) (Some c) count acc = Some acc.
Proof.
  intros H. destruct fuel; cbn [recurringLoop];
    destruct (Z.leb_spec c e); try lia; reflexivity.
Qed.

Lemma loop_invalid fuel endDate currentDate count acc :
  endDate = None \/ currentDate = None ->
  recurringLoop tza fuel now nd freq endDate currentDate count acc = Some acc.
Proof.
  intros [-> | ->]; destruct fuel; cbn [recurringLoop];
    try destruct currentDate; try destruct endDate; reflexivity.
Qed.

Lemma loop_step fuel e c count acc :
  c <= e ->
  recurringLoop tza (S fuel) now nd freq (Some e) (Some c) count acc
  = recurringLoop tza fuel now nd freq (Some e) (advance tza freq c)
      (count + 1) (acc ++ [installment tza now nd freq c count]).
Proof.
  intros H. cbn [recurringLoop]. destruct (Z.leb_spec c e); [reflexivity|lia].
Qed.

Lemma loop_runs_out k : forall e c count acc,
  e - c < 7 * msPerDay * Z.of_nat k ->
  forall fuel, (k <= fuel)%nat ->
  exists ds,
    recurringLoop tza fuel now nd freq (Some e) (Some c) count acc = Some ds /\
    (List.length ds <= List.length acc + k)%nat.
Proof.
  induction k as [|k IH]; intros e c count acc H fuel Hf.
  - exists acc. split; [apply loop_exit; lia | lia].
  - destruct (Z.lt_ge_cases e c) as [Hlt|Hge].
    + exists acc. split; [apply loop_exit; assumption | lia].
    + destruct fuel as [|fuel]; [lia|]. rewrite loop_step by assumption.
      destruct (advance tza freq c) as [c'|] eqn:A.
      * apply advance_at_least_a_week in A.
        destruct (IH e c' (count + 1)
                     (acc ++ [installment tza now nd freq c count]))
          with (fuel := fuel) as (ds & E & L); [lia|lia|].
        exists ds. split; [exact E|]. rewrite length_app in L. cbn in L. lia.
      * rewrite loop_invalid by (right; reflexivity).
        eexists. split; [reflexivity|]. rewrite length_app. cbn. lia.
Qed.

(** What the loop adds are installments of dates up to the end date. *)
Lemma loop_emits fuel : forall endDate currentDate count acc ds,
  recurringLoop tza fuel now nd freq endDate currentDate count acc = Some ds ->
  exists new,
    ds = acc ++ new /\
    Forall (fun d => exists c k,
                d = installment tza now nd freq c k /\
                date_le (Some c) endDate = true) new.
Proof.
  induction fuel as [|fuel IH]; intros endDate currentDate count acc ds;
    cbn [recurringLoop]; destruct currentDate as [c|], endDate as [e|];
    try (intros E; injection E as <-; exists []; split;
         [now rewrite app_nil_r | constructor]).
  - destruct (c <=? e); [discriminate|].
    intros E; injection E as <-. exists []. split;
      [now rewrite app_nil_r | constructor].
  - destruct (Z.leb_spec c e) as [Hle|Hgt].
    + intros E. apply IH in E. destruct E as (new & -> & F).
      exists (installment tza now nd freq c count :: new).
      split; [now rewrite <- app_assoc|].
      constructor; [|exact F].
      exists c, count. split; [reflexivity|]. cbn. now apply Z.leb_le.
    + intros E; injection E as <-. exists []. split;
        [now rewrite app_nil_r | constructor].
Qed.

End LocalZone.

(** An installment is due on the current date, belongs to the month and the
    year of that date, is named after the cadence, and starts unpaid with an
    empty transaction list. *)
Lemma installment_fields tza now nd freq c count :
  let d := installment tza now nd freq c count in
  dueDate d = Some c /\
  targetMonth d = Some (getMonth tza c) /\
  targetYear d = Some (getFullYear tza c) /\
  amountPaid d = 0 /\
  transactions d = Some [] /\
  totalAmount d = nd_totalAmount nd /\
  name d = (nd_name nd ++ " " ++
            match freq with
            | monthly => "(Tháng " ++ toString (getMonth tza c + 1) ++ "/" ++
                         toString (getFullYear tza c) ++ ")"
            | weekly => "(Kỳ " ++ toString count ++ ")"
            end)%string.
Proof. destruct freq; repeat split. Qed.

(** The weekly expansion between two valid dates: one installment per week
    from the start date while the date is at or before the end date. *)
Lemma weekly_expansion tza now nd k : forall e c count acc fuel,
  Z.abs e <= maxTime -> - maxTime <= c ->
  k = enoughFuel (Some e) (Some c) -> (k <= fuel)%nat ->
  recurringLoop tza fuel now nd weekly (Some e) (Some c) count acc
  = Some (acc ++ weeklyInstallments tza now nd k c count).
Proof.
  induction k as [|k IH]; intros e c count acc fuel He Hc Hk Hf;
    unfold enoughFuel, msPerDay in Hk.
  - cbn. rewrite app_nil_r. apply loop_exit.
    destruct (Z.lt_ge_cases e c); [assumption|].
    exfalso. revert Hk. Z.div_mod_to_equations. lia.
  - assert (Hle : c <= e).
    { destruct (Z.lt_ge_cases e c); [|lia].
      exfalso. revert Hk. Z.div_mod_to_equations. lia. }
    destruct fuel as [|fuel]; [lia|]. rewrite loop_step by assumption.
    cbn [weeklyInstallments]. rewrite advance_weekly.
    destruct (Z.le_gt_cases (c + 7 * msPerDay) e) as [Hn|Hn].
    + unfold TimeClip.
      destruct (Z.leb_spec (Z.abs (c + 7 * msPerDay)) maxTime) as [_|B];
        [|unfold msPerDay in *; lia].
      rewrite (IH e (c + 7 * msPerDay)).
      * now rewrite <- app_assoc.
      * assumption.
      * unfold msPerDay. lia.
      * unfold enoughFuel, msPerDay in *. revert Hk Hn.
        Z.div_mod_to_equations. lia.
      * lia.
    + assert (k = O).
      { unfold msPerDay in *. revert Hk Hn. Z.div_mod_to_equations. lia. }
      subst k. cbn [weeklyInstallments].
      destruct (TimeClip (c + 7 * msPerDay)) as [c'|] eqn:T.
      * apply TimeClip_some in T. rewrite loop_exit by lia. reflexivity.
      * rewrite loop_invalid by (right; reflexivity). reflexivity.
Qed.

(** A start date after the end date gives no installment. *)
Lemma expansion_of_empty_range tza fuel now nd freq e c :
  e < c ->
  recurringLoop tza fuel now nd freq (Some e) (Some c) 1 [] = Some [].
Proof. apply loop_exit. Qed.

(** C6. The loop of the recurring expansion terminates: a step moves the
    current date strictly forward, and for every end date, current date and
    cadence there is a number of iterations within which the loop returns its
    debts, having added at most that many installments; so do the recurring
    branch and the whole of [handleSaveDebt]. *)
Theorem recurring_loop_terminates (tza now : Z) (nd : NewDebt)
    (freq : Frequency) (endDate currentDate : Date) (count : Z)
    (acc : list Debt) (endField : DateField) (form : DebtForm)
    (prev : list Debt) :
  (forall c c', advance tza freq c = Some c' -> c < c') /\
  (exists n, forall fuel, (n <= fuel)%nat ->
     exists ds,
       recurringLoop tza fuel now nd freq endDate currentDate count acc
       = Some ds /\
       (List.length ds <= List.length acc + n)%nat) /\
  (exists n, forall fuel, (n <= fuel)%nat ->
     exists outcome, recurringDebts tza fuel now nd freq endField = Some outcome) /\
  (exists n, forall fuel, (n <= fuel)%nat ->
     exists debts, handleSaveDebt tza fuel now form prev = Some debts).
Proof.
  assert (L : forall nd freq endDate currentDate count acc fuel,
             (enoughFuel endDate currentDate <= fuel)%nat ->
             exists ds,
               recurringLoop tza fuel now nd freq endDate currentDate count acc
               = Some ds /\
               (List.length ds <= List.length acc + enoughFuel endDate currentDate)%nat).
  { intros nd' freq' [e|] [c|] count' acc' fuel Hf;
      try solve [exists acc'; split; [apply loop_invalid; auto | lia]].
    apply loop_runs_out; [|exact Hf].
    unfold enoughFuel, msPerDay in *.
    destruct (Z.lt_ge_cases e c).
    - lia.
    - rewrite Z2Nat.id by (Z.div_mod_to_equations; lia).
      Z.div_mod_to_equations; lia. }
  assert (R : forall nd freq endField fuel,
             (enoughFuel (newDateOfField endField)
                         (newDateOfField (nd_dueDate nd)) <= fuel)%nat ->
             exists outcome,
               recurringDebts tza fuel now nd freq endField = Some outcome).
  { intros nd' freq' endField' fuel Hf. unfold recurringDebts.
    destruct (fieldIsEmpty (nd_dueDate nd') || fieldIsEmpty endField');
      [eexists; reflexivity|].
    destruct (L nd' freq' (newDateOfField endField')
                (newDateOfField (nd_dueDate nd')) 1 [] fuel Hf) as (ds & E & _).
    rewrite E. eexists; reflexivity. }
  split; [|split; [|split]].
  - intros c c' A. apply advance_at_least_a_week in A. unfold msPerDay in A. lia.
  - exists (enoughFuel endDate currentDate). intros fuel Hf. apply L. exact Hf.
  - eexists. intros fuel Hf. apply R. exact Hf.
  - exists (enoughFuel (newDateOfField (recurringEndDate form))
                       (newDateOfField (nd_dueDate (newDebt form)))).
    intros fuel Hf. unfold handleSaveDebt.
    destruct (truthyId (editingDebtId form)); [eexists; reflexivity|].
    destruct (debtType form); [|eexists; reflexivity].
    destruct (isRecurringDebt form); [|eexists; reflexivity].
    destruct (R (newDebt form) (recurringFrequency form) (recurringEndDate form)
                fuel Hf) as ([|ds] & E); rewrite E; eexists; reflexivity.
Qed.

Lemma recurring_loop_terminates_witness :
  advance indochina monthly 1706659200000 = Some 1709337600000 /\
  1706659200000 < 1709337600000.
Proof.
  assert (A : advance indochina monthly 1706659200000 = Some 1709337600000)
    by (vm_compute; reflexivity).
  split; [exact A|].
  exact (proj1 (recurring_loop_terminates indochina 0 fromJan31 monthly None None
                  1 [] emptyField (shopeeForm fromJan31 0 2024) [])
               1706659200000 1709337600000 A).
Defined.

(** The monthly step when the date of the current day does not exist in the
    next month: the new current date lies in the month after the next, so no
    installment falls in the next month. *)
Lemma monthly_step_skips_short_month (tza c c' : Z) :
  let y' := getFullYear tza c + (getMonth tza c + 1) / 12 in
  let m' := (getMonth tza c + 1) mod 12 in
  daysInMonth y' m' < getDate tza c ->
  advance tza monthly c = Some c' ->
  getFullYear tza c' = y' /\ getMonth tza c' = m' + 1 /\
  getDate tza c' = getDate tza c - daysInMonth y' m'.
Proof. apply setMonth_next_overflow. Qed.

(** The monthly step when it does: the same date of the next month. *)
Lemma monthly_step_regular (tza c c' : Z) :
  let y' := getFullYear tza c + (getMonth tza c + 1) / 12 in
  let m' := (getMonth tza c + 1) mod 12 in
  getDate tza c <= daysInMonth y' m' ->
  advance tza monthly c = Some c' ->
  getFullYear tza c' = y' /\ getMonth tza c' = m' /\
  getDate tza c' = getDate tza c /\
  TimeWithinDay (LocalTime tza c') = TimeWithinDay (LocalTime tza c).
Proof. apply setMonth_next_regular. Qed.

(** Weekly from 2024-01-01 to 2024-01-22: four installments a week apart,
    numbered 1 to 4. *)
Example weekly_january_2024 :
  exists ds,
    recurringDebts indochina 4 1700000000000 fromJan1 weekly
                   (dateString (isoDate 2024 1 22)) = Some (added ds) /\
    map dueDate ds
    = [isoDate 2024 1 1; isoDate 2024 1 8; isoDate 2024 1 15; isoDate 2024 1 22] /\
    map name ds
    = ["Góp xe (Kỳ 1)"; "Góp xe (Kỳ 2)"; "Góp xe (Kỳ 3)"; "Góp xe (Kỳ 4)"]%string /\
    map amountPaid ds = [0; 0; 0; 0] /\
    map transactions ds = [Some []; Some []; Some []; Some []].
Proof. eexists. split; [vm_compute; reflexivity|]. repeat split. Qed.

(** Monthly from 2024-01-15 to 2024-04-15: the 15th of January, February,
    March and April. *)
Example monthly_from_the_15th :
  exists ds,
    recurringDebts indochina 20 1700000000000 fromJan15 monthly
                   (dateString (isoDate 2024 4 15)) = Some (added ds) /\
    map dueDate ds
    = [isoDate 2024 1 15; isoDate 2024 2 15; isoDate 2024 3 15; isoDate 2024 4 15] /\
    map targetMonth ds = [Some 0; Some 1; Some 2; Some 3] /\
    map name ds
    = ["Góp xe (Tháng 1/2024)"; "Góp xe (Tháng 2/2024)";
       "Góp xe (Tháng 3/2024)"; "Góp xe (Tháng 4/2024)"]%string.
Proof. eexists. split; [vm_compute; reflexivity|]. repeat split. Qed.

(** C5 on the code.  Monthly from 2024-01-31 to 2024-04-30: the step from
    31 January asks for 31 February and lands on 2 March, and the dates stay
    on the 2nd from there.  Three installments come out, none in February,
    and only the first on the 31st. *)
Theorem monthly_from_the_31st_skips_february :
  exists ds,
    recurringDebts indochina 20 1700000000000 fromJan31 monthly
                   (dateString (isoDate 2024 4 30)) = Some (added ds) /\
    handleSaveDebt indochina 20 1700000000000
                   (recurringForm fromJan31 monthly (dateString (isoDate 2024 4 30)))
                   [carLoan] = Some (carLoan :: ds) /\
    map dueDate ds = [isoDate 2024 1 31; isoDate 2024 3 2; isoDate 2024 4 2] /\
    map targetMonth ds = [Some 0; Some 2; Some 3] /\
    map name ds
    = ["Góp xe (Tháng 1/2024)"; "Góp xe (Tháng 3/2024)";
       "Góp xe (Tháng 4/2024)"]%string.
Proof.
  eexists. split; [vm_compute; reflexivity|].
  split; [vm_compute; reflexivity|]. repeat split.
Qed.

End RecurringFacts.


(** ** The Shopee SPayLater debt *)

Module ShopeeFacts.
Import JSDate DateUtils App Props Samples CalendarFacts.

(** What the branch computes before it makes the date. *)
Lemma shopee_target tza now nd m y :
  0 <= m <= 11 ->
  let d := shopeeDebt tza now nd m y in
  targetMonth d = Some ((m + 1) mod 12) /\
  targetYear d = Some (y + (m + 1) / 12) /\
  dueDate d = newDate tza (y + (m + 1) / 12) ((m + 1) mod 12) 10 /\
  amountPaid d = 0 /\ transactions d = Some [].
Proof.
  intros H. unfold shopeeDebt. cbn [targetMonth targetYear dueDate amountPaid transactions].
  destruct (Z.gtb_spec (m + 1) 11) as [G|G].
  - assert (m = 11) by lia. subst m. repeat split; f_equal; lia.
  - rewrite (Z.mod_small (m + 1) 12), (Z.div_small (m + 1) 12), Z.add_0_r by lia.
    repeat split.
Qed.

(** [new Date(year, month, 10)] for a month from 0 to 11: the 10th of that
    month at midnight, in the year given when it is outside 0..99 and in the
    year 1900 + year otherwise. *)
Lemma newDate_fields tza year month t :
  0 <= month <= 11 ->
  newDate tza year month 10 = Some t ->
  getFullYear tza t = (if (0 <=? year) && (year <=? 99) then 1900 + year else year) /\
  getMonth tza t = month /\ getDate tza t = 10 /\
  TimeWithinDay (LocalTime tza t) = 0.
Proof.
  intros Hm E. unfold newDate in E. apply TimeClip_some in E. destruct E as [-> _].
  unfold getFullYear, getMonth, getDate.
  set (yr := if (0 <=? year) && (year <=? 99) then 1900 + year else year).
  replace (LocalTime tza (UTC tza (MakeDate (MakeDay yr month 10) (MakeTime 0 0 0 0))))
    with (MakeDate (MakeDay yr month 10) 0)
    by (unfold LocalTime, UTC, MakeDate, MakeTime; lia).
  pose proof (daysInMonth_range yr month Hm) as R.
  destruct (fields_of_MakeDay yr month 10 0) as (Y & M & D);
    [assumption | lia | unfold msPerDay; lia |].
  repeat split; try assumption.
  apply TimeWithinDay_MakeDate. unfold msPerDay; lia.
Qed.

(** When the year of the due date is outside 0..99, the debt is due on the
    10th of the month after the bill month, in January of the next year for
    a December bill, and that month and year are its target. *)
Lemma shopee_due_date tza now nd m y t :
  0 <= m <= 11 ->
  let dueYear := y + (m + 1) / 12 in
  let dueMonth := (m + 1) mod 12 in
  ~ (0 <= dueYear <= 99) ->
  dueDate (shopeeDebt tza now nd m y) = Some t ->
  getFullYear tza t = dueYear /\ getMonth tza t = dueMonth /\
  getDate tza t = 10 /\
  targetMonth (shopeeDebt tza now nd m y) = Some dueMonth /\
  targetYear (shopeeDebt tza now nd m y) = Some dueYear.
Proof.
  cbv zeta. intros Hm Hy E.
  destruct (shopee_target tza now nd m y Hm) as (TM & TY & DD & _).
  rewrite DD in E. apply newDate_fields in E;
    [|pose proof (Z.mod_pos_bound (m + 1) 12 eq_refl); lia].
  destruct E as (Y & M & D & _).
  replace ((0 <=? y + (m + 1) / 12) && (y + (m + 1) / 12 <=? 99)) with false in Y
    by (symmetry; apply andb_false_iff; rewrite !Z.leb_gt; lia).
  repeat split; assumption.
Qed.

(** When it is within 0..99, the due date is in the year 1900 + year, and
    the target year is not the year of the due date. *)
Lemma shopee_two_digit_year tza now nd m y t :
  0 <= m <= 11 ->
  let dueYear := y + (m + 1) / 12 in
  0 <= dueYear <= 99 ->
  dueDate (shopeeDebt tza now nd m y) = Some t ->
  getFullYear tza t = 1900 + dueYear /\
  targetYear (shopeeDebt tza now nd m y) = Some dueYear.
Proof.
  cbv zeta. intros Hm Hy E.
  destruct (shopee_target tza now nd m y Hm) as (TM & TY & DD & _).
  rewrite DD in E. apply newDate_fields in E;
    [|pose proof (Z.mod_pos_bound (m + 1) 12 eq_refl); lia].
  destruct E as (Y & _).
  replace ((0 <=? y + (m + 1) / 12) && (y + (m + 1) / 12 <=? 99)) with true in Y
    by (symmetry; apply andb_true_iff; rewrite !Z.leb_le; lia).
  split; assumption.
Qed.

(** The December bill of 2024 is due on 10 January 2025. *)
Example december_bill_rolls_over :
  let d := shopeeDebt indochina 1700000000000 fromJan1 11 2024 in
  dueDate d = newDate indochina 2025 0 10 /\
  targetMonth d = Some 0 /\ targetYear d = Some 2025 /\
  name d = "SPayLater - Hóa đơn T12"%string.
Proof. repeat split. Qed.

(** C7 on the code.  The year field is a number input; with the bill year 24
    and the bill month January, the debt is due on 10 February 1924 while its
    target year is 24. *)
Theorem shopee_year_24_is_due_in_1924 :
  let d := shopeeDebt indochina 1700000000000 fromJan1 0 24 in
  handleSaveDebt indochina 0 1700000000000 (shopeeForm fromJan1 0 24) [carLoan]
  = Some [carLoan; d] /\
  targetMonth d = Some 1 /\ targetYear d = Some 24 /\
  exists t, dueDate d = Some t /\
            getFullYear indochina t = 1924 /\
            getMonth indochina t = 1 /\ getDate indochina t = 10.
Proof.
  cbv zeta. split; [reflexivity|]. split; [reflexivity|]. split; [reflexivity|].
  exists (-1448262000000). repeat split; vm_compute; reflexivity.
Qed.

End ShopeeFacts.

(** ** Weeks: [getWeekRange], [getWeeksInYear], [getWeekNumber] *)

Module WeekFacts.
Import JSDate DateUtils DateUtilsMore App AppMore Props PropsMore Samples.
Import CalendarFacts.

#[local] Opaque climbYear YearFromDay DayFromYear.

Lemma Day_whole_days a b :
  0 <= b < msPerDay -> Day (a * msPerDay + b) = a.
Proof. unfold Day, msPerDay. intros. Z.div_mod_to_equations. nia. Qed.

Lemma TimeWithinDay_whole_days a :
  TimeWithinDay (a * msPerDay) = 0.
Proof. unfold TimeWithinDay, msPerDay. Z.div_mod_to_equations. nia. Qed.

(** The year of a day is at most [y] exactly when the day comes before the
    first day of the year [y + 1]. *)
Lemma YearFromDay_le d y : YearFromDay d <= y <-> d < DayFromYear (y + 1).
Proof.
  pose proof (YearFromDay_spec d) as S. split; intros H.
  - assert (DayFromYear (YearFromDay d + 1) <= DayFromYear (y + 1))
      by (apply DayFromYear_le; lia). lia.
  - destruct (Z.le_gt_cases (YearFromDay d) y) as [L|G]; [exact L|].
    assert (DayFromYear (y + 1) <= DayFromYear (YearFromDay d))
      by (apply DayFromYear_le; lia). lia.
Qed.

Lemma YearFromDay_ge d y : y <= YearFromDay d <-> DayFromYear y <= d.
Proof.
  pose proof (YearFromDay_spec d) as S. split; intros H.
  - assert (DayFromYear y <= DayFromYear (YearFromDay d))
      by (apply DayFromYear_le; lia). lia.
  - destruct (Z.le_gt_cases y (YearFromDay d)) as [L|G]; [exact L|].
    assert (DayFromYear (YearFromDay d + 1) <= DayFromYear y)
      by (apply DayFromYear_le; lia). lia.
Qed.

Lemma MakeDay_january y dt : MakeDay y 0 dt = DayFromYear y + dt - 1.
Proof. rewrite MakeDay_small_month by lia. cbn [monthStart]. lia. Qed.

Section LocalZone.

Variable tza : Z.

(** A date made by the constructor is a local midnight. *)
Lemma newDate_midnight year month date d :
  newDate tza year month date = Some d ->
  LocalTime tza d
  = MakeDay (if (0 <=? year) && (year <=? 99) then 1900 + year else year)
            month date * msPerDay.
Proof.
  unfold newDate. intros E. apply TimeClip_some in E. destruct E as [-> _].
  unfold LocalTime, UTC, MakeDate, MakeTime. lia.
Qed.

Lemma localDay_shift t k :
  localDay tza (t + k * msPerDay) = localDay tza t + k.
Proof.
  unfold localDay, LocalTime, Day, msPerDay. Z.div_mod_to_equations. nia.
Qed.

Lemma getDay_localDay t : getDay tza t = (localDay tza t + 4) mod 7.
Proof. reflexivity. Qed.

(** The range in terms of the date [d] the function starts from. *)
Lemma getWeekRange_from_anchor year weekNumber s e :
  getWeekRange tza year weekNumber = mkRange (Some s) (Some e) ->
  exists d,
    newDate tza year 0 (1 + (weekNumber - 1) * 7) = Some d /\
    s = d - ((localDay tza d + 3) mod 7) * msPerDay /\
    e = s + 6 * msPerDay.
Proof.
  unfold getWeekRange.
  destruct (newDate tza year 0 (1 + (weekNumber - 1) * 7)) as [d|] eqn:N;
    [|discriminate].
  replace (getDate tza d - getDay tza d + (if getDay tza d =? 0 then -6 else 1))
    with (getDate tza d + (- getDay tza d + (if getDay tza d =? 0 then -6 else 1)))
    by lia.
  rewrite setDate_shift.
  destruct (TimeClip (d + (- getDay tza d + (if getDay tza d =? 0 then -6 else 1))
                          * msPerDay)) as [s'|] eqn:S; [|discriminate].
  rewrite setDate_shift. intros E. injection E as Es Ee. subst s'.
  apply TimeClip_some in S, Ee. destruct S as [S _], Ee as [Ee _].
  exists d. split; [reflexivity|]. split; [|unfold msPerDay; lia].
  rewrite S. rewrite getDay_localDay.
  destruct (Z.eqb_spec ((localDay tza d + 4) mod 7) 0) as [Z0|NZ];
    unfold msPerDay; Z.div_mod_to_equations; lia.
Qed.

(** The range computed on day numbers: [A] is the day of the date the
    function starts from. *)
Lemma getWeekRange_normal year weekNumber :
  let yr := if (0 <=? year) && (year <=? 99) then 1900 + year else year in
  let A := DayFromYear yr + 7 * (weekNumber - 1) in
  getWeekRange tza year weekNumber
  = match TimeClip (localMidnight tza A) with
    | None => mkRange None None
    | Some _ =>
        match TimeClip (localMidnight tza (mondayOf A)) with
        | None => mkRange None None
        | Some s => mkRange (Some s) (TimeClip (localMidnight tza (mondayOf A + 6)))
        end
    end.
Proof.
  cbv zeta. unfold getWeekRange.
  set (yr := if (0 <=? year) && (year <=? 99) then 1900 + year else year).
  set (A := DayFromYear yr + 7 * (weekNumber - 1)).
  assert (N : newDate tza year 0 (1 + (weekNumber - 1) * 7)
              = TimeClip (localMidnight tza A)).
  { unfold newDate. fold yr. f_equal. rewrite MakeDay_january.
    unfold UTC, MakeDate, MakeTime, localMidnight, A. lia. }
  rewrite N.
  destruct (TimeClip (localMidnight tza A)) as [d|] eqn:T; [|reflexivity].
  apply TimeClip_some in T. destruct T as [-> _].
  assert (LD : localDay tza (localMidnight tza A) = A).
  { unfold localDay, LocalTime, localMidnight.
    replace (A * msPerDay - tza + tza) with (A * msPerDay + 0) by lia.
    apply Day_whole_days. unfold msPerDay; lia. }
  replace (getDate tza (localMidnight tza A) - getDay tza (localMidnight tza A)
           + (if getDay tza (localMidnight tza A) =? 0 then -6 else 1))
    with (getDate tza (localMidnight tza A) + - ((A + 3) mod 7)).
  2:{ rewrite getDay_localDay, LD.
      destruct (Z.eqb_spec ((A + 4) mod 7) 0); Z.div_mod_to_equations; lia. }
  rewrite setDate_shift.
  replace (localMidnight tza A + - ((A + 3) mod 7) * msPerDay)
    with (localMidnight tza (mondayOf A))
    by (unfold localMidnight, mondayOf; lia).
  destruct (TimeClip (localMidnight tza (mondayOf A))) as [s|] eqn:S; [|reflexivity].
  apply TimeClip_some in S. destruct S as [-> _].
  rewrite setDate_shift. do 2 f_equal. unfold localMidnight. lia.
Qed.

Lemma localDay_localMidnight day : localDay tza (localMidnight tza day) = day.
Proof.
  unfold localDay, LocalTime, localMidnight.
  replace (day * msPerDay - tza + tza) with (day * msPerDay + 0) by lia.
  apply Day_whole_days. unfold msPerDay; lia.
Qed.

End LocalZone.

(** X1. A week range made of valid dates is a week of the local calendar: it
    starts on a Monday and ends on the Sunday six days later, and the Monday
    is the one of the week of the date the function starts from, 1 January of
    the year plus 7 days for every week after the first. *)
Theorem getWeekRange_is_a_week (tza year weekNumber s e : Z) :
  getWeekRange tza year weekNumber = mkRange (Some s) (Some e) ->
  exists d,
    newDate tza year 0 (1 + (weekNumber - 1) * 7) = Some d /\
    getDay tza s = 1 /\ getDay tza e = 0 /\
    localDay tza s = mondayOf (localDay tza d) /\
    localDay tza e = localDay tza s + 6 /\
    localDay tza s <= localDay tza d <= localDay tza e.
Proof.
  intros R. destruct (getWeekRange_from_anchor tza year weekNumber s e R)
    as (d & N & Es & Ee).
  exists d. split; [exact N|].
  pose proof (newDate_midnight tza _ _ _ _ N) as L.
  set (A := MakeDay (if (0 <=? year) && (year <=? 99) then 1900 + year else year)
                    0 (1 + (weekNumber - 1) * 7)) in *.
  assert (LD : localDay tza d = A).
  { unfold localDay. rewrite L. replace (A * msPerDay) with (A * msPerDay + 0) by lia.
    apply Day_whole_days. unfold msPerDay; lia. }
  assert (LS : localDay tza s = mondayOf A).
  { rewrite Es, LD.
    replace (d - (A + 3) mod 7 * msPerDay) with (d + (- ((A + 3) mod 7)) * msPerDay)
      by lia.
    rewrite localDay_shift, LD. unfold mondayOf. lia. }
  assert (LE : localDay tza e = mondayOf A + 6).
  { rewrite Ee, localDay_shift, LS. reflexivity. }
  pose proof (Z.mod_pos_bound (A + 3) 7 eq_refl) as B.
  split; [|split; [|split; [|split; [|split]]]].
  - rewrite getDay_localDay, LS. unfold mondayOf. Z.div_mod_to_equations. lia.
  - rewrite getDay_localDay, LE. unfold mondayOf. Z.div_mod_to_equations. lia.
  - rewrite LS, LD. reflexivity.
  - rewrite LE, LS. reflexivity.
  - rewrite LS, LD. unfold mondayOf. lia.
  - rewrite LE, LD. unfold mondayOf. lia.
Qed.

Lemma getWeekRange_is_a_week_witness :
  getWeekRange indochina 2024 10
  = mkRange (Some 1709485200000) (Some 1710003600000) /\
  getDay indochina 1709485200000 = 1.
Proof.
  assert (R : getWeekRange indochina 2024 10
              = mkRange (Some 1709485200000) (Some 1710003600000))
    by (vm_compute; reflexivity).
  split; [exact R|].
  destruct (getWeekRange_is_a_week indochina 2024 10 _ _ R) as (d & _ & M & _).
  exact M.
Defined.

(** X2. The weeks of a year follow one another on the local calendar: the
    range of the week after starts on the seventh day after the start, which
    is the day after the end, of the range of the week. *)
Theorem consecutive_weeks_are_adjacent (tza year weekNumber s e s' e' : Z) :
  getWeekRange tza year weekNumber = mkRange (Some s) (Some e) ->
  getWeekRange tza year (weekNumber + 1) = mkRange (Some s') (Some e') ->
  localDay tza s' = localDay tza s + 7 /\
  localDay tza s' = localDay tza e + 1.
Proof.
  rewrite !getWeekRange_normal. cbv zeta.
  set (yr := if (0 <=? year) && (year <=? 99) then 1900 + year else year).
  replace (DayFromYear yr + 7 * (weekNumber + 1 - 1))
    with (DayFromYear yr + 7 * (weekNumber - 1) + 7) by lia.
  set (A := DayFromYear yr + 7 * (weekNumber - 1)).
  assert (M : mondayOf (A + 7) = mondayOf A + 7)
    by (unfold mondayOf; Z.div_mod_to_equations; lia).
  rewrite M.
  destruct (TimeClip (localMidnight tza A)); [|discriminate].
  destruct (TimeClip (localMidnight tza (mondayOf A))) as [x|] eqn:S; [|discriminate].
  intros E. injection E as -> Ee.
  destruct (TimeClip (localMidnight tza (A + 7))); [|discriminate].
  destruct (TimeClip (localMidnight tza (mondayOf A + 7))) as [x'|] eqn:S';
    [|discriminate].
  intros E'. injection E' as -> _.
  apply TimeClip_some in S, S', Ee. destruct S as [-> _], S' as [-> _], Ee as [-> _].
  rewrite !localDay_localMidnight. lia.
Qed.

Lemma consecutive_weeks_are_adjacent_witness :
  getWeekRange indochina 2024 10
  = mkRange (Some 1709485200000) (Some 1710003600000) /\
  getWeekRange indochina 2024 (10 + 1)
  = mkRange (Some 1710090000000) (Some 1710608400000) /\
  localDay indochina 1710090000000 = localDay indochina 1709485200000 + 7.
Proof.
  assert (R : getWeekRange indochina 2024 10
              = mkRange (Some 1709485200000) (Some 1710003600000))
    by (vm_compute; reflexivity).
  assert (R' : getWeekRange indochina 2024 (10 + 1)
               = mkRange (Some 1710090000000) (Some 1710608400000))
    by (vm_compute; reflexivity).
  split; [exact R|]. split; [exact R'|].
  exact (proj1 (consecutive_weeks_are_adjacent indochina 2024 10 _ _ _ _ R R')).
Defined.

(** The start of each of the weeks 1 to 53 lies in the year or before it, so
    the loop of [getWeeksInYear] never breaks. *)
Lemma week_start_not_past_the_year tza year i s :
  ~ (0 <= year <= 99) -> 1 <= i <= 53 ->
  rstart (getWeekRange tza year i) = Some s ->
  getFullYear tza s <= year.
Proof.
  intros Hy Hi. rewrite getWeekRange_normal. cbv zeta.
  replace ((0 <=? year) && (year <=? 99)) with false
    by (symmetry; apply andb_false_iff; rewrite !Z.leb_gt; lia).
  set (A := DayFromYear year + 7 * (i - 1)).
  destruct (TimeClip (localMidnight tza A)); [|discriminate].
  destruct (TimeClip (localMidnight tza (mondayOf A))) as [x|] eqn:S; [|discriminate].
  cbn [rstart]. intros E. injection E as ->.
  apply TimeClip_some in S. destruct S as [-> _].
  unfold getFullYear, YearFromTime. fold (localDay tza (localMidnight tza (mondayOf A))).
  rewrite localDay_localMidnight. apply YearFromDay_le.
  rewrite DayFromYear_succ.
  assert (365 <= DaysInYear year) by (unfold DaysInYear; destruct (isLeap year); lia).
  unfold mondayOf, A. pose proof (Z.mod_pos_bound (DayFromYear year + 7 * (i - 1) + 3) 7 eq_refl).
  lia.
Qed.

Lemma weeksLoop_runs tza year n : forall k acc,
  ~ (0 <= year <= 99) -> (1 <= k)%nat -> (k + n <= 54)%nat ->
  weeksLoop tza n year (Z.of_nat k) acc
  = acc ++ map (weekEntry tza year) (map Z.of_nat (seq k n)).
Proof.
  induction n as [|n IH]; intros k acc Hy Hk Hn; cbn [weeksLoop seq map].
  - now rewrite app_nil_r.
  - destruct (rstart (getWeekRange tza year (Z.of_nat k))) as [s|] eqn:R.
    + pose proof (week_start_not_past_the_year tza year (Z.of_nat k) s Hy
                    ltac:(lia) R) as L.
      destruct (Z.gtb_spec (getFullYear tza s) year) as [G|_]; [lia|].
      replace (Z.of_nat k + 1) with (Z.of_nat (S k)) by lia.
      rewrite IH by (assumption || lia). rewrite <- app_assoc.
      unfold weekEntry at 2. rewrite R. reflexivity.
    + replace (Z.of_nat k + 1) with (Z.of_nat (S k)) by lia.
      rewrite IH by (assumption || lia). rewrite <- app_assoc.
      unfold weekEntry at 2. rewrite R. reflexivity.
Qed.

(** X3. [getWeeksInYear] gives the 53 weeks numbered 1 to 53, each with the
    range of [getWeekRange], for every year outside 0..99: the test that
    would stop at a week starting after the year never holds.  For a year
    from 0 to 99 (read as 1900 + year by the constructor) and a zone within
    a day of UTC, it gives no week at all. *)
Theorem getWeeksInYear_has_53_weeks (tza year : Z) :
  (~ (0 <= year <= 99) ->
   getWeeksInYear tza year = map (weekEntry tza year) (oneTo 53)) /\
  (0 <= year <= 99 -> Z.abs tza <= msPerDay -> getWeeksInYear tza year = []).
Proof.
  assert (W : forall b : bool,
             Z.to_nat (Math_ceil_div (if b then 366 else 365) 7) = 53%nat)
    by (intros []; reflexivity).
  unfold getWeeksInYear. cbv zeta. rewrite W. split.
  - intros Hy. change 1 with (Z.of_nat 1).
    rewrite (weeksLoop_runs tza year 53 1 []) by (assumption || lia). reflexivity.
  - intros Hy Ht. cbn [weeksLoop]. rewrite getWeekRange_normal. cbv zeta.
    replace ((0 <=? year) && (year <=? 99)) with true
      by (symmetry; apply andb_true_iff; rewrite !Z.leb_le; lia).
    replace (DayFromYear (1900 + year) + 7 * (1 - 1))
      with (DayFromYear (1900 + year)) by lia.
    set (A := DayFromYear (1900 + year)).
    assert (B : -25567 <= A < 10957).
    { assert (E0 : DayFromYear 1900 = -25567) by (vm_compute; reflexivity).
      assert (E1 : DayFromYear 2000 = 10957) by (vm_compute; reflexivity).
      pose proof (DayFromYear_le 1900 (1900 + year) ltac:(lia)).
      pose proof (DayFromYear_lt (1900 + year) 2000 ltac:(lia)).
      unfold A. lia. }
    pose proof (Z.mod_pos_bound (A + 3) 7 eq_refl) as M.
    assert (V : forall dy, -30000 <= dy <= 30000 ->
                TimeClip (localMidnight tza dy) = Some (localMidnight tza dy)).
    { intros dy Hd. unfold TimeClip.
      destruct (Z.leb_spec (Z.abs (localMidnight tza dy)) maxTime) as [_|G];
        [reflexivity|].
      unfold localMidnight, msPerDay, maxTime in *. lia. }
    rewrite (V A) by lia. rewrite (V (mondayOf A)) by (unfold mondayOf; lia).
    cbn [rstart].
    assert (G : year < getFullYear tza (localMidnight tza (mondayOf A))).
    { unfold getFullYear, YearFromTime.
      fold (localDay tza (localMidnight tza (mondayOf A))).
      rewrite localDay_localMidnight.
      assert (E : DayFromYear 1899 = -25932) by (vm_compute; reflexivity).
      assert (1899 <= YearFromDay (mondayOf A))
        by (apply YearFromDay_ge; unfold mondayOf; lia).
      lia. }
    destruct (Z.gtb_spec (getFullYear tza (localMidnight tza (mondayOf A))) year);
      [reflexivity|lia].
Qed.

Lemma getWeeksInYear_has_53_weeks_witness :
  ~ (0 <= 2023 <= 99) /\
  List.length (getWeeksInYear indochina 2023) = 53%nat /\
  0 <= 24 <= 99 /\ Z.abs indochina <= msPerDay /\
  getWeeksInYear indochina 24 = [].
Proof.
  assert (H1 : ~ (0 <= 2023 <= 99)) by lia.
  assert (H2 : 0 <= 24 <= 99) by lia.
  assert (H3 : Z.abs indochina <= msPerDay) by (vm_compute; discriminate).
  split; [exact H1|]. split.
  - rewrite (proj1 (getWeeksInYear_has_53_weeks indochina 2023) H1).
    unfold oneTo. rewrite !length_map, length_seq. reflexivity.
  - split; [exact H2|]. split; [exact H3|].
    exact (proj2 (getWeeksInYear_has_53_weeks indochina 24) H2 H3).
Defined.

Lemma ceil_of_whole_days n :
  Math_ceil_div (n * 86400000 + 86400000) (7 * 86400000) = n / 7 + 1.
Proof. unfold Math_ceil_div. Z.div_mod_to_equations. lia. Qed.

Lemma thursday_of_week L :
  L + 4 - (if (L + 4) mod 7 =? 0 then 7 else (L + 4) mod 7) = mondayOf L + 3.
Proof.
  unfold mondayOf. destruct (Z.eqb_spec ((L + 4) mod 7) 0);
    Z.div_mod_to_equations; lia.
Qed.

(** [getWeekNumber] computed on day numbers: [L] is the local day of the
    date and [Th] the Thursday of its week. *)
Lemma getWeekNumber_normal tza t :
  ~ (0 <= getFullYear tza t <= 99) ->
  let L := localDay tza t in
  let Th := mondayOf L + 3 in
  getWeekNumber tza (Some t)
  = match TimeClip (L * msPerDay) with
    | None => (None, None)
    | Some _ =>
        match TimeClip (Th * msPerDay) with
        | None => (None, None)
        | Some _ =>
            (Some (YearFromDay Th),
             match DateUTC (YearFromDay Th) 0 1 with
             | Some ys =>
                 Some (Math_ceil_div (Th * msPerDay - ys + 86400000) (7 * 86400000))
             | None => None
             end)
        end
    end.
Proof.
  intros Hy. cbv zeta. unfold getWeekNumber.
  set (L := localDay tza t).
  assert (D1 : DateUTC (getFullYear tza t) (getMonth tza t) (getDate tza t)
               = TimeClip (L * msPerDay)).
  { unfold DateUTC.
    replace ((0 <=? getFullYear tza t) && (getFullYear tza t <=? 99)) with false
      by (symmetry; apply andb_false_iff; rewrite !Z.leb_gt; lia).
    f_equal. unfold getFullYear, getMonth, getDate.
    replace (DateFromTime (LocalTime tza t)) with (DateFromTime (LocalTime tza t) + 0)
      by lia.
    rewrite MakeDay_fields. unfold MakeDate, MakeTime, L, localDay. lia. }
  rewrite D1.
  destruct (TimeClip (L * msPerDay)) as [d1|] eqn:T1; [|reflexivity].
  apply TimeClip_some in T1. destruct T1 as [-> _].
  assert (DL : Day (L * msPerDay) = L).
  { replace (L * msPerDay) with (L * msPerDay + 0) by lia.
    apply Day_whole_days. unfold msPerDay; lia. }
  assert (D2 : setUTCDate (L * msPerDay)
                 (getUTCDate (L * msPerDay) + 4
                  - (if getUTCDay (L * msPerDay) =? 0 then 7
                     else getUTCDay (L * msPerDay)))
               = TimeClip ((mondayOf L + 3) * msPerDay)).
  { unfold setUTCDate, getUTCDate, getUTCDay, WeekDay. rewrite DL. f_equal.
    replace (DateFromTime (L * msPerDay) + 4
             - (if (L + 4) mod 7 =? 0 then 7 else (L + 4) mod 7))
      with (DateFromTime (L * msPerDay)
            + (4 - (if (L + 4) mod 7 =? 0 then 7 else (L + 4) mod 7))) by lia.
    rewrite MakeDay_fields, DL, TimeWithinDay_whole_days.
    rewrite <- thursday_of_week. unfold MakeDate. lia. }
  rewrite D2.
  destruct (TimeClip ((mondayOf L + 3) * msPerDay)) as [d2|] eqn:T2; [|reflexivity].
  apply TimeClip_some in T2. destruct T2 as [-> _].
  unfold getUTCFullYear, YearFromTime.
  replace (Day ((mondayOf L + 3) * msPerDay)) with (mondayOf L + 3).
  2:{ replace ((mondayOf L + 3) * msPerDay) with ((mondayOf L + 3) * msPerDay + 0)
        by lia.
      symmetry. apply Day_whole_days. unfold msPerDay; lia. }
  reflexivity.
Qed.

(** X4. [getWeekNumber] follows the ISO rule on the local calendar: the year
    is the year of the Thursday of the Monday-to-Sunday week of the date, and
    the week number is one more than the number of whole weeks from
    1 January of that year to that Thursday.  So the week number lies
    between 1 and 53, the year is the calendar year of the date or a
    neighbour of it, and the seven days of a week get the same pair.  (Both
    years are taken outside 0..99, where [Date.UTC] reads 1900 + year.) *)
Theorem getWeekNumber_iso (tza t y w : Z) :
  getWeekNumber tza (Some t) = (Some y, Some w) ->
  ~ (0 <= getFullYear tza t <= 99) -> ~ (0 <= y <= 99) ->
  let Th := mondayOf (localDay tza t) + 3 in
  y = YearFromDay Th /\
  w = (Th - DayFromYear y) / 7 + 1 /\
  1 <= w <= 53 /\
  getFullYear tza t - 1 <= y <= getFullYear tza t + 1.
Proof.
  intros G HY Hy. cbv zeta. rewrite getWeekNumber_normal in G by assumption.
  cbv zeta in G. set (L := localDay tza t) in *. set (Th := mondayOf L + 3) in *.
  destruct (TimeClip (L * msPerDay)); [|discriminate].
  destruct (TimeClip (Th * msPerDay)); [|discriminate].
  injection G as Ey Ew. subst y.
  unfold DateUTC in Ew.
  replace ((0 <=? YearFromDay Th) && (YearFromDay Th <=? 99)) with false in Ew
    by (symmetry; apply andb_false_iff; rewrite !Z.leb_gt; lia).
  rewrite MakeDay_january in Ew.
  destruct (TimeClip (MakeDate (DayFromYear (YearFromDay Th) + 1 - 1)
                               (MakeTime 0 0 0 0))) as [ys|] eqn:T; [|discriminate].
  apply TimeClip_some in T. destruct T as [-> _]. injection Ew as Ew.
  replace (Th * msPerDay
           - MakeDate (DayFromYear (YearFromDay Th) + 1 - 1) (MakeTime 0 0 0 0)
           + 86400000)
    with ((Th - DayFromYear (YearFromDay Th)) * 86400000 + 86400000) in Ew
    by (unfold MakeDate, MakeTime, msPerDay; lia).
  rewrite ceil_of_whole_days in Ew. subst w.
  pose proof (YearFromDay_spec Th) as S. rewrite DayFromYear_succ in S.
  assert (DaysInYear (YearFromDay Th) <= 366)
    by (unfold DaysInYear; destruct (isLeap (YearFromDay Th)); lia).
  split; [reflexivity|]. split; [reflexivity|]. split.
  - Z.div_mod_to_equations. lia.
  - pose proof (YearFromDay_spec L) as SL. rewrite DayFromYear_succ in SL.
    assert (YL : getFullYear tza t = YearFromDay L) by reflexivity.
    rewrite YL.
    assert (TL : L - 3 <= Th <= L + 3)
      by (unfold Th, mondayOf; pose proof (Z.mod_pos_bound (L + 3) 7 eq_refl); lia).
    split.
    + apply YearFromDay_ge.
      pose proof (DayFromYear_succ (YearFromDay L - 1)) as P.
      replace (YearFromDay L - 1 + 1) with (YearFromDay L) in P by lia.
      assert (365 <= DaysInYear (YearFromDay L - 1))
        by (unfold DaysInYear; destruct (isLeap (YearFromDay L - 1)); lia).
      lia.
    + apply YearFromDay_le.
      pose proof (DayFromYear_succ (YearFromDay L + 1)) as P.
      pose proof (DayFromYear_succ (YearFromDay L)) as P0.
      assert (365 <= DaysInYear (YearFromDay L + 1))
        by (unfold DaysInYear; destruct (isLeap (YearFromDay L + 1)); lia).
      lia.
Qed.

Lemma getWeekNumber_iso_witness :
  getWeekNumber indochina (Some 1735516800000) = (Some 2025, Some 1) /\
  getFullYear indochina 1735516800000 - 1 <= 2025
  <= getFullYear indochina 1735516800000 + 1.
Proof.
  assert (G : getWeekNumber indochina (Some 1735516800000) = (Some 2025, Some 1))
    by (vm_compute; reflexivity).
  assert (H1 : ~ (0 <= getFullYear indochina 1735516800000 <= 99))
    by (vm_compute; intros [_ H]; apply H; reflexivity).
  assert (H2 : ~ (0 <= 2025 <= 99)) by lia.
  split; [exact G|].
  exact (proj2 (proj2 (proj2 (getWeekNumber_iso indochina 1735516800000 2025 1
                                G H1 H2)))).
Defined.

End WeekFacts.

(** ** The filter the application starts with *)

Module InitialFilterFacts.
Import JSDate DateUtils DateUtilsMore App AppMore Props PropsMore Samples.
Import CalendarFacts WeekFacts.

#[local] Opaque climbYear YearFromDay DayFromYear.

Lemma TimeClip_ok x : Z.abs x <= maxTime -> TimeClip x = Some x.
Proof.
  intros H. unfold TimeClip. destruct (Z.leb_spec (Z.abs x) maxTime); [reflexivity|lia].
Qed.

(** Whether the week of the day [J + 7 * ((Th - Jy) / 7)] is the week of the
    day [L], when [Th] is the Thursday of the week of [L], [J] the first day
    of the year of [L] and [Jy] the first day of the year of [Th]. *)
Lemma same_year_week J L n :
  J <= L < J + n -> J <= mondayOf L + 3 ->
  (mondayOf (J + 7 * ((mondayOf L + 3 - J) / 7 + 1 - 1)) = mondayOf L
   <-> 1 <= (J + 4) mod 7 <= 4).
Proof. unfold mondayOf. intros H1 H2. split; intros H; Z.div_mod_to_equations; lia. Qed.

Lemma next_year_week J L n :
  365 <= n -> J <= L < J + n -> J + n <= mondayOf L + 3 ->
  mondayOf (J + 7 * ((mondayOf L + 3 - (J + n)) / 7 + 1 - 1)) <> mondayOf L.
Proof. unfold mondayOf. intros H0 H1 H2. Z.div_mod_to_equations. lia. Qed.

Lemma previous_year_week J L n :
  365 <= n -> J <= L -> mondayOf L + 3 < J ->
  mondayOf (J + 7 * ((mondayOf L + 3 - (J - n)) / 7 + 1 - 1)) <> mondayOf L.
Proof. unfold mondayOf. intros H0 H1 H2. Z.div_mod_to_equations. lia. Qed.

Lemma in_week_iff_same_monday A L :
  mondayOf A <= L <= mondayOf A + 6 <-> mondayOf A = mondayOf L.
Proof. unfold mondayOf. split; intros H; Z.div_mod_to_equations; lia. Qed.

Lemma thursday_year L :
  YearFromDay L - 1 <= YearFromDay (mondayOf L + 3) <= YearFromDay L + 1.
Proof.
  pose proof (YearFromDay_spec L) as SL.
  pose proof (DayFromYear_succ (YearFromDay L)) as P0.
  pose proof (DayFromYear_succ (YearFromDay L + 1)) as P1.
  pose proof (DayFromYear_succ (YearFromDay L - 1)) as P2.
  replace (YearFromDay L - 1 + 1) with (YearFromDay L) in P2 by lia.
  assert (365 <= DaysInYear (YearFromDay L - 1))
    by (unfold DaysInYear; destruct (isLeap (YearFromDay L - 1)); lia).
  assert (365 <= DaysInYear (YearFromDay L + 1))
    by (unfold DaysInYear; destruct (isLeap (YearFromDay L + 1)); lia).
  assert (TL : L - 3 <= mondayOf L + 3 <= L + 3)
    by (unfold mondayOf; pose proof (Z.mod_pos_bound (L + 3) 7 eq_refl); lia).
  split; [apply YearFromDay_ge | apply YearFromDay_le]; lia.
Qed.

Lemma midnight_le_iff tza a t :
  localMidnight tza a <= t <-> a <= localDay tza t.
Proof.
  unfold localMidnight, localDay, LocalTime, Day, msPerDay.
  split; intros H; Z.div_mod_to_equations; lia.
Qed.

(** X5. The filter the application starts with is the week filter of the
    calendar year of the current date and of the ISO week number of that
    date, which [getWeekRange] reads as "the week of 1 January plus 7 days
    per week".  For a current date in a year from 1000 to 9999 (and a zone
    within a day of UTC), the current date passes this filter exactly when
    its ISO year is its calendar year and 1 January of that year falls on a
    Monday, Tuesday, Wednesday or Thursday. *)
Theorem initial_filter_holds_today (tza now : Z) :
  1000 <= getFullYear tza now <= 9999 -> Z.abs tza <= msPerDay ->
  (isDateInFilter tza (Some now) (initialFilter tza now) = true <->
   fst (getWeekNumber tza (Some now)) = Some (getFullYear tza now) /\
   exists j, newDate tza (getFullYear tza now) 0 1 = Some j /\
             1 <= getDay tza j <= 4).
Proof.
  intros HY Ht.
  assert (E1 : DayFromYear 999 = -354650) by (vm_compute; reflexivity).
  assert (E2 : DayFromYear 10001 = 2933263) by (vm_compute; reflexivity).
  set (L := localDay tza now).
  assert (YL : getFullYear tza now = YearFromDay L) by reflexivity.
  rewrite YL in *. set (Y := YearFromDay L) in *.
  pose proof (YearFromDay_spec L) as SL. fold Y in SL.
  rewrite DayFromYear_succ in SL.
  set (J := DayFromYear Y) in *. set (n := DaysInYear Y) in *.
  assert (Hn : 365 <= n <= 366) by (unfold n, DaysInYear; destruct (isLeap Y); lia).
  pose proof (thursday_year L) as TY. fold Y in TY.
  set (Th := mondayOf L + 3) in *. set (y := YearFromDay Th) in *.
  assert (TL : L - 3 <= Th <= L + 3)
    by (unfold Th, mondayOf; pose proof (Z.mod_pos_bound (L + 3) 7 eq_refl); lia).
  pose proof (YearFromDay_spec Th) as ST. fold y in ST.
  rewrite DayFromYear_succ in ST. set (Jy := DayFromYear y) in *.
  assert (Hm : 365 <= DaysInYear y <= 366)
    by (unfold DaysInYear; destruct (isLeap y); lia).
  (* every day number at hand is small *)
  assert (BJ : -354650 <= J /\ J + n <= 2933263).
  { pose proof (DayFromYear_le 999 Y ltac:(lia)).
    pose proof (DayFromYear_le (Y + 1) 10001 ltac:(lia)) as U.
    rewrite DayFromYear_succ in U. fold J n in U. unfold J. lia. }
  assert (V : forall dy off, -400000 <= dy <= 3000000 ->
              Z.abs off <= 2 * msPerDay ->
              TimeClip (dy * msPerDay + off) = Some (dy * msPerDay + off)).
  { intros dy off Hd Ho. apply TimeClip_ok. unfold msPerDay, maxTime in *. lia. }
  (* the week number *)
  assert (G : getWeekNumber tza (Some now) = (Some y, Some ((Th - Jy) / 7 + 1))).
  { rewrite getWeekNumber_normal by (rewrite YL; fold Y; lia). cbv zeta.
    fold L Th y.
    replace (L * msPerDay) with (L * msPerDay + 0) by lia.
    rewrite V by (unfold msPerDay; lia).
    replace (Th * msPerDay) with (Th * msPerDay + 0) at 1 by lia.
    rewrite V by (unfold msPerDay; lia).
    unfold DateUTC.
    replace ((0 <=? y) && (y <=? 99)) with false
      by (symmetry; apply andb_false_iff; rewrite !Z.leb_gt; lia).
    rewrite MakeDay_january. fold Jy.
    replace (MakeDate (Jy + 1 - 1) (MakeTime 0 0 0 0)) with (Jy * msPerDay + 0)
      by (unfold MakeDate, MakeTime; lia).
    rewrite V by (unfold msPerDay; lia).
    replace (Th * msPerDay - (Jy * msPerDay + 0) + 86400000)
      with ((Th - Jy) * 86400000 + 86400000) by (unfold msPerDay; lia).
    rewrite ceil_of_whole_days. reflexivity. }
  set (w := (Th - Jy) / 7 + 1) in *.
  assert (Hw : 1 <= w <= 53) by (unfold w; Z.div_mod_to_equations; lia).
  (* 1 January *)
  assert (NJ : newDate tza Y 0 1 = Some (localMidnight tza J)).
  { unfold newDate.
    replace ((0 <=? Y) && (Y <=? 99)) with false
      by (symmetry; apply andb_false_iff; rewrite !Z.leb_gt; lia).
    rewrite MakeDay_january. fold J.
    replace (UTC tza (MakeDate (J + 1 - 1) (MakeTime 0 0 0 0)))
      with (J * msPerDay + - tza)
      by (unfold UTC, MakeDate, MakeTime; lia).
    rewrite V by (unfold msPerDay in *; lia).
    f_equal; try (unfold localMidnight; lia). }
  (* the filter *)
  unfold initialFilter. rewrite G. cbn [fst snd]. rewrite YL. fold Y.
  unfold isDateInFilter. cbn [ftype fweek fyear].
  destruct (Z.eqb_spec w 0) as [W0|_]; [lia|].
  rewrite getWeekRange_normal. cbv zeta.
  replace ((0 <=? Y) && (Y <=? 99)) with false
    by (symmetry; apply andb_false_iff; rewrite !Z.leb_gt; lia).
  fold J. set (A := J + 7 * (w - 1)).
  assert (HA : J <= A <= J + 364) by (unfold A; lia).
  assert (HM : A - 6 <= mondayOf A <= A)
    by (unfold mondayOf; pose proof (Z.mod_pos_bound (A + 3) 7 eq_refl); lia).
  assert (VM : forall dy, -400000 <= dy <= 3000000 ->
               TimeClip (localMidnight tza dy) = Some (localMidnight tza dy)).
  { intros dy Hd. unfold localMidnight.
    replace (dy * msPerDay - tza) with (dy * msPerDay + - tza) by lia.
    apply V; [assumption | unfold msPerDay in *; lia]. }
  rewrite !VM by lia. cbn [rstart rend].
  rewrite setHours_end_of_day.
  assert (EOD : endOfLocalDay tza (localMidnight tza (mondayOf A + 6))
                = (mondayOf A + 7) * msPerDay + (- 1 - tza)).
  { unfold endOfLocalDay. fold (localDay tza (localMidnight tza (mondayOf A + 6))).
    rewrite localDay_localMidnight. lia. }
  assert (VE : TimeClip (endOfLocalDay tza (localMidnight tza (mondayOf A + 6)))
               = Some (endOfLocalDay tza (localMidnight tza (mondayOf A + 6)))).
  { rewrite EOD. apply V; [lia | unfold msPerDay in *; lia]. }
  rewrite VE. unfold date_ge, date_le.
  rewrite andb_true_iff, !Z.leb_le, midnight_le_iff, endOfLocalDay_last.
  fold (localDay tza now) (localDay tza (localMidnight tza (mondayOf A + 6))).
  rewrite localDay_localMidnight. fold L.
  rewrite in_week_iff_same_monday.
  assert (GJ : getDay tza (localMidnight tza J) = (J + 4) mod 7).
  { rewrite getDay_localDay, localDay_localMidnight. reflexivity. }
  unfold A, w.
  destruct (Z.eq_dec y Y) as [Ey|Ny].
  - (* the Thursday lies in the calendar year *)
    assert (EJ : Jy = J) by (unfold Jy, J; now rewrite Ey).
    rewrite EJ. rewrite EJ in ST. unfold Th.
    rewrite (same_year_week J L n) by (unfold Th in *; lia).
    split.
    + intros H. split; [now rewrite Ey|].
      exists (localMidnight tza J). rewrite GJ. split; [exact NJ|exact H].
    + intros [_ (j & Ej & H)]. rewrite NJ in Ej. injection Ej as <-.
      rewrite GJ in H. exact H.
  - split; [|intros [E _]; injection E as E; contradiction].
    intros H. exfalso.
    destruct (Z.eq_dec y (Y + 1)) as [Ey|Ny'].
    + assert (EJ : Jy = J + n).
      { unfold Jy. rewrite Ey, DayFromYear_succ. reflexivity. }
      rewrite EJ in H, ST. unfold Th in H.
      apply (next_year_week J L n); [lia | lia | unfold Th in *; lia | exact H].
    + assert (Ey : y = Y - 1) by lia.
      assert (EJ : Jy = J - DaysInYear (Y - 1)).
      { unfold Jy, J. rewrite Ey.
        pose proof (DayFromYear_succ (Y - 1)) as P.
        replace (Y - 1 + 1) with Y in P by lia. lia. }
      rewrite EJ in H, ST. rewrite Ey in Hm, ST. unfold Th in H.
      apply (previous_year_week J L (DaysInYear (Y - 1)));
        [lia | lia | unfold Th in *; lia | exact H].
Qed.

Lemma initial_filter_holds_today_witness :
  1000 <= getFullYear indochina 1718236800000 <= 9999 /\
  Z.abs indochina <= msPerDay /\
  isDateInFilter indochina (Some 1718236800000)
                 (initialFilter indochina 1718236800000) = true.
Proof.
  assert (H1 : 1000 <= getFullYear indochina 1718236800000 <= 9999)
    by (vm_compute; split; discriminate).
  assert (H2 : Z.abs indochina <= msPerDay) by (vm_compute; discriminate).
  split; [exact H1|]. split; [exact H2|].
  apply (proj2 (initial_filter_holds_today indochina 1718236800000 H1 H2)).
  split; [vm_compute; reflexivity|].
  exists 1704042000000. split; [vm_compute; reflexivity|].
  vm_compute. split; discriminate.
Defined.

(** In 2023, a year that began on a Sunday, the filter the application
    starts with leaves out the current date. *)
Example initial_filter_in_2023 :
  isDateInFilter indochina (Some 1686787200000)
                 (initialFilter indochina 1686787200000) = false /\
  initialFilter indochina 1686787200000 = mkFilter FWeek 2023 None (Some 24).
Proof. split; vm_compute; reflexivity. Qed.

(** A date that passes a week filter lies in the week of the day
    "1 January plus 7 days per week after the first". *)
Lemma week_filter_days tza t year month w :
  w <> 0 ->
  isDateInFilter tza (Some t) (mkFilter FWeek year month (Some w)) = true ->
  mondayOf (DayFromYear (if (0 <=? year) && (year <=? 99) then 1900 + year else year)
            + 7 * (w - 1))
  = mondayOf (localDay tza t).
Proof.
  intros W. unfold isDateInFilter. cbn [ftype fweek fyear].
  destruct (Z.eqb_spec w 0) as [E|_]; [contradiction|].
  rewrite getWeekRange_normal. cbv zeta.
  set (A := DayFromYear (if (0 <=? year) && (year <=? 99) then 1900 + year else year)
            + 7 * (w - 1)).
  destruct (TimeClip (localMidnight tza A)); [|discriminate].
  destruct (TimeClip (localMidnight tza (mondayOf A))) as [s|] eqn:S; [|discriminate].
  cbn [rstart rend].
  destruct (TimeClip (localMidnight tza (mondayOf A + 6))) as [e|] eqn:E;
    [|cbn; rewrite andb_false_r; discriminate].
  rewrite setHours_end_of_day.
  destruct (TimeClip (endOfLocalDay tza e)) as [x|] eqn:X;
    [|cbn; rewrite andb_false_r; discriminate].
  unfold date_ge, date_le. rewrite andb_true_iff, !Z.leb_le. intros [H1 H2].
  apply TimeClip_some in S, E, X. destruct S as [-> _], E as [-> _], X as [-> _].
  apply midnight_le_iff in H1. apply endOfLocalDay_last in H2.
  fold (localDay tza t) (localDay tza (localMidnight tza (mondayOf A + 6))) in H2.
  rewrite localDay_localMidnight in H2.
  apply in_week_iff_same_monday. lia.
Qed.

(** X6. The week filters of one year do not overlap: a date that passes the
    week filter of two week numbers (other than 0) of the same year passes it
    for one and the same number. *)
Theorem week_filters_of_a_year_are_disjoint (tza : Z) (d : Date) (year : Z)
    (month month' : option Z) (w w' : Z) :
  w <> 0 -> w' <> 0 ->
  isDateInFilter tza d (mkFilter FWeek year month (Some w)) = true ->
  isDateInFilter tza d (mkFilter FWeek year month' (Some w')) = true ->
  w = w'.
Proof.
  intros W W' H H'. destruct d as [t|].
  - apply week_filter_days in H, H'; try assumption.
    rewrite <- H' in H. revert H.
    generalize (DayFromYear (if (0 <=? year) && (year <=? 99)
                             then 1900 + year else year)) as J.
    intros J. unfold mondayOf. intros H. Z.div_mod_to_equations. lia.
  - exfalso. revert H. unfold isDateInFilter. cbn [ftype fweek fyear].
    destruct (w =? 0); [discriminate|].
    unfold date_ge, date_le. cbn.
    destruct (rstart (getWeekRange tza year w)); discriminate.
Qed.

Lemma week_filters_of_a_year_are_disjoint_witness :
  10 <> 0 /\
  isDateInFilter indochina (Some 1709600000000)
                 (mkFilter FWeek 2024 None (Some 10)) = true /\
  10 = 10.
Proof.
  assert (W : 10 <> 0) by discriminate.
  assert (H : isDateInFilter indochina (Some 1709600000000)
                (mkFilter FWeek 2024 None (Some 10)) = true)
    by (vm_compute; reflexivity).
  split; [exact W|]. split; [exact H|].
  exact (week_filters_of_a_year_are_disjoint indochina (Some 1709600000000)
           2024 None None 10 10 W W H H).
Defined.

End InitialFilterFacts.
(** ** Numbers of days and of weeks between two dates *)

Module BetweenFacts.
Import JSDate JSNumber DateUtils DateUtilsMore App AppMore Props PropsMore Samples.
Import NumberFacts.

Lemma oneDay_is_whole :
  jsMul (jsMul (jsMul (ofZ 1000) (ofZ 60)) (ofZ 60)) (ofZ 24) = ofZ 86400000.
Proof. vm_compute. reflexivity. Qed.

Lemma oneWeek_is_whole :
  jsMul (jsMul (jsMul (jsMul (ofZ 7) (ofZ 24)) (ofZ 60)) (ofZ 60)) (ofZ 1000)
  = ofZ 604800000.
Proof. vm_compute. reflexivity. Qed.

(** The quotient of [daysBetween] is rounded twice, to a double and then to
    an integer; for dates less than 2^51 milliseconds apart (some 71000
    years) the result is the integer that [DateUtils.daysBetween] computes
    on the integers. *)
Lemma daysBetween_on_integers (t1 t2 : Z) :
  Z.abs (t1 - t2) <= 2 ^ 51 ->
  Doubles.daysBetween (Some t1) (Some t2)
  = ofZ (Math_round_div (Z.abs (t1 - t2)) 86400000).
Proof.
  intros B. change (2 ^ 51) with 2251799813685248 in B.
  unfold Doubles.daysBetween, Doubles.getTime. cbv zeta.
  rewrite oneDay_is_whole.
  rewrite jsSub_Z by (change (2 ^ 53) with 9007199254740992; lia).
  rewrite Math_abs_Z.
  apply (Math_round_jsDiv _ _ (-28)); [lia|vm_compute; discriminate|lia|].
  change (86400000 * 2 ^ (-28 + 53)) with 2899102924800000. lia.
Qed.

Lemma weeksBetween_on_integers (t1 t2 : Z) :
  Z.abs (t2 - t1) <= 2 ^ 51 ->
  Doubles.weeksBetween (Some t1) (Some t2)
  = ofZ (Math_round_div (t2 - t1) 604800000).
Proof.
  intros B. change (2 ^ 51) with 2251799813685248 in B.
  unfold Doubles.weeksBetween, Doubles.getTime.
  rewrite oneWeek_is_whole.
  rewrite jsSub_Z by (change (2 ^ 53) with 9007199254740992; lia).
  apply (Math_round_jsDiv _ _ (-31)); [lia|vm_compute; discriminate|lia|].
  change (604800000 * 2 ^ (-31 + 53)) with 2536715059200000. lia.
Qed.

(** X7. [daysBetween], for two valid dates less than 2^51 milliseconds
    apart, does not look at the order of its dates: it is symmetric and
    never negative, a whole number within half a day of the distance between
    the dates, and exact on a whole number of days, whichever date comes
    first; it is the number that [DateUtils.daysBetween] computes on the
    integers.  An invalid date gives NaN. *)
Theorem daysBetween_is_a_distance (t1 t2 : Z) :
  Z.abs t1 <= maxTime -> Z.abs t2 <= maxTime -> Z.abs (t1 - t2) <= 2 ^ 51 ->
  Doubles.daysBetween (Some t1) (Some t2) = Doubles.daysBetween (Some t2) (Some t1) /\
  (exists n, Doubles.daysBetween (Some t1) (Some t2) = ofZ n /\
             daysBetween (Some t1) (Some t2) = Some n /\
             0 <= n /\
             2 * Z.abs (n * msPerDay - Z.abs (t1 - t2)) <= msPerDay /\
             (forall k, t2 = t1 + k * msPerDay -> n = Z.abs k)) /\
  Doubles.daysBetween None (Some t2) = NaN /\
  Doubles.daysBetween (Some t1) None = NaN.
Proof.
  intros _ _ B.
  assert (B' : Z.abs (t2 - t1) <= 2 ^ 51) by lia.
  split; [|split; [|split; reflexivity]].
  - rewrite !daysBetween_on_integers by assumption. do 2 f_equal. lia.
  - eexists. split; [apply daysBetween_on_integers; exact B|].
    split; [reflexivity|].
    unfold Math_round_div, msPerDay.
    repeat split.
    + Z.div_mod_to_equations. lia.
    + Z.div_mod_to_equations. lia.
    + intros k ->. Z.div_mod_to_equations. lia.
Qed.

Lemma daysBetween_is_a_distance_witness :
  Z.abs 1704067200000 <= maxTime /\ Z.abs 1709251200000 <= maxTime /\
  Z.abs (1704067200000 - 1709251200000) <= 2 ^ 51 /\
  Doubles.daysBetween (Some 1704067200000) (Some 1709251200000)
  = Doubles.daysBetween (Some 1709251200000) (Some 1704067200000).
Proof.
  assert (A : Z.abs 1704067200000 <= maxTime) by (vm_compute; discriminate).
  assert (B : Z.abs 1709251200000 <= maxTime) by (vm_compute; discriminate).
  assert (C : Z.abs (1704067200000 - 1709251200000) <= 2 ^ 51)
    by (vm_compute; discriminate).
  split; [exact A|]. split; [exact B|]. split; [exact C|].
  exact (proj1 (daysBetween_is_a_distance 1704067200000 1709251200000 A B C)).
Defined.

(** X8. [weeksBetween], for two valid dates less than 2^51 milliseconds
    apart, is a whole number, signed and exact on a whole number of weeks.
    Swapping the dates changes the sign, except when the dates are an odd
    number of half weeks apart: both roundings then go up and the two
    results add up to 1. *)
Theorem weeksBetween_signed (t1 t2 : Z) :
  Z.abs t1 <= maxTime -> Z.abs t2 <= maxTime -> Z.abs (t2 - t1) <= 2 ^ 51 ->
  exists n m,
    Doubles.weeksBetween (Some t1) (Some t2) = ofZ n /\
    Doubles.weeksBetween (Some t2) (Some t1) = ofZ m /\
    (forall k, t2 = t1 + k * (7 * msPerDay) -> n = k) /\
    2 * Z.abs (n * (7 * msPerDay) - (t2 - t1)) <= 7 * msPerDay /\
    ((t2 - t1) mod (7 * msPerDay) <> 302400000 -> n + m = 0) /\
    ((t2 - t1) mod (7 * msPerDay) = 302400000 -> n + m = 1).
Proof.
  intros _ _ B.
  assert (B' : Z.abs (t1 - t2) <= 2 ^ 51) by lia.
  do 2 eexists.
  split; [apply weeksBetween_on_integers; exact B|].
  split; [apply weeksBetween_on_integers; exact B'|].
  unfold Math_round_div, msPerDay.
  change (7 * 86400000) with 604800000.
  repeat split.
  - intros k ->. Z.div_mod_to_equations. lia.
  - Z.div_mod_to_equations. lia.
  - intros H. Z.div_mod_to_equations. lia.
  - intros H. Z.div_mod_to_equations. lia.
Qed.

Lemma weeksBetween_signed_witness :
  Z.abs 1704067200000 <= maxTime /\ Z.abs 1709251200000 <= maxTime /\
  Z.abs (1709251200000 - 1704067200000) <= 2 ^ 51 /\
  exists n m,
    Doubles.weeksBetween (Some 1704067200000) (Some 1709251200000) = ofZ n /\
    Doubles.weeksBetween (Some 1709251200000) (Some 1704067200000) = ofZ m /\
    n + m = 0.
Proof.
  assert (A : Z.abs 1704067200000 <= maxTime) by (vm_compute; discriminate).
  assert (B : Z.abs 1709251200000 <= maxTime) by (vm_compute; discriminate).
  assert (C : Z.abs (1709251200000 - 1704067200000) <= 2 ^ 51)
    by (vm_compute; discriminate).
  split; [exact A|]. split; [exact B|]. split; [exact C|].
  destruct (weeksBetween_signed 1704067200000 1709251200000 A B C)
    as (n & m & En & Em & _ & _ & S & _).
  exists n, m. split; [exact En|]. split; [exact Em|].
  apply S. vm_compute. discriminate.
Defined.

(** Beyond that distance the two roundings can differ from the one of the
    integers: these two time values are 115740741.5 days apart less one
    millisecond, their difference is not a double, and the code finds
    115740742 days where the nearest whole number is 115740741. *)
Example daysBetween_of_far_dates :
  Doubles.daysBetween (Some 5000000032800000) (Some (-5000000032799999))
  = ofZ 115740742 /\
  daysBetween (Some 5000000032800000) (Some (-5000000032799999))
  = Some 115740741.
Proof. split; vm_compute; reflexivity. Qed.

End BetweenFacts.

(** ** The status line of a debt, and the totals of the dashboard *)

Module StatusFacts.
Import JSDate JSNumber DateUtils DateUtilsMore App AppMore Props PropsMore Samples.
Import CalendarFacts NumberFacts AggregationFacts LedgerFacts.

#[local] Opaque climbYear YearFromDay DayFromYear.

(** X9. The status of a [DebtItem] whose due date is valid goes by whole
    days of lateness, [late = today - dueDate]: red from one full day late
    on, with the number of full days in the text; orange from three days
    before the due date up to one day after it; green before that.  The
    badge [isOverdue] goes by the instant: a debt with a balance that is
    late by less than a day is overdue and yet labelled as having 0 days
    left. *)
Theorem status_bands (today : Z) (debt : Debt) (due : Z) :
  dueDate debt = Some due ->
  let late := today - due in
  (fst (status today debt) = red <-> msPerDay <= late) /\
  (fst (status today debt) = orange <-> - 3 * msPerDay <= late < msPerDay) /\
  (fst (status today debt) = green <-> late < - 3 * msPerDay) /\
  (msPerDay <= late ->
   snd (status today debt)
   = ("Quá hạn " ++ toString (late / msPerDay) ++ " ngày")%string) /\
  (isOverdue today debt = true <->
   0 < late /\ amountPaid debt < totalAmount debt) /\
  (0 < late < msPerDay ->
   status today debt = (orange, "Gấp! Còn 0 ngày"%string)).
Proof.
  intros H late. unfold status, daysLeft, isOverdue, date_gt. rewrite H.
  change (1000 * 60 * 60 * 24) with 86400000.
  pose proof (Math_ceil_div_spec (due - today) 86400000 eq_refl) as C.
  assert (A : msPerDay <= late ->
              Z.abs (Math_ceil_div (due - today) 86400000) = late / msPerDay).
  { intros L. unfold Math_ceil_div, late, msPerDay in *.
    replace (- (due - today)) with (today - due) by lia.
    assert (0 <= (today - due) / 86400000)
      by (apply Z.div_pos; lia).
    lia. }
  remember (Math_ceil_div (due - today) 86400000) as n eqn:En.
  unfold msPerDay in *. subst late.
  destruct (Z.ltb_spec n 0) as [N0|N0];
    [|destruct (Z.leb_spec n 3) as [N3|N3]]; cbn [fst snd].
  - split; [split; [intros _; lia|reflexivity]|].
    split; [split; [discriminate|lia]|].
    split; [split; [discriminate|lia]|].
    split; [intros L; rewrite (A L); reflexivity|].
    split; [rewrite andb_true_iff, !Z.gtb_lt; lia|lia].
  - split; [split; [discriminate|lia]|].
    split; [split; [intros _; lia|reflexivity]|].
    split; [split; [discriminate|lia]|].
    split; [lia|].
    split; [rewrite andb_true_iff, !Z.gtb_lt; lia|].
    intros L. replace n with 0 by lia. reflexivity.
  - split; [split; [discriminate|lia]|].
    split; [split; [discriminate|lia]|].
    split; [split; [intros _; lia|reflexivity]|].
    split; [lia|].
    split; [rewrite andb_true_iff, !Z.gtb_lt; lia|lia].
Qed.

Lemma status_bands_witness :
  dueDate (owes700 10) = Some (10 * msPerDay) /\
  status (10 * msPerDay + 1) (owes700 10) = (orange, "Gấp! Còn 0 ngày"%string) /\
  isOverdue (10 * msPerDay + 1) (owes700 10) = true.
Proof.
  assert (H : dueDate (owes700 10) = Some (10 * msPerDay)) by reflexivity.
  pose proof (status_bands (10 * msPerDay + 1) (owes700 10) (10 * msPerDay) H)
    as (_ & _ & _ & _ & O & Z0).
  split; [exact H|]. split.
  - apply Z0. vm_compute. split; reflexivity.
  - apply O. vm_compute. split; reflexivity.
Defined.

(** *** The weekly contribution *)













(** *** The days off *)

Lemma totalRemainingOf_pos l :
  Forall wholeActive l ->
  0 <= totalRemainingOf l /\ (l <> [] -> 0 < totalRemainingOf l).
Proof.
  induction 1 as [|d l (_ & _ & R) _ IH]; [cbn; split; [lia|congruence]|].
  unfold totalRemainingOf in *. cbn [fold_right]. destruct IH as [I1 _].
  split; [lia|intros _; lia].
Qed.

(** The sum of what remains on active debts that hold whole amounts is
    exact as long as it is at most 2^53. *)
Lemma totalDebtRemaining_fold l : forall a,
  Forall wholeActive l -> 0 <= a -> a + totalRemainingOf l <= 2 ^ 53 ->
  fold_left (fun sum d =>
               jsAdd sum (jsSub (Doubles.totalAmount d) (Doubles.amountPaid d)))
            l (ofZ a)
  = ofZ (a + totalRemainingOf l).
Proof.
  change (2 ^ 53) with 9007199254740992.
  induction l as [|d l IH]; intros a F Ha B; cbn [fold_left].
  - f_equal. cbn. lia.
  - inversion F as [|? ? (Wt & Wp & R) F']; subst.
    pose proof (totalRemainingOf_pos l F') as [N _].
    assert (C : totalRemainingOf (d :: l)
                = wholeOf (Doubles.totalAmount d) - wholeOf (Doubles.amountPaid d)
                  + totalRemainingOf l) by reflexivity.
    rewrite C in B. rewrite Wt, Wp.
    rewrite jsSub_Z by (change (2 ^ 53) with 9007199254740992; lia).
    rewrite jsAdd_Z by (change (2 ^ 53) with 9007199254740992; lia).
    rewrite IH by (try assumption; lia). rewrite C. f_equal. lia.
Qed.

(** The three roundings of [Math.floor(surplus / dailySpending)], each
    within 2^-53, put the quotient within 2^-51 of the exact one. *)
Lemma quotient_upper (e r x s d A B : Q) :
  (0 < e)%Q -> (e <= 1 # 5)%Q -> (0 < A)%Q -> (0 < B)%Q -> (0 < d)%Q -> (0 <= r)%Q ->
  (x * d == s)%Q -> (r <= (1 + e) * x)%Q -> (s <= (1 + e) * A)%Q ->
  ((1 - e) * B <= d)%Q ->
  (r * B <= (1 + 4 * e) * A)%Q.
Proof.
  intros He He' HA HB Hd Hr Ex Rx Sa Db.
  assert (S1 : (r * d <= (1 + e) * s)%Q).
  { rewrite <- Ex. setoid_replace ((1 + e) * (x * d))%Q with ((1 + e) * x * d)%Q by ring.
    apply Qmult_le_compat_r; lra. }
  assert (S2 : ((1 + e) * s <= (1 + e) * ((1 + e) * A))%Q)
    by (apply Qmult_le_l; lra).
  assert (S3 : (r * ((1 - e) * B) <= r * d)%Q).
  { rewrite !(Qmult_comm r). apply Qmult_le_compat_r; assumption. }
  assert (S4 : ((1 + e) * ((1 + e) * A) <= (1 - e) * ((1 + 4 * e) * A))%Q).
  { setoid_replace ((1 + e) * ((1 + e) * A))%Q with ((1 + e) * (1 + e) * A)%Q by ring.
    setoid_replace ((1 - e) * ((1 + 4 * e) * A))%Q with ((1 - e) * (1 + 4 * e) * A)%Q
      by ring.
    apply Qmult_le_compat_r; [|lra]. nra. }
  assert (S5 : ((1 - e) * (r * B) <= (1 - e) * ((1 + 4 * e) * A))%Q).
  { setoid_replace ((1 - e) * (r * B))%Q with (r * ((1 - e) * B))%Q by ring. lra. }
  apply Qmult_le_l in S5; [exact S5|lra].
Qed.

Lemma quotient_lower (e r x s d A B : Q) :
  (0 < e)%Q -> (e <= 1 # 5)%Q -> (0 < A)%Q -> (0 < B)%Q -> (0 < d)%Q -> (0 <= r)%Q ->
  (x * d == s)%Q -> ((1 - e) * x <= r)%Q -> ((1 - e) * A <= s)%Q ->
  (d <= (1 + e) * B)%Q ->
  ((1 - 4 * e) * A <= r * B)%Q.
Proof.
  intros He He' HA HB Hd Hr Ex Rx Sa Db.
  assert (S1 : ((1 - e) * s <= r * d)%Q).
  { rewrite <- Ex. setoid_replace ((1 - e) * (x * d))%Q with ((1 - e) * x * d)%Q by ring.
    apply Qmult_le_compat_r; lra. }
  assert (S2 : ((1 - e) * ((1 - e) * A) <= (1 - e) * s)%Q)
    by (apply Qmult_le_l; lra).
  assert (S3 : (r * d <= r * ((1 + e) * B))%Q).
  { rewrite !(Qmult_comm r). apply Qmult_le_compat_r; assumption. }
  assert (S4 : ((1 + e) * ((1 - 4 * e) * A) <= (1 - e) * ((1 - e) * A))%Q).
  { setoid_replace ((1 + e) * ((1 - 4 * e) * A))%Q with ((1 + e) * (1 - 4 * e) * A)%Q
      by ring.
    setoid_replace ((1 - e) * ((1 - e) * A))%Q with ((1 - e) * (1 - e) * A)%Q by ring.
    apply Qmult_le_compat_r; [|lra]. nra. }
  assert (S5 : ((1 + e) * ((1 - 4 * e) * A) <= (1 + e) * (r * B))%Q).
  { setoid_replace ((1 + e) * (r * B))%Q with (r * ((1 + e) * B))%Q by ring. lra. }
  apply Qmult_le_l in S5; [exact S5|lra].
Qed.

(** The days off when the income exceeds the spending. *)
Lemma daysOff_of_a_surplus (I T : Q) :
  (1 <= T)%Q -> (T + 1 <= I)%Q -> (I <= inject_Z (2 ^ 53))%Q ->
  exists n,
    Math_floor (jsDiv (jsSub (Finite I) (Finite T)) (jsDiv (Finite T) (ofZ 7)))
    = ofZ n /\
    jsLe (jsDiv (Finite T) (ofZ 7)) (ofZ 0) = false /\
    jsLe (jsSub (Finite I) (Finite T)) (ofZ 0) = false /\
    0 <= n /\
    (inject_Z n <= (1 + pow2 (-51)) * exactDaysOff I T)%Q /\
    ((1 - pow2 (-51)) * exactDaysOff I T < inject_Z n + 1)%Q.
Proof.
  intros HT HI HM. change (inject_Z (2 ^ 53)) with (9007199254740992 # 1)%Q in HM.
  set (e := pow2 (-53)).
  assert (Pe : (e == 1 # 9007199254740992)%Q) by reflexivity.
  assert (P4 : (pow2 (-51) == 4 * e)%Q) by reflexivity.
  assert (Lo : (pow2 (-1022) <= 1 # 9007199254740992)%Q).
  { change (1 # 9007199254740992)%Q with (pow2 (-53)). apply pow2_le. lia. }
  assert (Hi : (inject_Z (2 ^ 60) <= pow2 1023)%Q).
  { rewrite <- pow2_Z by lia. apply pow2_le. lia. }
  change (inject_Z (2 ^ 60)) with (1152921504606846976 # 1)%Q in Hi.
  assert (HS : exists s, jsSub (Finite I) (Finite T) = Finite s /\
                         ((1 - e) * (I - T) <= s <= (1 + e) * (I - T))%Q).
  { unfold jsSub, jsNeg, jsAdd.
    rewrite (round64_comp (I + Qred (- T)) (I - T)) by (rewrite Qred_correct; ring).
    apply round64_relative; lra. }
  destruct HS as (s & Es & S1 & S2).
  assert (HD : exists d, jsDiv (Finite T) (ofZ 7) = Finite d /\
                         ((1 - e) * (T / 7) <= d <= (1 + e) * (T / 7))%Q).
  { unfold jsDiv, ofZ. change (Qeq_bool (inject_Z 7) 0) with false.
    cbv iota. change (inject_Z 7) with 7%Q.
    apply round64_relative.
    - apply Qle_shift_div_l; lra.
    - apply Qlt_shift_div_r; lra. }
  destruct HD as (d & Ed & D1 & D2).
  rewrite Es, Ed.
  assert (T7 : (T / 7 * 7 == T)%Q) by (field; lra).
  set (B := (T / 7)%Q) in *.
  assert (PB : (1 # 7 <= B)%Q) by lra.
  assert (Pd : (0 < d)%Q) by nra.
  assert (Ps : (0 < s)%Q) by nra.
  unfold jsDiv.
  assert (Nd : Qeq_bool d 0 = false).
  { destruct (Qeq_bool d 0) eqn:C; [|reflexivity]. apply Qeq_bool_iff in C. lra. }
  rewrite Nd.
  assert (Ex : (s / d * d == s)%Q) by (field; lra).
  set (x := (s / d)%Q) in *.
  assert (Bs : (s <= 2 * (I - T))%Q) by nra.
  assert (Bs' : (1 # 2 <= s)%Q) by nra.
  assert (Bd : (1 # 14 <= d)%Q) by nra.
  assert (Bd' : (d <= 2 * B)%Q) by nra.
  assert (X1 : (1 # 9007199254740992 <= x)%Q).
  { unfold x. apply Qle_shift_div_l; [exact Pd|]. nra. }
  assert (X2 : (x < 1152921504606846976 # 1)%Q).
  { unfold x. apply Qlt_shift_div_r; [exact Pd|]. nra. }
  destruct (round64_relative x) as (r & Er & R1 & R2); [lra|lra|].
  rewrite Er. fold e in R1, R2.
  assert (Pr : (0 <= r)%Q) by nra.
  exists (Qfloor r). split; [reflexivity|].
  split.
  { unfold jsLe, compareNumbers, ofZ. change (inject_Z 0) with 0%Q.
    destruct (d ?= 0)%Q eqn:C; try reflexivity.
    - apply Qeq_alt in C. lra.
    - apply Qlt_alt in C. lra. }
  split.
  { unfold jsLe, compareNumbers, ofZ. change (inject_Z 0) with 0%Q.
    destruct (s ?= 0)%Q eqn:C; try reflexivity.
    - apply Qeq_alt in C. lra.
    - apply Qlt_alt in C. lra. }
  split.
  { change 0 with (Qfloor 0). apply Qfloor_resp_le. exact Pr. }
  assert (U : (r * B <= (1 + 4 * e) * (I - T))%Q).
  { apply (quotient_upper e r x s d); try assumption; lra. }
  assert (L : ((1 - 4 * e) * (I - T) <= r * B)%Q).
  { apply (quotient_lower e r x s d); try assumption; lra. }
  assert (EE : (exactDaysOff I T * B == I - T)%Q).
  { unfold exactDaysOff, B. field. lra. }
  pose proof (Qfloor_le r) as F1. pose proof (Qlt_floor r) as F2.
  rewrite inject_Z_plus in F2. change (inject_Z 1) with 1%Q in F2.
  rewrite P4. split.
  - apply Qle_trans with r; [exact F1|].
    apply Qmult_lt_0_le_reg_r with B; [lra|].
    setoid_replace ((1 + 4 * e) * exactDaysOff I T * B)%Q
      with ((1 + 4 * e) * (exactDaysOff I T * B))%Q by ring.
    rewrite EE. exact U.
  - apply Qle_lt_trans with r; [|exact F2].
    apply Qmult_lt_0_le_reg_r with B; [lra|].
    setoid_replace ((1 - 4 * e) * exactDaysOff I T * B)%Q
      with ((1 - 4 * e) * (exactDaysOff I T * B))%Q by ring.
    rewrite EE. exact L.
Qed.

(** X12. The days off of the summary, on the numbers of JavaScript.  With
    no active debt the result is Infinity.  With active debts that hold
    whole amounts, of which at most 2^53 remains in all, it is 0 when the
    spending is NaN, and 0 when the spending is a number from 1 to 2^53
    that the income does not exceed; and when the income, at most 2^53,
    exceeds a spending of 1 or more by 1 or more, it is a whole number [n]
    that is not negative and is the floor of the exact quotient
    [7 * (income - spending) / spending] up to the three roundings of the
    computation: [n <= (1 + 2^-51) * exact] and
    [(1 - 2^-51) * exact < n + 1]. *)
Theorem daysOffCanTake_cases (active : list Doubles.Debt) (I T : Q) :
  Forall wholeActive active -> totalRemainingOf active <= 2 ^ 53 ->
  (forall income spending, daysOffCanTake [] income spending = Infinity false) /\
  (active <> [] ->
   (forall income, daysOffCanTake active income NaN = ofZ 0) /\
   ((1 <= T)%Q -> (T <= inject_Z (2 ^ 53))%Q -> (I <= T)%Q ->
    daysOffCanTake active (Finite I) (Finite T) = ofZ 0) /\
   ((1 <= T)%Q -> (T + 1 <= I)%Q -> (I <= inject_Z (2 ^ 53))%Q ->
    exists n,
      daysOffCanTake active (Finite I) (Finite T) = ofZ n /\ 0 <= n /\
      (inject_Z n <= (1 + pow2 (-51)) * exactDaysOff I T)%Q /\
      ((1 - pow2 (-51)) * exactDaysOff I T < inject_Z n + 1)%Q)).
Proof.
  intros W B. split; [reflexivity|]. intros NE.
  pose proof (totalRemainingOf_pos active W) as [_ P]. specialize (P NE).
  assert (R : forall income spending,
             daysOffCanTake active income spending
             = let dailySpending := jsDiv spending (ofZ 7) in
               if jsLe dailySpending (ofZ 0) then Infinity false
               else
                 let surplus :=
                   if jsGt income spending then jsSub income spending else ofZ 0 in
                 if jsLe surplus (ofZ 0) then ofZ 0
                 else Math_floor (jsDiv surplus dailySpending)).
  { intros income spending. unfold daysOffCanTake.
    rewrite totalDebtRemaining_fold by (try assumption; lia).
    rewrite jsLe_Z. destruct (Z.leb_spec (0 + totalRemainingOf active) 0); [lia|].
    reflexivity. }
  split; [|split].
  - intros income. rewrite R. destruct income; reflexivity.
  - intros HT HM HI. rewrite R. cbv zeta.
    change (inject_Z (2 ^ 53)) with (9007199254740992 # 1)%Q in HM.
    unfold jsDiv, ofZ. change (Qeq_bool (inject_Z 7) 0) with false. cbv iota.
    change (inject_Z 7) with 7%Q.
    destruct (round64_relative (T / 7)) as (d & Ed & D1 & D2).
    { apply Qle_shift_div_l; [reflexivity|].
      assert (Lo : (pow2 (-1022) <= 1 # 7)%Q).
      { apply Qle_trans with (pow2 (-3)); [apply pow2_le; lia|].
        unfold Qle. cbn. lia. }
      lra. }
    { apply Qlt_shift_div_r; [reflexivity|].
      assert (Hi : (inject_Z (2 ^ 60) <= pow2 1023)%Q).
      { rewrite <- pow2_Z by lia. apply pow2_le. lia. }
      change (inject_Z (2 ^ 60)) with (1152921504606846976 # 1)%Q in Hi. lra. }
    rewrite Ed.
    assert (Pe : (pow2 (-53) == 1 # 9007199254740992)%Q) by reflexivity.
    assert (T7 : (T / 7 * 7 == T)%Q) by (field; lra).
    assert (Pd : (0 < d)%Q) by nra.
    assert (C1 : jsLe (Finite d) (Finite (inject_Z 0)) = false).
    { unfold jsLe, compareNumbers. change (inject_Z 0) with 0%Q.
      destruct (d ?= 0)%Q eqn:C; try reflexivity.
      - apply Qeq_alt in C. lra.
      - apply Qlt_alt in C. lra. }
    rewrite C1.
    assert (C2 : jsGt (Finite I) (Finite T) = false).
    { unfold jsGt, jsLt, compareNumbers.
      destruct (T ?= I)%Q eqn:C; try reflexivity.
      apply Qlt_alt in C. lra. }
    rewrite C2. reflexivity.
  - intros HT HI HM. rewrite R. cbv zeta.
    destruct (daysOff_of_a_surplus I T HT HI HM) as (n & En & C1 & C3 & Hn & U & L).
    assert (C2 : jsGt (Finite I) (Finite T) = true).
    { unfold jsGt, jsLt, compareNumbers.
      destruct (T ?= I)%Q eqn:C; try reflexivity.
      - apply Qeq_alt in C. lra.
      - apply Qgt_alt in C. lra. }
    rewrite C1, C2, C3, En. exists n. repeat split; assumption.
Qed.

Lemma daysOffCanTake_cases_witness :
  Forall wholeActive [motorbikeLoan] /\
  totalRemainingOf [motorbikeLoan] <= 2 ^ 53 /\
  daysOffCanTake [motorbikeLoan] (ofZ 1000000) NaN = ofZ 0.
Proof.
  assert (W : Forall wholeActive [motorbikeLoan]) by (repeat constructor).
  assert (B : totalRemainingOf [motorbikeLoan] <= 2 ^ 53) by (vm_compute; discriminate).
  split; [exact W|]. split; [exact B|].
  destruct (daysOffCanTake_cases [motorbikeLoan] 0 1 W B) as [_ H].
  assert (NE : [motorbikeLoan] <> []) by discriminate.
  destruct (H NE) as [N _]. exact (N (ofZ 1000000)).
Defined.

(** The result is not always the floor of the exact quotient: a spending of
    125000 on an income of 250000 leaves 125000, which pays for 7 days
    exactly, and the code finds 6 (125000 / 7 is rounded up, so that the
    quotient falls just below 7). *)
Example daysOff_just_below_seven :
  daysOffCanTake [motorbikeLoan] (ofZ 250000) (ofZ 125000) = ofZ 6 /\
  (exactDaysOff 250000 125000 == 7)%Q.
Proof. split; vm_compute; reflexivity. Qed.

(** The spending is at least the fixed expenses: with food, misc and debt
    totals that are not negative and are at most the whole numbers [cf],
    [cm] and [cw], it is a number from 100000 to 100000 + cf + cm + cw. *)
Lemma totalActualSpending_bounds (food misc weekly : Q) (cf cm cw : Z) :
  (0 <= food <= inject_Z cf)%Q -> (0 <= misc <= inject_Z cm)%Q ->
  (0 <= weekly <= inject_Z cw)%Q -> 100000 + cf + cm + cw < 2 ^ 53 ->
  exists T, totalActualSpending (Finite food) (Finite misc) (Finite weekly) = Finite T /\
            (100000 <= T <= inject_Z (100000 + cf + cm + cw))%Q.
Proof.
  intros [F0 F1] [M0 M1] [W0 W1] B. change (2 ^ 53) with 9007199254740992 in B.
  assert (Cf : 0 <= cf) by (rewrite Zle_Qle; change (inject_Z 0) with 0%Q; lra).
  assert (Cm : 0 <= cm) by (rewrite Zle_Qle; change (inject_Z 0) with 0%Q; lra).
  assert (Cw : 0 <= cw) by (rewrite Zle_Qle; change (inject_Z 0) with 0%Q; lra).
  assert (P53 : (pow2 (0 + 53) == 9007199254740992 # 1)%Q) by reflexivity.
  assert (step : forall q lo hi,
             (inject_Z lo <= q <= inject_Z hi)%Q -> 0 <= lo -> hi < 9007199254740992 ->
             exists r, round64 q = Finite r /\ (inject_Z lo <= r <= inject_Z hi)%Q).
  { intros q lo hi [Q0 Q1] Hlo Hhi.
    assert (Z0 : (0 <= inject_Z lo)%Q) by (change 0%Q with (inject_Z 0); now rewrite <- Zle_Qle).
    assert (Z1 : (inject_Z hi < 9007199254740992 # 1)%Q)
      by (change (9007199254740992 # 1)%Q with (inject_Z 9007199254740992);
          now rewrite <- Zlt_Qlt).
    destruct (round64_between q lo hi 0) as (r & E & R1 & R2).
    - rewrite pow2_0, !Qmult_1_r. split; assumption.
    - rewrite P53, Qabs_pos by lra. lra.
    - lia.
    - lia.
    - exists r. split; [exact E|]. rewrite pow2_0, !Qmult_1_r in R1, R2.
      split; assumption. }
  unfold totalActualSpending, FIXED_EXPENSES, GAS_COST, WIFI_COST.
  change (ofZ (70000 + 30000)) with (Finite 100000).
  unfold jsAdd at 3.
  destruct (step (100000 + food)%Q 100000 (100000 + cf)) as (r1 & E1 & A1 & A2);
    [|lia|lia|].
  { push_inject. change (inject_Z 100000) with 100000%Q in *. lra. }
  rewrite E1. unfold jsAdd at 2.
  destruct (step (r1 + misc)%Q 100000 (100000 + cf + cm)) as (r2 & E2 & A3 & A4);
    [|lia|lia|].
  { push_inject. change (inject_Z 100000) with 100000%Q in *. lra. }
  rewrite E2. unfold jsAdd.
  destruct (step (r2 + weekly)%Q 100000 (100000 + cf + cm + cw)) as (r3 & E3 & A5 & A6);
    [|lia|lia|].
  { push_inject. change (inject_Z 100000) with 100000%Q in *. lra. }
  exists r3. split; [exact E3|]. change (inject_Z 100000) with 100000%Q in A5.
  split; assumption.
Qed.

End StatusFacts.

(** ** The debts on display, and the debts that the form saves *)

Module DebtFacts.
Import JSDate DateUtils DateUtilsMore App AppMore Props PropsMore Samples.
Import CalendarFacts LedgerFacts RecurringFacts ShopeeFacts.

#[local] Opaque climbYear YearFromDay DayFromYear.

(** *** The sort of [displayDebts] *)

Lemma notAfter_valid a b :
  validDue a -> validDue b -> notAfter a b = (dueTime a <=? dueTime b).
Proof.
  unfold validDue, notAfter, dueTime.
  destruct (dueDate a), (dueDate b); congruence.
Qed.

Lemma insertByDue_perm d l : Permutation (insertByDue d l) (d :: l).
Proof.
  induction l as [|x l IH]; cbn [insertByDue]; [reflexivity|].
  destruct (notAfter d x); [reflexivity|].
  rewrite IH. apply perm_swap.
Qed.

Lemma sortByDue_perm l : Permutation (sortByDue l) l.
Proof.
  induction l as [|d l IH]; cbn; [constructor|].
  rewrite insertByDue_perm. now constructor.
Qed.

Lemma insertByDue_sorted d l :
  validDue d -> Forall validDue l ->
  StronglySorted byDue l -> StronglySorted byDue (insertByDue d l).
Proof.
  intros Vd Vl S. induction S as [|x l S IH F]; cbn [insertByDue].
  - constructor; constructor.
  - inversion Vl as [|? ? Vx Vl']; subst.
    rewrite (notAfter_valid d x Vd Vx).
    destruct (Z.leb_spec (dueTime d) (dueTime x)) as [L|L].
    + constructor; [constructor; assumption|].
      constructor; [exact L|].
      eapply Forall_impl; [|exact F]. unfold byDue. intros y Hy. lia.
    + constructor; [apply IH; exact Vl'|].
      apply (Permutation_Forall (Permutation_sym (insertByDue_perm d l))).
      constructor; [unfold byDue; lia|exact F].
Qed.

Lemma sortByDue_sorted l :
  Forall validDue l -> StronglySorted byDue (sortByDue l).
Proof.
  induction 1 as [|d l Vd Vl IH]; cbn; [constructor|].
  apply insertByDue_sorted; [exact Vd| |exact IH].
  apply (Permutation_Forall (Permutation_sym (sortByDue_perm l))). exact Vl.
Qed.

(** Insertion puts a debt before the debts of the same due date. *)
Lemma insertByDue_filter t d l :
  validDue d -> Forall validDue l ->
  filter (fun x => dueTime x =? t) (insertByDue d l)
  = filter (fun x => dueTime x =? t) (d :: l).
Proof.
  intros Vd Vl. induction Vl as [|x l Vx Vl IH]; cbn [insertByDue]; [reflexivity|].
  rewrite (notAfter_valid d x Vd Vx).
  destruct (Z.leb_spec (dueTime d) (dueTime x)) as [L|L]; [reflexivity|].
  cbn [filter] in *. rewrite IH.
  destruct (Z.eqb_spec (dueTime x) t), (Z.eqb_spec (dueTime d) t);
    try reflexivity. lia.
Qed.

Lemma sortByDue_filter t l :
  Forall validDue l ->
  filter (fun x => dueTime x =? t) (sortByDue l)
  = filter (fun x => dueTime x =? t) l.
Proof.
  induction 1 as [|d l Vd Vl IH]; cbn [sortByDue fold_right]; [reflexivity|].
  fold (sortByDue l). rewrite insertByDue_filter; [|exact Vd|].
  - cbn [filter]. now rewrite IH.
  - apply (Permutation_Forall (Permutation_sym (sortByDue_perm l))). exact Vl.
Qed.

(** X13. The debts on display are the active debts of the chosen budget
    month and year (the target month and year of a debt, or those of its due
    date when it has none), each as often as it is active.  When the due
    dates of these debts are valid they are shown by due date, the soonest
    first, and the debts of one due date keep the order they have among the
    active debts. *)
Theorem displayDebts_sorted_selection (tza : Z) (active : list Debt) (m y : Z) :
  Forall (fun d => inDebtFilter tza m y d = true -> dueDate d <> None) active ->
  let shown := displayDebts tza active m y in
  (forall d, In d shown <-> In d active /\ inDebtFilter tza m y d = true) /\
  Permutation shown (filter (inDebtFilter tza m y) active) /\
  StronglySorted (fun a b => dueTime a <= dueTime b) shown /\
  (forall t, filter (fun d => dueTime d =? t) shown
             = filter (fun d => dueTime d =? t)
                      (filter (inDebtFilter tza m y) active)).
Proof.
  intros V shown. unfold shown, displayDebts.
  assert (F : Forall validDue (filter (inDebtFilter tza m y) active)).
  { apply Forall_forall. intros d Hd. apply filter_In in Hd.
    destruct Hd as [Hd Hf]. rewrite Forall_forall in V. exact (V d Hd Hf). }
  split; [|split; [|split]].
  - intros d. rewrite <- filter_In. split; intros H.
    + eapply Permutation_in; [apply sortByDue_perm|exact H].
    + eapply Permutation_in; [apply Permutation_sym, sortByDue_perm|exact H].
  - apply sortByDue_perm.
  - apply (sortByDue_sorted _ F).
  - intros t. apply sortByDue_filter. exact F.
Qed.

Lemma displayDebts_sorted_selection_witness :
  Forall (fun d => inDebtFilter indochina 1 2024 d = true -> dueDate d <> None)
         [phoneLoan; carLoan] /\
  displayDebts indochina [phoneLoan; carLoan] 1 2024 = [phoneLoan] /\
  StronglySorted (fun a b => dueTime a <= dueTime b)
                 (displayDebts indochina [phoneLoan; carLoan] 1 2024).
Proof.
  assert (V : Forall (fun d => inDebtFilter indochina 1 2024 d = true ->
                               dueDate d <> None) [phoneLoan; carLoan]).
  { repeat constructor; intros _; vm_compute; discriminate. }
  split; [exact V|]. split; [vm_compute; reflexivity|].
  exact (proj1 (proj2 (proj2
           (displayDebts_sorted_selection indochina [phoneLoan; carLoan] 1 2024 V)))).
Defined.

(** *** Editing a debt *)

(** X14. Saving the form of a debt under edit rewrites the debts of the
    edited id and no other: a rewritten debt takes its name, source, total,
    due date and budget month and year from the form and keeps its id, the
    amount paid, the date of creation and the transactions.  The payments
    are not checked against the new total: the debt is completed from then
    on exactly when the new total does not exceed what was paid.  No fuel is
    needed on this path. *)
Theorem edit_keeps_the_ledger (tza : Z) (fuel : nat) (now : Z)
    (form : DebtForm) (prev : list Debt) (editing : string) :
  editingDebtId form = Some editing -> editing <> EmptyString ->
  exists debts',
    handleSaveDebt tza fuel now form prev = Some debts' /\
    Forall2 (fun d d' =>
               id d' = id d /\ amountPaid d' = amountPaid d /\
               createdAt d' = createdAt d /\ transactions d' = transactions d /\
               (id d <> editing -> d' = d) /\
               (id d = editing ->
                name d' = nd_name (newDebt form) /\
                source d' = nd_source (newDebt form) /\
                totalAmount d' = nd_totalAmount (newDebt form) /\
                dueDate d' = newDateOfField (nd_dueDate (newDebt form)) /\
                targetMonth d' = Some (nd_targetMonth (newDebt form)) /\
                targetYear d' = Some (nd_targetYear (newDebt form)) /\
                (completed d' = true <->
                 nd_totalAmount (newDebt form) <= amountPaid d)))
            prev debts'.
Proof.
  intros E NE. unfold handleSaveDebt. rewrite E, (truthyId_some editing NE).
  eexists. split; [reflexivity|].
  apply Forall2_map_same. intros d _.
  destruct (String.eqb_spec (id d) editing) as [Q|Q].
  - cbn [id amountPaid createdAt transactions name source totalAmount dueDate
         targetMonth targetYear].
    split; [reflexivity|]. split; [reflexivity|]. split; [reflexivity|].
    split; [reflexivity|]. split; [intros C; contradiction|].
    intros _.
    split; [reflexivity|]. split; [reflexivity|]. split; [reflexivity|].
    split; [reflexivity|]. split; [reflexivity|]. split; [reflexivity|].
    unfold completed. cbn [amountPaid totalAmount]. rewrite Z.geb_le. reflexivity.
  - split; [reflexivity|]. split; [reflexivity|]. split; [reflexivity|].
    split; [reflexivity|]. split; [reflexivity|].
    intros C. contradiction.
Qed.

Lemma edit_keeps_the_ledger_witness :
  exists debts',
    handleSaveDebt indochina 0 1706745600000
      (mkForm (Some "d1"%string) standard false
              (mkNewDebt "Vay mua xe" "Ngân hàng" 100
                         (dateString (isoDate 2024 3 1)) 2 2024)
              0 2024 monthly emptyField)
      [carLoan; phoneLoan] = Some debts' /\
    map completed debts' = [true; true] /\
    map amountPaid debts' = [100; 300].
Proof.
  destruct (edit_keeps_the_ledger indochina 0 1706745600000
              (mkForm (Some "d1"%string) standard false
                      (mkNewDebt "Vay mua xe" "Ngân hàng" 100
                                 (dateString (isoDate 2024 3 1)) 2 2024)
                      0 2024 monthly emptyField)
              [carLoan; phoneLoan] "d1"%string eq_refl)
    as (debts' & E & _); [discriminate|].
  exists debts'. split; [exact E|].
  vm_compute in E. injection E as <-. split; reflexivity.
Defined.

(** *** Creating debts *)

Lemma new_debt_shape nd d :
  amountPaid d = 0 -> totalAmount d = nd_totalAmount nd ->
  (completed d = false <-> 0 < nd_totalAmount nd).
Proof.
  intros P T. unfold completed. rewrite P, T.
  destruct (Z.geb_spec 0 (nd_totalAmount nd)); split; intros; try lia;
    try discriminate; reflexivity.
Qed.

(** X15. Saving the form of a new debt leaves the debts there are as they
    are and in place, and puts the new debts after them.  Every new debt
    has nothing paid, no transaction, the clock as its date of creation, the
    total of the form and a budget month and year; it is active exactly when
    the total of the form is more than 0.  The Shopee branch and the single
    branch add one debt. *)
Theorem created_debts_are_appended (tza : Z) (fuel : nat) (now : Z)
    (form : DebtForm) (prev debts' : list Debt) :
  editingDebtId form = None ->
  handleSaveDebt tza fuel now form prev = Some debts' ->
  exists added,
    debts' = prev ++ added /\
    Forall (fun d =>
              amountPaid d = 0 /\ transactions d = Some [] /\
              createdAt d = Some now /\
              totalAmount d = nd_totalAmount (newDebt form) /\
              (exists m y, targetMonth d = Some m /\ targetYear d = Some y) /\
              (completed d = false <-> 0 < nd_totalAmount (newDebt form)))
           added /\
    (debtType form = shopee \/ isRecurringDebt form = false ->
     List.length added = 1%nat).
Proof.
  intros E. unfold handleSaveDebt. rewrite E. cbn [truthyId].
  destruct (debtType form) eqn:T.
  - destruct (isRecurringDebt form) eqn:R.
    + unfold recurringDebts.
      destruct (fieldIsEmpty (nd_dueDate (newDebt form))
                || fieldIsEmpty (recurringEndDate form)).
      * intros S. injection S as <-. exists []. rewrite app_nil_r.
        split; [reflexivity|]. split; [constructor|].
        intros [C|C]; discriminate.
      * destruct (recurringLoop tza fuel now (newDebt form)
                    (recurringFrequency form)
                    (newDateOfField (recurringEndDate form))
                    (newDateOfField (nd_dueDate (newDebt form))) 1 [])
          as [ds|] eqn:L; [|discriminate].
        intros S. injection S as <-.
        destruct (loop_emits _ _ _ _ _ _ _ _ _ _ L) as (new & -> & F).
        exists new. split; [reflexivity|]. split; [|intros [C|C]; discriminate].
        eapply Forall_impl; [|exact F]. cbv beta.
        intros d (c & k & -> & _).
        split; [reflexivity|]. split; [reflexivity|]. split; [reflexivity|].
        split; [reflexivity|].
        split; [eexists; eexists; split; reflexivity|].
        apply new_debt_shape; reflexivity.
    + intros S. injection S as <-. eexists. split; [reflexivity|].
      split; [|intros _; reflexivity].
      constructor; [|constructor].
      split; [reflexivity|]. split; [reflexivity|]. split; [reflexivity|].
      split; [reflexivity|].
      split; [eexists; eexists; split; reflexivity|].
      apply new_debt_shape; reflexivity.
  - intros S. injection S as <-. eexists. split; [reflexivity|].
    split; [|intros _; reflexivity].
    constructor; [|constructor].
    split; [reflexivity|]. split; [reflexivity|]. split; [reflexivity|].
    split; [reflexivity|].
    split; [eexists; eexists; split; reflexivity|].
    apply new_debt_shape; reflexivity.
Qed.

Lemma created_debts_are_appended_witness :
  exists added,
    handleSaveDebt indochina 10 1706745600000
      (recurringForm fromJan1 weekly (dateString (isoDate 2024 1 22)))
      [carLoan]
    = Some ([carLoan] ++ added) /\
    List.length added = 4%nat /\
    Forall (fun d => amountPaid d = 0) added.
Proof.
  destruct (handleSaveDebt indochina 10 1706745600000
              (recurringForm fromJan1 weekly (dateString (isoDate 2024 1 22)))
              [carLoan]) as [debts'|] eqn:S;
    [|vm_compute in S; discriminate].
  destruct (created_debts_are_appended indochina 10 1706745600000
              (recurringForm fromJan1 weekly (dateString (isoDate 2024 1 22)))
              [carLoan] debts' eq_refl S) as (added & -> & F & _).
  exists added. split; [reflexivity|]. split.
  - vm_compute in S. injection S as S. apply (f_equal (@List.length Debt)) in S.
    cbn [List.length] in S. congruence.
  - eapply Forall_impl; [|exact F]. intros d H. exact (proj1 H).
Defined.

(** *** The ids of the installments *)

Lemma toString_inj a b : toString a = toString b -> a = b.
Proof.
  unfold toString. intros H. apply DecimalZ.to_int_inj.
  assert (N : forall z, Z.to_int z <> Decimal.Pos Decimal.Nil /\
                        Z.to_int z <> Decimal.Neg Decimal.Nil).
  { intros [|p|p]; cbn; split; try discriminate;
      intros C; injection C as C;
      exact (DecimalPos.Unsigned.to_uint_nonnil p C). }
  apply (f_equal NilZero.int_of_string) in H.
  rewrite !NilZero.isi in H by apply N. now injection H.
Qed.

Lemma append_cancel_l p : forall s s', (p ++ s = p ++ s')%string -> s = s'.
Proof.
  induction p as [|c p IH]; intros s s' H; cbn in H; [exact H|].
  injection H as H. exact (IH _ _ H).
Qed.

Lemma installmentId_inj now a b : installmentId now a = installmentId now b -> a = b.
Proof.
  unfold installmentId. intros H. apply append_cancel_l in H.
  cbn in H. injection H as H. now apply toString_inj.
Qed.

Lemma installmentId_not_plain now a : installmentId now a <> toString now.
Proof.
  unfold installmentId. intros H.
  assert (E : (toString now ++ "-" ++ toString a
               = toString now ++ EmptyString)%string).
  { rewrite H. clear H. induction (toString now) as [|c s IH]; cbn; [reflexivity|].
    now rewrite <- IH. }
  apply append_cancel_l in E. discriminate.
Qed.

(** The ids that the loop gives are numbered from [count] on. *)
Lemma loop_ids tza now nd freq fuel : forall endDate currentDate count acc ds,
  recurringLoop tza fuel now nd freq endDate currentDate count acc = Some ds ->
  exists k,
    map id ds
    = map id acc
      ++ map (fun i => installmentId now (count + Z.of_nat i)) (seq 0 k).
Proof.
  induction fuel as [|fuel IH]; intros endDate currentDate count acc ds;
    cbn [recurringLoop]; destruct currentDate as [c|], endDate as [e|];
    try (intros E; injection E as <-; exists O; cbn; now rewrite app_nil_r).
  - destruct (c <=? e); [discriminate|].
    intros E; injection E as <-; exists O; cbn; now rewrite app_nil_r.
  - destruct (c <=? e).
    + intros E. apply IH in E. destruct E as (k & E). exists (S k).
      rewrite E, map_app, <- app_assoc. f_equal.
      cbn [map app seq id installment]. rewrite Z.add_0_r. f_equal.
      rewrite <- seq_shift, map_map. apply map_ext. intros i.
      f_equal. lia.
    + intros E; injection E as <-; exists O; cbn; now rewrite app_nil_r.
Qed.

(** X16. The installments of one recurring save have ids that differ from
    one another and from the id that a single debt saved at the same
    millisecond gets.  So a payment on one installment leaves the other
    installments of the series as they are. *)
Theorem installment_ids_are_distinct (tza : Z) (fuel : nat) (now : Z)
    (nd : NewDebt) (freq : Frequency) (endDate startDate : Date)
    (ds : list Debt) :
  recurringLoop tza fuel now nd freq endDate startDate 1 [] = Some ds ->
  NoDup (map id ds) /\
  (forall d, In d ds -> id d <> toString now) /\
  (forall i j d x paidAt amount0,
      nth_error ds i = Some d -> nth_error ds j = Some x -> i <> j ->
      nth_error (handleAddPayment paidAt (id d) amount0 ds) j = Some x).
Proof.
  intros L. destruct (loop_ids _ _ _ _ _ _ _ _ _ _ L) as (k & E).
  cbn [map app] in E.
  assert (N : NoDup (map id ds)).
  { rewrite E. apply Finite.Injective_map_NoDup; [|apply seq_NoDup].
    intros a b H. apply installmentId_inj in H. lia. }
  split; [exact N|]. split.
  - intros d Hd. apply (in_map id) in Hd. rewrite E in Hd.
    apply in_map_iff in Hd. destruct Hd as (i & <- & _).
    apply installmentId_not_plain.
  - intros i j d x paidAt amount0 Hi Hj Hij.
    unfold handleAddPayment. rewrite nth_error_map, Hj. cbn [option_map].
    destruct (String.eqb_spec (id x) (id d)) as [Q|Q]; [|reflexivity].
    exfalso. apply Hij.
    assert (Li : (i < List.length (map id ds))%nat).
    { rewrite length_map. apply nth_error_Some. congruence. }
    apply (proj1 (NoDup_nth_error (map id ds)) N i j Li).
    rewrite !nth_error_map, Hi, Hj. cbn. now rewrite Q.
Qed.

Lemma installment_ids_are_distinct_witness :
  exists ds,
    recurringLoop indochina 10 1706745600000 fromJan1 weekly
                  (isoDate 2024 1 22) (isoDate 2024 1 1) 1 [] = Some ds /\
    NoDup (map id ds).
Proof.
  destruct (recurringLoop indochina 10 1706745600000 fromJan1 weekly
              (isoDate 2024 1 22) (isoDate 2024 1 1) 1 []) as [ds|] eqn:L;
    [|vm_compute in L; discriminate].
  exists ds. split; [reflexivity|].
  exact (proj1 (installment_ids_are_distinct indochina 10 1706745600000
                  fromJan1 weekly (isoDate 2024 1 22) (isoDate 2024 1 1) ds L)).
Defined.

(** *** Deleting a debt *)

Lemma delete_app id0 l l' :
  handleDeleteDebt true id0 (l ++ l')
  = handleDeleteDebt true id0 l ++ handleDeleteDebt true id0 l'.
Proof. unfold handleDeleteDebt. apply filter_app. Qed.

Lemma delete_absent id0 l :
  (forall d, In d l -> id d <> id0) -> handleDeleteDebt true id0 l = l.
Proof.
  intros H. unfold handleDeleteDebt. induction l as [|d l IH]; [reflexivity|].
  cbn [filter]. destruct (String.eqb_spec (id d) id0) as [Q|Q].
  - destruct (H d (or_introl eq_refl) Q).
  - cbn [negb]. f_equal. apply IH. intros x Hx. apply H. now right.
Qed.

(** X17. Deleting, once confirmed, removes every debt of the id and keeps
    the others in their order; declined, it changes nothing.  After a save
    that creates one debt (the single branch or the Shopee branch), deleting
    the id of the new debt gives back the debts there were, provided none of
    them had that id. *)
Theorem delete_after_create (tza : Z) (fuel : nat) (now : Z)
    (form : DebtForm) (prev debts' : list Debt) :
  editingDebtId form = None ->
  debtType form = shopee \/ isRecurringDebt form = false ->
  handleSaveDebt tza fuel now form prev = Some debts' ->
  (forall d, In d (handleDeleteDebt true (toString now) debts') ->
             id d <> toString now) /\
  handleDeleteDebt true (toString now) debts'
  = handleDeleteDebt true (toString now) prev /\
  ((forall d, In d prev -> id d <> toString now) ->
   handleDeleteDebt true (toString now) debts' = prev) /\
  handleDeleteDebt false (toString now) debts' = debts'.
Proof.
  intros E B S.
  assert (A : exists d, debts' = prev ++ [d] /\ id d = toString now).
  { unfold handleSaveDebt in S. rewrite E in S. cbn [truthyId] in S.
    destruct (debtType form).
    - destruct B as [B|B]; [discriminate|]. rewrite B in S.
      injection S as <-. eexists. split; reflexivity.
    - injection S as <-. eexists. split; reflexivity. }
  destruct A as (d & -> & I).
  assert (D : handleDeleteDebt true (toString now) (prev ++ [d])
              = handleDeleteDebt true (toString now) prev).
  { rewrite delete_app. unfold handleDeleteDebt at 2. cbn [filter].
    rewrite I, String.eqb_refl. cbn [negb]. apply app_nil_r. }
  split; [|split; [exact D|split; [|reflexivity]]].
  - intros x Hx. unfold handleDeleteDebt in Hx. apply filter_In in Hx.
    destruct Hx as [_ Hx]. intros Q. rewrite Q, String.eqb_refl in Hx.
    discriminate.
  - intros H. rewrite D. apply delete_absent. exact H.
Qed.

Lemma delete_after_create_witness :
  exists debts',
    handleSaveDebt indochina 0 1706745600000 (shopeeForm fromJan1 0 2024)
                   [carLoan; phoneLoan] = Some debts' /\
    handleDeleteDebt true (toString 1706745600000) debts' = [carLoan; phoneLoan].
Proof.
  exists ([carLoan; phoneLoan]
          ++ [shopeeDebt indochina 1706745600000 fromJan1 0 2024]).
  assert (S : handleSaveDebt indochina 0 1706745600000 (shopeeForm fromJan1 0 2024)
                [carLoan; phoneLoan]
              = Some ([carLoan; phoneLoan]
                      ++ [shopeeDebt indochina 1706745600000 fromJan1 0 2024]))
    by reflexivity.
  split; [exact S|].
  apply (delete_after_create indochina 0 1706745600000
           (shopeeForm fromJan1 0 2024) [carLoan; phoneLoan] _ eq_refl
           (or_introl eq_refl) S).
  intros d [<-|[<-|[]]]; vm_compute; discriminate.
Defined.

(** *** The preview of the Shopee due date *)

(** X18. The due date that the form previews for a Shopee bill is the due
    date of the debt that the save creates.  For a bill month from 0 to 11
    whose due year is outside 0..99, the budget month and year that the form
    reads off the preview are the target month and year that the save
    stores. *)
Theorem shopee_preview_agrees (tza now : Z) (nd : NewDebt) (m y t : Z) :
  0 <= m <= 11 ->
  ~ 0 <= y + (m + 1) / 12 <= 99 ->
  shopeeDueDatePreview tza m y = Some t ->
  let d := shopeeDebt tza now nd m y in
  dueDate d = Some t /\
  targetMonth d = Some (getMonth tza t) /\
  targetYear d = Some (getFullYear tza t) /\
  getDate tza t = 10.
Proof.
  intros Hm Hy P d.
  assert (E : dueDate d = shopeeDueDatePreview tza m y) by reflexivity.
  destruct (shopee_target tza now nd m y Hm) as (TM & TY & DD & _).
  fold d in TM, TY, DD. rewrite E, P in DD. symmetry in DD.
  assert (R : 0 <= (m + 1) mod 12 <= 11)
    by (pose proof (Z.mod_pos_bound (m + 1) 12); lia).
  destruct (newDate_fields tza _ _ _ R DD) as (FY & FM & FD & _).
  assert (C : (0 <=? y + (m + 1) / 12) && (y + (m + 1) / 12 <=? 99) = false).
  { destruct (Z.leb_spec 0 (y + (m + 1) / 12)),
             (Z.leb_spec (y + (m + 1) / 12) 99); try reflexivity. lia. }
  rewrite C in FY.
  split; [rewrite E; exact P|]. rewrite TM, TY, FY, FM.
  split; [reflexivity|]. split; [reflexivity|exact FD].
Qed.

Lemma shopee_preview_agrees_witness :
  exists t,
    shopeeDueDatePreview indochina 11 2024 = Some t /\
    targetMonth (shopeeDebt indochina 1706745600000 fromJan1 11 2024)
    = Some (getMonth indochina t) /\
    getFullYear indochina t = 2025.
Proof.
  exists 1736442000000.
  assert (P : shopeeDueDatePreview indochina 11 2024 = Some 1736442000000)
    by (vm_compute; reflexivity).
  split; [exact P|]. split.
  - apply (shopee_preview_agrees indochina 1706745600000 fromJan1 11 2024
             1736442000000); [lia|change ((11 + 1) / 12) with 1; lia|exact P].
  - vm_compute. reflexivity.
Defined.

End DebtFacts.

(** ** Fuel, internet and the miscellaneous expenses *)

Module HouseholdFacts.
Import JSDate JSNumber DateUtils DateUtilsMore App AppMore Props PropsMore Samples.
Import CalendarFacts NumberFacts AggregationFacts.

#[local] Opaque climbYear YearFromDay DayFromYear.

(** *** The fuel tick *)

(** The three comparisons of [sameDayAsToday] hold exactly of the dates of
    the local calendar day of today. *)
Lemma sameDayAsToday_iff tza today t :
  sameDayAsToday tza today (Some t) = true <-> localDay tza t = localDay tza today.
Proof.
  unfold sameDayAsToday, localDay, getDate, getMonth, getFullYear.
  rewrite !andb_true_iff, !Z.eqb_eq. split.
  - intros [[D M] Y].
    rewrite <- (Z.add_0_r (Day (LocalTime tza t))),
            <- (Z.add_0_r (Day (LocalTime tza today))),
            <- !MakeDay_fields, D, M, Y.
    reflexivity.
  - intros E.
    unfold DateFromTime, MonthFromTime, InLeapYear, DayWithinYear, YearFromTime.
    rewrite E. repeat split.
Qed.

Lemma sameDayAsToday_same_day tza a b d :
  localDay tza a = localDay tza b ->
  sameDayAsToday tza a d = sameDayAsToday tza b d.
Proof.
  intros E. destruct d as [t|]; [|reflexivity].
  destruct (sameDayAsToday tza a (Some t)) eqn:A,
           (sameDayAsToday tza b (Some t)) eqn:B; try reflexivity.
  - apply sameDayAsToday_iff in A. rewrite E in A.
    apply sameDayAsToday_iff in A. congruence.
  - apply sameDayAsToday_iff in B. rewrite <- E in B.
    apply sameDayAsToday_iff in B. congruence.
Qed.

Lemma last_in {A : Type} (l : list A) (d x : A) :
  last l d = x -> x = d \/ In x l.
Proof.
  induction l as [|a l IH]; [intros E; left; now symmetry|].
  destruct l as [|b l]; [intros E; right; left; exact E|].
  intros E. change (last (b :: l) d = x) in E.
  destruct (IH E) as [H|H]; [left; exact H|right; right; exact H].
Qed.

Lemma lastGasFill_app h g : lastGasFill (h ++ [g]) = Some g.
Proof. unfold lastGasFill. rewrite map_app. apply last_last. Qed.

Lemma lastGasFill_filter p h g :
  lastGasFill (filter p h) = Some g -> p g = true.
Proof.
  unfold lastGasFill. intros E. apply last_in in E.
  destruct E as [E|E]; [discriminate|].
  apply in_map_iff in E. destruct E as (x & X & I). injection X as ->.
  apply filter_In in I. exact (proj2 I).
Qed.

(** X19. The fuel tick.  When the click falls on the local day on which
    the tick was last computed, the handler flips it: a ticked day loses its
    entries and is unticked, an unticked day gets an entry of now and is
    ticked.  Ticking and unticking again gives back the history when it had
    no entry of today. *)
Theorem gas_toggle_flips (tza rendered now : Z) (gasHistory : list GasLog) :
  localDay tza rendered = localDay tza now ->
  let filled := isGasFilledToday tza rendered gasHistory in
  isGasFilledToday tza now (handleToggleGas tza filled now gasHistory)
  = negb filled /\
  (Forall (fun g => sameDayAsToday tza now (gdate g) = false) gasHistory ->
   filled = false /\
   handleToggleGas tza true now (handleToggleGas tza false now gasHistory)
   = gasHistory).
Proof.
  intros D filled.
  assert (T : sameDayAsToday tza now (Some now) = true)
    by (apply sameDayAsToday_iff; reflexivity).
  split.
  - unfold handleToggleGas. destruct filled eqn:F; cbn [negb].
    + unfold isGasFilledToday.
      destruct (lastGasFill (filter _ gasHistory)) as [g|] eqn:L; [|reflexivity].
      apply lastGasFill_filter in L.
      destruct (sameDayAsToday tza now (gdate g)); [discriminate|reflexivity].
    + unfold isGasFilledToday. rewrite lastGasFill_app. exact T.
  - intros N. split.
    + unfold filled, isGasFilledToday.
      destruct (lastGasFill gasHistory) as [g|] eqn:L; [|reflexivity].
      unfold lastGasFill in L. apply last_in in L.
      destruct L as [L|L]; [discriminate|].
      apply in_map_iff in L. destruct L as (x & X & I). injection X as ->.
      rewrite Forall_forall in N.
      rewrite (sameDayAsToday_same_day tza rendered now _ D). exact (N g I).
    + unfold handleToggleGas. rewrite filter_app. cbn [filter gdate].
      rewrite T. cbn [negb]. rewrite app_nil_r.
      induction N as [|g l G _ IH]; [reflexivity|].
      cbn [filter]. rewrite G. cbn [negb]. now f_equal.
Qed.

Lemma gas_toggle_flips_witness :
  localDay indochina 1706745600000 = localDay indochina 1706749200000 /\
  isGasFilledToday indochina 1706749200000
    (handleToggleGas indochina
       (isGasFilledToday indochina 1706745600000
          [mkGasLog "g1" (Some 1706000000000)])
       1706749200000 [mkGasLog "g1" (Some 1706000000000)])
  = true.
Proof.
  assert (D : localDay indochina 1706745600000 = localDay indochina 1706749200000)
    by (vm_compute; reflexivity).
  split; [exact D|].
  exact (proj1 (gas_toggle_flips indochina 1706745600000 1706749200000
                  [mkGasLog "g1" (Some 1706000000000)] D)).
Defined.

(** *** The internet tick *)

(** X20. The internet payment counts as recent for less than six and a
    half days on either side of its instant, and the warning is on from five
    and a half days on: between the two both hold, and one of them always
    does.  Unticking clears the payment, ticking sets it to the instant of
    the click, which counts as recent within the same bounds. *)
Theorem wifi_window (now p : Z) :
  (isWifiPaidRecently now (Some (Some p)) = true <->
   2 * Z.abs (p - now) < 13 * msPerDay) /\
  (wifiWarning now (Some (Some p)) = true <->
   11 * msPerDay <= 2 * Z.abs (p - now)) /\
  isWifiPaidRecently now (Some (Some p)) || wifiWarning now (Some (Some p)) = true /\
  isWifiPaidRecently now (handleToggleWifi true p) = false /\
  isWifiPaidRecently now (handleToggleWifi false p)
  = isWifiPaidRecently now (Some (Some p)) /\
  isWifiPaidRecently now (Some None) = false /\
  wifiWarning now (Some None) = false.
Proof.
  unfold isWifiPaidRecently, wifiWarning, handleToggleWifi, daysBetween.
  pose proof (Math_round_div_spec (Z.abs (p - now)) oneDay eq_refl) as R.
  remember (Math_round_div (Z.abs (p - now)) oneDay) as n eqn:En.
  change oneDay with 86400000 in R. unfold msPerDay.
  destruct (Z.ltb_spec n 7), (Z.geb_spec n 6); cbn [orb];
    repeat split; intros; try discriminate; try reflexivity; lia.
Qed.

(** *** The miscellaneous expenses *)

Lemma filter_absent (id0 : string) (logs : list ExpenseLog) :
  (forall l, In l logs -> lid l <> id0) ->
  filter (fun log => negb (String.eqb (lid log) id0)) logs = logs.
Proof.
  intros H. induction logs as [|x logs IH]; [reflexivity|].
  cbn [filter]. destruct (String.eqb_spec (lid x) id0) as [Q|Q].
  - destruct (H x (or_introl eq_refl) Q).
  - cbn [negb]. f_equal. apply IH. intros l Hl. apply H. now right.
Qed.

(** X21. The misc total follows the logs, on whole amounts.  When the total
    holds the whole number [m >= 0] and the new log the whole amount
    [a >= 0], with [m + a] at most 2^53: adding the log makes the total
    [m + a] and puts the log after the others; deleting the log just added,
    with its amount, gives back the state there was, provided no log had the
    id of the new one; and deleting a log with a whole amount [b] makes the
    total [m - b], or 0 when [b] is more than the total. *)
Theorem misc_total_follows_logs (now : Z) (newMiscLog : NewMiscLog)
    (s : Spending) (m a : Z) :
  actualMiscSpending s = ofZ m -> nl_amount newMiscLog = ofZ a ->
  0 <= m -> 0 <= a -> m + a <= 2 ^ 53 ->
  actualMiscSpending (handleAddMiscLog now newMiscLog s) = ofZ (m + a) /\
  miscLogs (handleAddMiscLog now newMiscLog s)
  = miscLogs s ++ [mkLog (toString now) (nl_name newMiscLog) (ofZ a)
                         (newDateOfField (nl_date newMiscLog))] /\
  ((forall l, In l (miscLogs s) -> lid l <> toString now) ->
   handleDeleteMiscLog (toString now) (nl_amount newMiscLog)
                       (handleAddMiscLog now newMiscLog s) = s) /\
  (forall id0 b, 0 <= b <= 2 ^ 53 ->
     actualMiscSpending (handleDeleteMiscLog id0 (ofZ b) s) = ofZ (Z.max 0 (m - b))).
Proof.
  intros Em Ea Hm Ha B. change (2 ^ 53) with 9007199254740992 in *.
  destruct s as [food misc0 logs]. cbn [actualMiscSpending miscLogs] in *.
  subst misc0. unfold handleAddMiscLog, handleDeleteMiscLog.
  cbn [actualFoodSpending actualMiscSpending miscLogs lamount]. rewrite Ea.
  rewrite jsAdd_Z by lia.
  split; [reflexivity|]. split; [reflexivity|]. split.
  - intros H. rewrite jsSub_Z by lia. rewrite Math_max_Z.
    rewrite filter_app. cbn [filter lid]. rewrite String.eqb_refl. cbn [negb].
    rewrite app_nil_r, (filter_absent _ _ H). do 2 f_equal. lia.
  - intros id0 b Hb. rewrite jsSub_Z by lia. apply Math_max_Z.
Qed.

Lemma misc_total_follows_logs_witness :
  0 <= 50000 /\ 0 <= 20000 /\ 50000 + 20000 <= 2 ^ 53 /\
  handleDeleteMiscLog (toString 1706745600000) (ofZ 20000)
    (handleAddMiscLog 1706745600000
       (mkNewLog "Cà phê" (ofZ 20000) (dateString (isoDate 2024 2 1)))
       (mkSpending (ofZ 0) (ofZ 50000)
                   [mkLog "m1" "Sách" (ofZ 30000) (isoDate 2024 1 30)]))
  = mkSpending (ofZ 0) (ofZ 50000)
               [mkLog "m1" "Sách" (ofZ 30000) (isoDate 2024 1 30)].
Proof.
  assert (P : 0 <= 50000) by discriminate.
  assert (Q : 0 <= 20000) by discriminate.
  assert (B : 50000 + 20000 <= 2 ^ 53) by discriminate.
  split; [exact P|]. split; [exact Q|]. split; [exact B|].
  apply (misc_total_follows_logs 1706745600000
           (mkNewLog "Cà phê" (ofZ 20000) (dateString (isoDate 2024 2 1)))
           (mkSpending (ofZ 0) (ofZ 50000)
                       [mkLog "m1" "Sách" (ofZ 30000) (isoDate 2024 1 30)])
           50000 20000 eq_refl eq_refl P Q B).
  intros l [<-|[]]. vm_compute. discriminate.
Defined.

(** An amount that is not a whole number does not come back: on a total of
    0.1, adding a log of 0.2 and deleting it leaves 0.10000000000000003. *)
Example misc_total_of_fractions :
  actualMiscSpending
    (handleDeleteMiscLog (toString 5) (parseFloat (2 # 10))
       (handleAddMiscLog 5 (mkNewLog "x" (parseFloat (2 # 10)) emptyField)
          (mkSpending (ofZ 0) (parseFloat (1 # 10)) [])))
  <> parseFloat (1 # 10).
Proof. vm_compute. discriminate. Qed.

(** *** The wallet import *)

Lemma filter_filter {A : Type} (p q : A -> bool) (l : list A) :
  filter q (filter p l) = filter (fun x => p x && q x) l.
Proof.
  induction l as [|x l IH]; [reflexivity|].
  cbn [filter]. destruct (p x); cbn [filter andb]; [|exact IH].
  destruct (q x); now rewrite IH.
Qed.

Lemma amountOf_cons t l : amountOf (t :: l) = wholeOf (tramount t) + amountOf l.
Proof. reflexivity. Qed.

Lemma amountOf_nonneg l :
  Forall (fun t => isWhole (tramount t) /\ 0 <= wholeOf (tramount t)) l ->
  0 <= amountOf l.
Proof.
  induction 1 as [|t l [_ T] _ IH]; [reflexivity|]. rewrite amountOf_cons. lia.
Qed.

(** The sum of whole amounts that are not negative is exact as long as it
    is at most 2^53. *)
Lemma sumAmounts_fold l : forall a,
  Forall (fun t => isWhole (tramount t) /\ 0 <= wholeOf (tramount t)) l ->
  0 <= a -> a + amountOf l <= 2 ^ 53 ->
  fold_left (fun sum t => jsAdd sum (tramount t)) l (ofZ a) = ofZ (a + amountOf l).
Proof.
  change (2 ^ 53) with 9007199254740992.
  induction l as [|t l IH]; intros a F Ha B; cbn [fold_left].
  - f_equal. unfold amountOf. cbn. lia.
  - inversion F as [|? ? [W P] F']; subst. rewrite amountOf_cons in B.
    pose proof (amountOf_nonneg l F') as N.
    rewrite W. rewrite jsAdd_Z by (change (2 ^ 53) with 9007199254740992; lia).
    rewrite IH by (try assumption; lia). rewrite amountOf_cons. f_equal. lia.
Qed.

Lemma sumAmounts_amountOf l :
  Forall (fun t => isWhole (tramount t) /\ 0 <= wholeOf (tramount t)) l ->
  amountOf l <= 2 ^ 53 ->
  sumAmounts l = ofZ (amountOf l).
Proof.
  intros F B. unfold sumAmounts. rewrite sumAmounts_fold by (try assumption; lia).
  reflexivity.
Qed.

Lemma selectedOf_selectedOf c1 c2 l :
  selectedOf c1 (selectedOf c2 l)
  = if String.eqb c1 c2 then selectedOf c1 l else [].
Proof.
  unfold selectedOf. rewrite filter_filter.
  destruct (String.eqb_spec c1 c2) as [->|Q].
  - apply filter_ext. intros t.
    destruct (isSelected t), (String.eqb (category t) c2); reflexivity.
  - induction l as [|t l IH]; [reflexivity|].
    cbn [filter]. rewrite IH.
    destruct (isSelected t); cbn [andb]; [|reflexivity].
    destruct (String.eqb_spec (category t) c2) as [C2|C2],
             (String.eqb_spec (category t) c1) as [C1|C1];
      try reflexivity. congruence.
Qed.

(** The import reads the selected transactions of the two categories and
    nothing else. *)
Lemma import_by_category l s :
  handleImportMomoTransactions l s
  = mkSpending
      (if jsGt (sumAmounts (selectedOf "food" l)) (ofZ 0)
       then jsAdd (actualFoodSpending s) (sumAmounts (selectedOf "food" l))
       else actualFoodSpending s)
      (if jsGt (sumAmounts (selectedOf "misc" l)) (ofZ 0)
       then jsAdd (actualMiscSpending s) (sumAmounts (selectedOf "misc" l))
       else actualMiscSpending s)
      (if 0 <? Z.of_nat (List.length (map logOf (selectedOf "misc" l)))
       then miscLogs s ++ map logOf (selectedOf "misc" l)
       else miscLogs s).
Proof.
  unfold handleImportMomoTransactions, selectedOf.
  rewrite !filter_filter. reflexivity.
Qed.

Lemma add_selected_total (x : Z) (found : list Transaction) (cat : string) :
  Forall (fun t => isWhole (tramount t) /\ 0 <= wholeOf (tramount t)) found ->
  0 <= x -> x + amountOf (selectedOf cat found) <= 2 ^ 53 ->
  (if jsGt (sumAmounts (selectedOf cat found)) (ofZ 0)
   then jsAdd (ofZ x) (sumAmounts (selectedOf cat found))
   else ofZ x)
  = ofZ (x + amountOf (selectedOf cat found)).
Proof.
  intros W Hx B.
  assert (F : Forall (fun t => isWhole (tramount t) /\ 0 <= wholeOf (tramount t))
                     (selectedOf cat found)).
  { apply Forall_forall. intros t Ht. apply filter_In in Ht.
    rewrite Forall_forall in W. apply W. exact (proj1 Ht). }
  pose proof (amountOf_nonneg _ F) as N.
  rewrite sumAmounts_amountOf by (try assumption; lia).
  rewrite jsGt_Z.
  destruct (Z.gtb_spec (amountOf (selectedOf cat found)) 0) as [G|G].
  - apply jsAdd_Z. lia.
  - f_equal. lia.
Qed.

(** X22. The wallet import, on whole amounts.  When the two totals hold
    whole numbers that are not negative, the transactions found hold whole
    amounts that are not negative, and the new totals are at most 2^53: the
    food total rises by the amounts of the selected food transactions, the
    misc total by those of the selected misc transactions, each of which is
    logged after the logs there are, in the order of the list; and the
    transactions that are not selected, or are of another category, change
    nothing. *)
Theorem import_adds_the_selection (found : list Transaction) (s : Spending)
    (f m : Z) :
  actualFoodSpending s = ofZ f -> actualMiscSpending s = ofZ m ->
  0 <= f -> 0 <= m ->
  Forall (fun t => isWhole (tramount t) /\ 0 <= wholeOf (tramount t)) found ->
  f + amountOf (selectedOf "food" found) <= 2 ^ 53 ->
  m + amountOf (selectedOf "misc" found) <= 2 ^ 53 ->
  actualFoodSpending (handleImportMomoTransactions found s)
  = ofZ (f + amountOf (selectedOf "food" found)) /\
  actualMiscSpending (handleImportMomoTransactions found s)
  = ofZ (m + amountOf (selectedOf "misc" found)) /\
  miscLogs (handleImportMomoTransactions found s)
  = miscLogs s ++ map logOf (selectedOf "misc" found) /\
  handleImportMomoTransactions
    (selectedOf "food" found ++ selectedOf "misc" found) s
  = handleImportMomoTransactions found s.
Proof.
  intros Ef Em Hf Hm W Bf Bm.
  rewrite (import_by_category found).
  cbn [actualFoodSpending actualMiscSpending miscLogs].
  split; [|split; [|split]].
  - rewrite Ef. now apply add_selected_total.
  - rewrite Em. now apply add_selected_total.
  - destruct (map logOf (selectedOf "misc" found)) as [|x l];
      [cbn; now rewrite app_nil_r|reflexivity].
  - assert (S : forall cat,
               selectedOf cat (selectedOf "food" found ++ selectedOf "misc" found)
               = selectedOf cat (selectedOf "food" found)
                 ++ selectedOf cat (selectedOf "misc" found)).
    { intros cat. unfold selectedOf. apply filter_app. }
    rewrite import_by_category, !S, !selectedOf_selectedOf.
    cbn [String.eqb Ascii.eqb Bool.eqb].
    cbn [app]. rewrite app_nil_r. reflexivity.
Qed.

Lemma import_adds_the_selection_witness :
  0 <= 100000 /\ 0 <= 0 /\
  actualFoodSpending
    (handleImportMomoTransactions
       [mkTx "t1" "Phở" (ofZ 45000) (isoDate 2024 2 1) "food" true;
        mkTx "t2" "Vé xem phim" (ofZ 90000) (isoDate 2024 2 1) "misc" true;
        mkTx "t3" "Bún chả" (ofZ 40000) (isoDate 2024 2 1) "food" false]
       (mkSpending (ofZ 100000) (ofZ 0) []))
  = ofZ 145000.
Proof.
  assert (P : 0 <= 100000) by discriminate.
  assert (Q : 0 <= 0) by discriminate.
  split; [exact P|]. split; [exact Q|].
  refine (proj1 (import_adds_the_selection
                   [mkTx "t1" "Phở" (ofZ 45000) (isoDate 2024 2 1) "food" true;
                    mkTx "t2" "Vé xem phim" (ofZ 90000) (isoDate 2024 2 1) "misc" true;
                    mkTx "t3" "Bún chả" (ofZ 40000) (isoDate 2024 2 1) "food" false]
                   (mkSpending (ofZ 100000) (ofZ 0) []) 100000 0
                   eq_refl eq_refl P Q _ _ _)).
  - repeat constructor; discriminate.
  - vm_compute. discriminate.
  - vm_compute. discriminate.
Defined.

(** X23. Toggling the selection of a transaction twice gives back the list
    of the transactions found; one toggle changes the selection flag of the
    transactions of the id and nothing else. *)
Theorem toggle_selection_twice (id0 : string) (found : list Transaction) :
  toggleTransactionSelection id0 (toggleTransactionSelection id0 found) = found /\
  Forall2 (fun t t' =>
             trid t' = trid t /\ description t' = description t /\
             tramount t' = tramount t /\ trdate t' = trdate t /\
             category t' = category t /\
             isSelected t' = (if String.eqb (trid t) id0
                              then negb (isSelected t) else isSelected t))
          found (toggleTransactionSelection id0 found).
Proof.
  split.
  - unfold toggleTransactionSelection. rewrite map_map.
    rewrite <- (map_id found) at 2. apply map_ext. intros t.
    destruct (String.eqb (trid t) id0) eqn:Q.
    + cbn [trid description tramount trdate category isSelected].
      rewrite Q, negb_involutive. now destruct t.
    + now rewrite Q.
  - unfold toggleTransactionSelection.
    induction found as [|t l IH]; cbn [map]; constructor; [|exact IH].
    destruct (String.eqb (trid t) id0); repeat split.
Qed.

End HouseholdFacts.

(** ** Paying a debt off, and the monthly series *)

Module SeriesFacts.
Import JSDate DateUtils DateUtilsMore App AppMore Props PropsMore Samples.
Import CalendarFacts LedgerFacts RecurringFacts.

#[local] Opaque climbYear YearFromDay DayFromYear.

(** *** The item of a debt that is paid off *)








(** *** The monthly series *)

Lemma monthly_loop tza now nd endDate fuel : forall c count acc ds,
  getDate tza c <= 28 ->
  recurringLoop tza fuel now nd monthly endDate (Some c) count acc = Some ds ->
  exists new,
    ds = acc ++ new /\
    forall i d, nth_error new i = Some d ->
      exists c', d = installment tza now nd monthly c' (count + Z.of_nat i) /\
                 getDate tza c' = getDate tza c /\
                 monthIndex tza c' = monthIndex tza c + Z.of_nat i /\
                 date_le (Some c') endDate = true.
Proof.
  induction fuel as [|fuel IH]; intros c count acc ds D L.
  - exists []. cbn [recurringLoop] in L. destruct endDate as [e|].
    + destruct (c <=? e); [discriminate|]. injection L as <-.
      split; [now rewrite app_nil_r|]. intros [|i] d H; discriminate.
    + injection L as <-.
      split; [now rewrite app_nil_r|]. intros [|i] d H; discriminate.
  - destruct endDate as [e|].
    2:{ rewrite loop_invalid in L by (left; reflexivity). injection L as <-.
        exists []. split; [now rewrite app_nil_r|].
        intros [|i] d H; discriminate. }
    destruct (Z.le_gt_cases c e) as [Le|Gt].
    2:{ rewrite loop_exit in L by lia. injection L as <-.
        exists []. split; [now rewrite app_nil_r|].
        intros [|i] d H; discriminate. }
    rewrite loop_step in L by exact Le.
    assert (First : forall d, Some (installment tza now nd monthly c count) = Some d ->
              exists c', d = installment tza now nd monthly c' (count + Z.of_nat 0) /\
                         getDate tza c' = getDate tza c /\
                         monthIndex tza c' = monthIndex tza c + Z.of_nat 0 /\
                         date_le (Some c') (Some e) = true).
    { intros d H. injection H as <-. exists c.
      cbn [Z.of_nat]. rewrite !Z.add_0_r.
      split; [reflexivity|]. split; [reflexivity|]. split; [reflexivity|].
      cbn [date_le]. now apply Z.leb_le. }
    destruct (advance tza monthly c) as [c'|] eqn:A.
    + pose proof (MonthFromTime_range (LocalTime tza c)) as Rm.
      fold (getMonth tza c) in Rm.
      assert (Rm' : 0 <= (getMonth tza c + 1) mod 12 <= 11)
        by (pose proof (Z.mod_pos_bound (getMonth tza c + 1) 12); lia).
      pose proof (daysInMonth_range
                    (getFullYear tza c + (getMonth tza c + 1) / 12) _ Rm') as Rd.
      destruct (monthly_step_regular tza c c' ltac:(lia) A) as (Y & M & D' & _).
      destruct (IH c' (count + 1) _ ds ltac:(lia) L) as (new & -> & H).
      exists (installment tza now nd monthly c count :: new).
      split; [now rewrite <- app_assoc|].
      intros [|i] d Hi; [exact (First d Hi)|].
      cbn [nth_error] in Hi. destruct (H i d Hi) as (c'' & -> & G1 & G2 & G3).
      exists c''. split; [f_equal; lia|]. split; [congruence|].
      split; [|exact G3].
      rewrite G2. unfold monthIndex. rewrite Y, M.
      revert Rm. generalize (getMonth tza c). intros m Rm.
      Z.div_mod_to_equations. lia.
    + rewrite loop_invalid in L by (right; reflexivity). injection L as <-.
      exists [installment tza now nd monthly c count]. split; [reflexivity|].
      intros [|i] d Hi; [exact (First d Hi)|].
      destruct i; discriminate.
Qed.

(** X25. A monthly series that starts on a day of the month up to the
    28th has its installments on the same day of consecutive calendar
    months: the installment number [i + 1] is due on that day of the month
    that comes [i] months after the start month, not after the end date, and
    is budgeted to that month and year. *)
Theorem monthly_series_keeps_the_day (tza : Z) (fuel : nat) (now : Z)
    (nd : NewDebt) (endDate : Date) (c0 : Z) (ds : list Debt) :
  getDate tza c0 <= 28 ->
  recurringLoop tza fuel now nd monthly endDate (Some c0) 1 [] = Some ds ->
  forall i d, nth_error ds i = Some d ->
    exists c,
      dueDate d = Some c /\
      getDate tza c = getDate tza c0 /\
      monthIndex tza c = monthIndex tza c0 + Z.of_nat i /\
      date_le (Some c) endDate = true /\
      targetMonth d = Some (getMonth tza c) /\
      targetYear d = Some (getFullYear tza c) /\
      id d = (toString now ++ "-" ++ toString (1 + Z.of_nat i))%string.
Proof.
  intros D L i d H.
  destruct (monthly_loop tza now nd endDate fuel c0 1 [] ds D L) as (new & -> & N).
  cbn [app] in H. destruct (N i d H) as (c & -> & G1 & G2 & G3).
  exists c. repeat split; assumption.
Qed.

Lemma monthly_series_keeps_the_day_witness :
  exists ds,
    recurringLoop indochina 20 1700000000000 fromJan15 monthly
                  (isoDate 2024 4 15) (Some 1705276800000) 1 [] = Some ds /\
    exists d c,
      nth_error ds 2 = Some d /\ dueDate d = Some c /\
      monthIndex indochina c = monthIndex indochina 1705276800000 + 2.
Proof.
  destruct (recurringLoop indochina 20 1700000000000 fromJan15 monthly
              (isoDate 2024 4 15) (Some 1705276800000) 1 []) as [ds|] eqn:L;
    [|vm_compute in L; discriminate].
  exists ds. split; [reflexivity|].
  destruct (nth_error ds 2) as [d|] eqn:H.
  - assert (D : getDate indochina 1705276800000 <= 28)
      by (vm_compute; discriminate).
    destruct (monthly_series_keeps_the_day indochina 20 1700000000000 fromJan15
                (isoDate 2024 4 15) 1705276800000 ds D L 2%nat d H)
      as (c & E & _ & M & _).
    exists d, c. split; [reflexivity|]. split; [exact E|exact M].
  - vm_compute in L. injection L as <-. discriminate.
Defined.

End SeriesFacts.

(** ** The week picker of the filter dialog *)

Module PickerFacts.
Import JSDate DateUtils DateUtilsMore App AppMore Props PropsMore Samples.
Import CalendarFacts WeekFacts InitialFilterFacts.

#[local] Opaque climbYear YearFromDay DayFromYear.

Lemma weeks_of_year tza year :
  ~ (0 <= year <= 99) ->
  getWeeksInYear tza year = map (weekEntry tza year) (oneTo 53).
Proof.
  intros Hy.
  assert (W : forall b : bool,
             Z.to_nat (Math_ceil_div (if b then 366 else 365) 7) = 53%nat)
    by (intros []; reflexivity).
  unfold getWeeksInYear. cbv zeta. rewrite W. change 1 with (Z.of_nat 1).
  rewrite (weeksLoop_runs tza year 53 1 []) by (assumption || lia). reflexivity.
Qed.

Lemma in_oneTo n i : In i (oneTo n) <-> 1 <= i <= Z.of_nat n.
Proof.
  unfold oneTo. rewrite in_map_iff. split.
  - intros (k & <- & H). apply in_seq in H. lia.
  - intros H. exists (Z.to_nat i). split; [lia|]. apply in_seq. lia.
Qed.

(** The week filter of a week 1 to 53 of a year of four digits holds of the
    dates of the Monday-to-Sunday week of the day 1 January + 7 (w - 1). *)
Lemma week_filter_normal tza t year w :
  1000 <= year <= 9999 -> Z.abs tza <= msPerDay -> 1 <= w <= 53 ->
  (isDateInFilter tza (Some t) (mkFilter FWeek year None (Some w)) = true <->
   mondayOf (DayFromYear year + 7 * (w - 1)) = mondayOf (localDay tza t)).
Proof.
  intros HY Ht Hw.
  assert (E1 : DayFromYear 999 = -354650) by (vm_compute; reflexivity).
  assert (E2 : DayFromYear 10001 = 2933263) by (vm_compute; reflexivity).
  set (J := DayFromYear year).
  assert (BJ : -354650 <= J /\ J + 366 <= 2933263).
  { pose proof (DayFromYear_le 999 year ltac:(lia)).
    pose proof (DayFromYear_le (year + 1) 10001 ltac:(lia)) as U.
    rewrite DayFromYear_succ in U. fold J in U.
    assert (DaysInYear year <= 366)
      by (unfold DaysInYear; destruct (isLeap year); lia).
    pose proof (DayFromYear_succ 10000) as S0.
    pose proof (DayFromYear_le (year + 1) 10000 ltac:(lia)) as U'.
    rewrite DayFromYear_succ in U'. fold J in U'.
    change (10000 + 1) with 10001 in S0.
    assert (365 <= DaysInYear 10000) by (vm_compute; discriminate).
    assert (365 <= DaysInYear year)
      by (unfold DaysInYear; destruct (isLeap year); lia).
    unfold J. lia. }
  assert (V : forall dy off, -400000 <= dy <= 3000000 ->
              Z.abs off <= 2 * msPerDay ->
              TimeClip (dy * msPerDay + off) = Some (dy * msPerDay + off)).
  { intros dy off Hd Ho. apply TimeClip_ok. unfold msPerDay, maxTime in *. lia. }
  unfold isDateInFilter. cbn [ftype fweek fyear].
  destruct (Z.eqb_spec w 0) as [W0|_]; [lia|].
  rewrite getWeekRange_normal. cbv zeta.
  replace ((0 <=? year) && (year <=? 99)) with false
    by (symmetry; apply andb_false_iff; rewrite !Z.leb_gt; lia).
  fold J. set (A := J + 7 * (w - 1)).
  assert (HA : J <= A <= J + 364) by (unfold A; lia).
  assert (HM : A - 6 <= mondayOf A <= A)
    by (unfold mondayOf; pose proof (Z.mod_pos_bound (A + 3) 7 eq_refl); lia).
  assert (VM : forall dy, -400000 <= dy <= 3000000 ->
               TimeClip (localMidnight tza dy) = Some (localMidnight tza dy)).
  { intros dy Hd. unfold localMidnight.
    replace (dy * msPerDay - tza) with (dy * msPerDay + - tza) by lia.
    apply V; [assumption | unfold msPerDay in *; lia]. }
  rewrite !VM by lia. cbn [rstart rend].
  rewrite setHours_end_of_day.
  assert (EOD : endOfLocalDay tza (localMidnight tza (mondayOf A + 6))
                = (mondayOf A + 7) * msPerDay + (- 1 - tza)).
  { unfold endOfLocalDay. fold (localDay tza (localMidnight tza (mondayOf A + 6))).
    rewrite localDay_localMidnight. lia. }
  assert (VE : TimeClip (endOfLocalDay tza (localMidnight tza (mondayOf A + 6)))
               = Some (endOfLocalDay tza (localMidnight tza (mondayOf A + 6)))).
  { rewrite EOD. apply V; [lia | unfold msPerDay in *; lia]. }
  rewrite VE. unfold date_ge, date_le.
  rewrite andb_true_iff, !Z.leb_le, midnight_le_iff, endOfLocalDay_last.
  fold (localDay tza t) (localDay tza (localMidnight tza (mondayOf A + 6))).
  rewrite localDay_localMidnight.
  apply in_week_iff_same_monday.
Qed.

(** Which days of a year share their week with one of the days
    [J + 7 (i - 1)], for [i] from 1 to 53. *)
Lemma weeks_reach J L n :
  365 <= n <= 366 -> J <= L < J + n ->
  ((exists i, 1 <= i <= 53 /\ mondayOf (J + 7 * (i - 1)) = mondayOf L) <->
   ~ (L = J + 365 /\ (L + 4) mod 7 = 1)).
Proof.
  intros Hn HL. split.
  - intros (i & Hi & E) [E1 E2]. unfold mondayOf in E.
    revert E. Z.div_mod_to_equations. lia.
  - intros N. exists ((mondayOf L - mondayOf J) / 7 + 1).
    unfold mondayOf in *. Z.div_mod_to_equations. lia.
Qed.

(** The last day of a leap year in terms of the fields of the date. *)
Lemma last_day_of_leap_year tza t :
  localDay tza t = DayFromYear (getFullYear tza t) + 365 <->
  isLeap (getFullYear tza t) = true /\ getMonth tza t = 11 /\ getDate tza t = 31.
Proof.
  unfold getMonth, getDate, getFullYear, localDay, DateFromTime, MonthFromTime,
    InLeapYear.
  pose proof (DayWithinYear_range (LocalTime tza t)) as R.
  unfold DayWithinYear in *. unfold DaysInYear in R.
  set (Y := YearFromTime (LocalTime tza t)) in *.
  set (dy := Day (LocalTime tza t) - DayFromYear Y) in *.
  split.
  - intros E. assert (D : dy = 365) by (unfold dy; lia).
    destruct (isLeap Y); [|lia]. rewrite D. repeat split.
  - intros (Lp & M & D). rewrite Lp in *. rewrite M in D.
    cbn [monthStart] in D. unfold dy in D. lia.
Qed.

(** X26. The week picker of the filter dialog offers the 53 weeks of
    [getWeeksInYear].  For a year of four digits (and a zone within a day of
    UTC), a date of the year passes the week filter of one of them, except
    31 December of a leap year when it is a Monday (as in 2012 and 2040):
    week 53 then ends on the 30th, and the date is reached only as week 1
    of the next year. *)
Theorem week_picker_covers_the_year (tza year t : Z) :
  1000 <= year <= 9999 -> Z.abs tza <= msPerDay ->
  getFullYear tza t = year ->
  ((exists e, In e (getWeeksInYear tza year) /\
              isDateInFilter tza (Some t)
                (mkFilter FWeek year None (Some (week e))) = true) <->
   ~ (isLeap year = true /\ getMonth tza t = 11 /\ getDate tza t = 31 /\
      getDay tza t = 1)).
Proof.
  intros HY Ht EY.
  rewrite weeks_of_year by lia.
  set (L := localDay tza t).
  pose proof (YearFromDay_spec L) as SL.
  assert (YL : YearFromDay L = year) by (rewrite <- EY; reflexivity).
  rewrite YL, DayFromYear_succ in SL.
  assert (Hn : 365 <= DaysInYear year <= 366)
    by (unfold DaysInYear; destruct (isLeap year); lia).
  pose proof (weeks_reach (DayFromYear year) L (DaysInYear year) Hn SL) as W.
  pose proof (last_day_of_leap_year tza t) as D. rewrite EY in D. fold L in D.
  rewrite getDay_localDay. fold L.
  split.
  - intros (e & He & F) (Lp & M & Dt & Mon).
    apply in_map_iff in He. destruct He as (i & <- & Hi).
    apply in_oneTo in Hi. cbn [week weekEntry] in F.
    apply week_filter_normal in F; [|lia|exact Ht|lia]. fold L in F.
    apply (proj1 W); [exists i; split; [lia|exact F]|].
    split; [apply D; repeat split; assumption|exact Mon].
  - intros N.
    destruct (proj2 W) as (i & Hi & E).
    { intros [E1 E2]. apply N. apply D in E1. destruct E1 as (Lp & M & Dt).
      repeat split; assumption. }
    exists (weekEntry tza year i). split.
    + apply in_map. apply in_oneTo. lia.
    + cbn [week weekEntry]. apply week_filter_normal; [lia|exact Ht|lia|exact E].
Qed.

Lemma week_picker_covers_the_year_witness :
  1000 <= 2012 <= 9999 /\ Z.abs indochina <= msPerDay /\
  getFullYear indochina 1356886800000 = 2012 /\
  ~ (exists e, In e (getWeeksInYear indochina 2012) /\
               isDateInFilter indochina (Some 1356886800000)
                 (mkFilter FWeek 2012 None (Some (week e))) = true).
Proof.
  assert (H1 : 1000 <= 2012 <= 9999) by lia.
  assert (H2 : Z.abs indochina <= msPerDay) by (vm_compute; discriminate).
  assert (H3 : getFullYear indochina 1356886800000 = 2012)
    by (vm_compute; reflexivity).
  split; [exact H1|]. split; [exact H2|]. split; [exact H3|].
  intros C.
  apply (proj1 (week_picker_covers_the_year indochina 2012 1356886800000
                  H1 H2 H3) C).
  vm_compute. repeat split.
Defined.

End PickerFacts.

(** ** Opening the form on a debt and saving it *)

Module EditFacts.
Import JSDate DateUtils DateUtilsMore App AppMore Props PropsMore Samples.
Import CalendarFacts LedgerFacts WeekFacts InitialFilterFacts.

#[local] Opaque climbYear YearFromDay DayFromYear.

(** *** The due date *)

Lemma isoDateOfSlice_day t :
  0 <= YearFromTime t <= 9999 -> isoDateOfSlice t = Some (t - TimeWithinDay t).
Proof.
  intros HY. unfold isoDateOfSlice. cbv zeta.
  replace ((0 <=? YearFromTime t) && (YearFromTime t <=? 9999)) with true
    by (symmetry; apply andb_true_iff; rewrite !Z.leb_le; lia).
  rewrite <- (Z.add_0_r (DateFromTime t)), MakeDay_fields.
  assert (E0 : DayFromYear 0 = -719528) by (vm_compute; reflexivity).
  assert (E1 : DayFromYear 10000 = 2932897) by (vm_compute; reflexivity).
  pose proof (YearFromDay_spec (Day t)) as S. fold (YearFromTime t) in S.
  pose proof (DayFromYear_le 0 (YearFromTime t) ltac:(lia)).
  pose proof (DayFromYear_le (YearFromTime t + 1) 10000 ltac:(lia)).
  pose proof (MakeDate_Day t) as M. unfold MakeDate in *.
  replace (t - TimeWithinDay t) with ((Day t + 0) * msPerDay + 0) by lia.
  apply TimeClip_ok. unfold msPerDay, maxTime. lia.
Qed.

(** X27. Opening the form on a debt and saving it at once is not the
    identity.  For a debt with an id and a due date in a year from 0 to
    9999, the debts of that id keep their id, amount paid, date of creation
    and transactions and the source and total of the debt, but the due date
    comes back as midnight UTC of its UTC day (the form holds the first ten
    characters of the ISO text), the name comes back without its first
    automatic suffix, and the budget month and year become defined.  So a
    due date set at local midnight in a zone east of UTC, as that of a
    Shopee bill, moves to the day before. *)
Theorem edit_then_save (tza : Z) (fuel : nat) (now : Z) (form : DebtForm)
    (prev : list Debt) (d : Debt) (t : Z) :
  dueDate d = Some t -> 0 <= YearFromTime t <= 9999 -> id d <> EmptyString ->
  exists form' debts',
    handleEditDebt tza form d = Some form' /\
    handleSaveDebt tza fuel now form' prev = Some debts' /\
    Forall2 (fun x x' =>
               (id x <> id d -> x' = x) /\
               (id x = id d ->
                id x' = id x /\ amountPaid x' = amountPaid x /\
                createdAt x' = createdAt x /\ transactions x' = transactions x /\
                source x' = source d /\ totalAmount x' = totalAmount d /\
                name x' = trim (stripSuffix (name d)) /\
                dueDate x' = Some (t - TimeWithinDay t) /\
                targetMonth x' = Some (match targetMonth d with
                                       | Some m => m
                                       | None => getMonth tza t
                                       end) /\
                targetYear x' = Some (match targetYear d with
                                      | Some y => y
                                      | None => getFullYear tza t
                                      end)))
            prev debts' /\
    0 <= TimeWithinDay t < msPerDay /\
    (0 < tza < msPerDay -> TimeWithinDay (LocalTime tza t) = 0 ->
     localDay tza (t - TimeWithinDay t) = localDay tza t - 1).
Proof.
  intros D HY I. unfold handleEditDebt. rewrite D.
  eexists. eexists. split; [reflexivity|].
  unfold handleSaveDebt. cbn [editingDebtId newDebt].
  rewrite (truthyId_some (id d) I). split; [reflexivity|].
  split; [|split].
  - apply Forall2_map_same. intros x _.
    destruct (String.eqb_spec (id x) (id d)) as [Q|Q].
    + split; [intros C; contradiction|]. intros _.
      cbn [id amountPaid createdAt transactions source totalAmount name dueDate
           targetMonth targetYear nd_name nd_source nd_totalAmount nd_dueDate
           nd_targetMonth nd_targetYear newDateOfField].
      rewrite (isoDateOfSlice_day t HY). repeat split.
    + split; [reflexivity|]. intros C. contradiction.
  - unfold TimeWithinDay. apply Z.mod_pos_bound. reflexivity.
  - intros Hz M. unfold localDay, LocalTime, Day, TimeWithinDay, msPerDay in *.
    Z.div_mod_to_equations. lia.
Qed.

Lemma edit_then_save_witness :
  exists debts',
    handleSaveDebt indochina 0 1706832000000
      (mkForm (Some "1706745600000"%string) standard false
              (mkNewDebt "SPayLater - Hóa đơn T1" "Shopee SPayLater" 500
                         (dateString (isoDateOfSlice 1707498000000)) 1 2024)
              0 2024 monthly emptyField)
      [shopeeDebt indochina 1706745600000 fromJan1 0 2024] = Some debts' /\
    map dueDate debts' = [Some 1707436800000] /\
    getDate indochina 1707498000000 = 10 /\
    getDate indochina 1707436800000 = 9.
Proof.
  assert (D : dueDate (shopeeDebt indochina 1706745600000 fromJan1 0 2024)
              = Some 1707498000000) by (vm_compute; reflexivity).
  assert (Y : 0 <= YearFromTime 1707498000000 <= 9999)
    by (vm_compute; split; discriminate).
  destruct (edit_then_save indochina 0 1706832000000
              (shopeeForm fromJan1 0 2024)
              [shopeeDebt indochina 1706745600000 fromJan1 0 2024]
              (shopeeDebt indochina 1706745600000 fromJan1 0 2024)
              1707498000000 D Y)
    as (form' & debts' & E & S & _); [discriminate|].
  vm_compute in E. injection E as <-.
  exists debts'. split; [exact S|].
  vm_compute in S. injection S as <-.
  split; [reflexivity|]. split; vm_compute; reflexivity.
Defined.

(** *** The name *)

Lemma skipDigits_none r : noDigitAhead r = true -> skipDigits r = r.
Proof.
  destruct r as [|c r]; [reflexivity|]. cbn [noDigitAhead skipDigits].
  destruct (isDigit c); [discriminate|reflexivity].
Qed.

Lemma skipDigits_uint d r :
  noDigitAhead r = true -> skipDigits (NilEmpty.string_of_uint d ++ r) = r.
Proof.
  intros H. induction d; cbn [NilEmpty.string_of_uint append];
    [apply skipDigits_none; exact H | ..]; exact IHd.
Qed.

Lemma afterDigits_uint d r :
  noDigitAhead r = true -> afterDigits (NilZero.string_of_uint d ++ r) = Some r.
Proof.
  intros H. destruct d; cbn [NilZero.string_of_uint NilEmpty.string_of_uint append];
    [exact (f_equal Some (skipDigits_none r H)) | ..];
    exact (f_equal Some (skipDigits_uint d r H)).
Qed.

Lemma afterDigits_toString n r :
  0 <= n -> noDigitAhead r = true -> afterDigits (toString n ++ r) = Some r.
Proof.
  intros Hn H. unfold toString.
  destruct n as [|p|p]; [| |lia];
    cbn [Z.to_int NilZero.string_of_int]; apply afterDigits_uint; exact H.
Qed.

Lemma afterText_app p s : afterText p (p ++ s) = Some s.
Proof.
  induction p as [|c p IH]; [reflexivity|].
  cbn [append afterText]. now rewrite Ascii.eqb_refl.
Qed.

Lemma afterSuffix_no_paren c s :
  Ascii.eqb "(" c = false -> afterSuffix (String c s) = None.
Proof. intros H. unfold afterSuffix. cbn [afterText]. rewrite H. reflexivity. Qed.

Lemma stripSuffix_app p s :
  noParen p = true -> stripSuffix (p ++ s) = (p ++ stripSuffix s)%string.
Proof.
  induction p as [|c p IH]; intros H; [reflexivity|].
  cbn [noParen] in H. apply andb_true_iff in H. destruct H as [Hc Hp].
  apply negb_true_iff in Hc.
  cbn [append stripSuffix]. rewrite (afterSuffix_no_paren _ _ Hc).
  now rewrite IH.
Qed.

Lemma stripSuffix_of_suffix freq month year count :
  0 <= month + 1 -> 0 <= year -> 0 <= count ->
  stripSuffix (debtNameSuffix freq month year count) = EmptyString.
Proof.
  intros Hm Hy Hc. destruct freq; unfold debtNameSuffix.
  - assert (E : afterSuffix ("(Kỳ " ++ toString count ++ ")") = Some EmptyString).
    { unfold afterSuffix.
      replace (afterText "(Tháng " ("(Kỳ " ++ toString count ++ ")")) with (@None string)
        by reflexivity.
      cbn [andThen]. rewrite afterText_app. cbn [andThen].
      rewrite afterDigits_toString by (assumption || reflexivity).
      reflexivity. }
    remember ("(Kỳ " ++ toString count ++ ")")%string as s eqn:Es.
    destruct s as [|c s]; [discriminate|].
    cbn [stripSuffix]. now rewrite E.
  - assert (E : afterSuffix ("(Tháng " ++ toString (month + 1) ++ "/"
                             ++ toString year ++ ")") = Some EmptyString).
    { unfold afterSuffix. rewrite afterText_app. cbn [andThen].
      rewrite afterDigits_toString by (assumption || reflexivity).
      cbn [andThen]. rewrite (afterText_app "/"). cbn [andThen].
      rewrite afterDigits_toString by (assumption || reflexivity).
      reflexivity. }
    remember ("(Tháng " ++ toString (month + 1) ++ "/"
              ++ toString year ++ ")")%string as s eqn:Es.
    destruct s as [|c s]; [discriminate|].
    cbn [stripSuffix]. now rewrite E.
Qed.

(** A space completes no white space character of two or three bytes. *)
Lemma isWhiteSpace2_space c : isWhiteSpace2 c " "%char = false.
Proof. unfold isWhiteSpace2. apply andb_false_r. Qed.

Lemma isWhiteSpace3_space c1 c2 : isWhiteSpace3 c1 c2 " "%char = false.
Proof.
  unfold isWhiteSpace3. cbv zeta.
  change (nat_of_ascii " "%char) with 32%nat.
  change (32 =? 128)%nat with false. change (128 <=? 32)%nat with false.
  change (32 =? 168)%nat with false. change (32 =? 169)%nat with false.
  change (32 =? 175)%nat with false. change (32 =? 159)%nat with false.
  change (32 =? 191)%nat with false.
  cbn [andb orb]. now rewrite !andb_false_r.
Qed.

Lemma trimIsEmpty_app_space_upto n : forall s,
  (String.length s <= n)%nat -> trimIsEmpty (s ++ " ") = trimIsEmpty s.
Proof.
  induction n as [|n IH]; intros s L.
  - destruct s; [reflexivity|cbn in L; lia].
  - destruct s as [|c1 [|c2 [|c3 s3]]]; cbn [String.length] in L.
    + reflexivity.
    + cbn [append trimIsEmpty]. rewrite isWhiteSpace2_space.
      destruct (isWhiteSpace c1); reflexivity.
    + cbn [append]. 
      change (trimIsEmpty (String c1 (String c2 " ")))
        with (if isWhiteSpace c1 then trimIsEmpty (String c2 EmptyString ++ " ")
              else if isWhiteSpace2 c1 c2 then trimIsEmpty (EmptyString ++ " ")
                   else isWhiteSpace3 c1 c2 " "%char && true).
      change (trimIsEmpty (String c1 (String c2 EmptyString)))
        with (if isWhiteSpace c1 then trimIsEmpty (String c2 EmptyString)
              else if isWhiteSpace2 c1 c2 then trimIsEmpty EmptyString
                   else false).
      rewrite (IH (String c2 EmptyString)) by (cbn; lia).
      rewrite isWhiteSpace3_space. reflexivity.
    + change (trimIsEmpty (String c1 (String c2 (String c3 s3)) ++ " "))
        with (if isWhiteSpace c1 then trimIsEmpty (String c2 (String c3 s3) ++ " ")
              else if isWhiteSpace2 c1 c2 then trimIsEmpty (String c3 s3 ++ " ")
                   else isWhiteSpace3 c1 c2 c3 && trimIsEmpty (s3 ++ " ")).
      change (trimIsEmpty (String c1 (String c2 (String c3 s3))))
        with (if isWhiteSpace c1 then trimIsEmpty (String c2 (String c3 s3))
              else if isWhiteSpace2 c1 c2 then trimIsEmpty (String c3 s3)
                   else isWhiteSpace3 c1 c2 c3 && trimIsEmpty s3).
      rewrite (IH (String c2 (String c3 s3))) by (cbn; lia).
      rewrite (IH (String c3 s3)) by (cbn; lia).
      rewrite (IH s3) by lia. reflexivity.
Qed.

Lemma trimIsEmpty_app_space s : trimIsEmpty (s ++ " ") = trimIsEmpty s.
Proof. apply (trimIsEmpty_app_space_upto (String.length s)). lia. Qed.

Lemma trimEnd_app_space s : trimEnd (s ++ " ") = trimEnd s.
Proof.
  induction s as [|c s IH]; [reflexivity|].
  change (trimEnd (String c s ++ " "))
    with (if trimIsEmpty (String c s ++ " ") then EmptyString
          else String c (trimEnd (s ++ " "))).
  rewrite trimIsEmpty_app_space, IH. reflexivity.
Qed.

Lemma trim_app_space_upto n : forall s,
  (String.length s <= n)%nat -> trim (s ++ " ") = trim s.
Proof.
  unfold trim. induction n as [|n IH]; intros s L.
  - destruct s; [reflexivity|cbn in L; lia].
  - destruct s as [|c1 [|c2 [|c3 s3]]]; cbn [String.length] in L.
    + reflexivity.
    + cbn [append trimStart]. rewrite isWhiteSpace2_space.
      destruct (isWhiteSpace c1); [reflexivity|].
      apply (trimEnd_app_space (String c1 EmptyString)).
    + change (trimStart (String c1 (String c2 EmptyString) ++ " "))
        with (if isWhiteSpace c1 then trimStart (String c2 EmptyString ++ " ")
              else if isWhiteSpace2 c1 c2 then trimStart (EmptyString ++ " ")
                   else if isWhiteSpace3 c1 c2 " "%char then trimStart EmptyString
                        else (String c1 (String c2 EmptyString) ++ " ")%string).
      change (trimStart (String c1 (String c2 EmptyString)))
        with (if isWhiteSpace c1 then trimStart (String c2 EmptyString)
              else if isWhiteSpace2 c1 c2 then trimStart EmptyString
                   else String c1 (String c2 EmptyString)).
      rewrite isWhiteSpace3_space.
      destruct (isWhiteSpace c1); [apply IH; cbn; lia|].
      destruct (isWhiteSpace2 c1 c2); [reflexivity|].
      apply (trimEnd_app_space (String c1 (String c2 EmptyString))).
    + change (trimStart (String c1 (String c2 (String c3 s3)) ++ " "))
        with (if isWhiteSpace c1 then trimStart (String c2 (String c3 s3) ++ " ")
              else if isWhiteSpace2 c1 c2 then trimStart (String c3 s3 ++ " ")
                   else if isWhiteSpace3 c1 c2 c3 then trimStart (s3 ++ " ")
                        else (String c1 (String c2 (String c3 s3)) ++ " ")%string).
      change (trimStart (String c1 (String c2 (String c3 s3))))
        with (if isWhiteSpace c1 then trimStart (String c2 (String c3 s3))
              else if isWhiteSpace2 c1 c2 then trimStart (String c3 s3)
                   else if isWhiteSpace3 c1 c2 c3 then trimStart s3
                        else String c1 (String c2 (String c3 s3))).
      destruct (isWhiteSpace c1); [apply IH; cbn; lia|].
      destruct (isWhiteSpace2 c1 c2); [apply IH; cbn; lia|].
      destruct (isWhiteSpace3 c1 c2 c3); [apply IH; lia|].
      apply (trimEnd_app_space (String c1 (String c2 (String c3 s3)))).
Qed.

Lemma trim_app_space s : trim (s ++ " ") = trim s.
Proof. apply (trim_app_space_upto (String.length s)). lia. Qed.

(** X28. The form opens on an installment of a recurring debt with the
    name the series was created with: for a name with no opening
    parenthesis, the pattern of [handleEditDebt] finds the suffix of the
    installment, "(Kỳ n)" or "(Tháng m/y)", and the trimmed rest is the
    trimmed name of the series.  (With X27: saving the form drops the
    numbering from the name of the installment.) *)
Theorem edit_strips_the_suffix (tza now : Z) (nd : NewDebt)
    (freq : Frequency) (c count : Z) :
  noParen (nd_name nd) = true -> 0 <= count -> 0 <= getFullYear tza c ->
  trim (stripSuffix (name (installment tza now nd freq c count)))
  = trim (nd_name nd).
Proof.
  intros P Hc Hy. unfold installment. cbn [name].
  rewrite stripSuffix_app by exact P.
  change (" " ++ debtNameSuffix freq (getMonth tza c) (getFullYear tza c) count)%string
    with (String " " (debtNameSuffix freq (getMonth tza c) (getFullYear tza c) count)).
  cbn [stripSuffix]. rewrite afterSuffix_no_paren by reflexivity.
  rewrite stripSuffix_of_suffix;
    [|pose proof (MonthFromTime_range (LocalTime tza c)); unfold getMonth; lia
     |exact Hy|exact Hc].
  apply trim_app_space.
Qed.

Lemma edit_strips_the_suffix_witness :
  noParen (nd_name fromJan1) = true /\
  trim (stripSuffix
          (name (installment indochina 1706745600000 fromJan1 weekly
                             1704672000000 2)))
  = "Góp xe"%string.
Proof.
  assert (P : noParen (nd_name fromJan1) = true) by reflexivity.
  split; [exact P|].
  rewrite (edit_strips_the_suffix indochina 1706745600000 fromJan1 weekly
             1704672000000 2 P); [reflexivity|lia|vm_compute; discriminate].
Defined.

End EditFacts.
